(** * The largest-Lyapunov-exponent estimator of [src/measures.py]

    A shallow embedding of [largest_lyapunov_exponent] and of the NumPy
    operations it uses, followed by the properties of the estimator.

    Numbers.  The program computes with IEEE doubles.  The embedding keeps
    the four kinds of value a double can be (a finite number, the two
    infinities, not-a-number) and computes on the finite ones with exact
    real arithmetic: rounding, overflow and the sign of zero are not
    modelled (a zero is taken as [+0]).  NumPy's default error state is
    assumed, in which a division by zero or a logarithm of zero emits a
    warning and yields an infinity or a NaN instead of raising.  Where
    rounding decides, the module [Binary64] embeds the same lines once
    more on binary64 numbers with the rounding of every operation.

    Arrays.  All arrays are one-dimensional and hold doubles; they are
    lists.  Binary operations follow NumPy's broadcasting rule for two
    one-dimensional arrays.

    Effects.  The iterator is a pure function; the number of times it is
    called is threaded through the computation by a small state and error
    monad.  The only write to an array the caller owns is the in-place
    rescaling of [initial_perturbation] (line 45), which the result records. *)

From Stdlib Require Import Reals Lra Lia ZArith List Bool.
From Stdlib Require String DecimalString.
From Stdlib Require PrimFloat FloatOps SpecFloat Uint63.
Import ListNotations.

Local Open Scope R_scope.

(* ================================================================= *)
(** ** Values: doubles with exact arithmetic on the finite ones *)

Inductive fval : Type :=
| Fin (r : R)
| PInf
| NInf
| NaN.

Definition is_finite (a : fval) : bool :=
  match a with Fin _ => true | _ => false end.

Inductive sgn : Type := Neg | Zero | Pos.

Definition Rsign (r : R) : sgn :=
  match total_order_T 0 r with
  | inleft (left _) => Pos
  | inleft (right _) => Zero
  | inright _ => Neg
  end.

Definition sgn_opp (s : sgn) : sgn :=
  match s with Neg => Pos | Zero => Zero | Pos => Neg end.

(** The infinity of a given sign; [0 * inf] and [0 / 0] are NaN. *)
Definition signed_inf (s : sgn) : fval :=
  match s with Pos => PInf | Neg => NInf | Zero => NaN end.

Definition fopp (a : fval) : fval :=
  match a with
  | Fin x => Fin (- x)
  | PInf => NInf
  | NInf => PInf
  | NaN => NaN
  end.

Definition fadd (a b : fval) : fval :=
  match a, b with
  | NaN, _ | _, NaN => NaN
  | Fin x, Fin y => Fin (x + y)
  | PInf, NInf | NInf, PInf => NaN
  | PInf, _ | _, PInf => PInf
  | NInf, _ | _, NInf => NInf
  end.

Definition fsub (a b : fval) : fval :=
  match a, b with
  | Fin x, Fin y => Fin (x - y)
  | _, _ => fadd a (fopp b)
  end.

Definition fmul (a b : fval) : fval :=
  match a, b with
  | NaN, _ | _, NaN => NaN
  | Fin x, Fin y => Fin (x * y)
  | Fin x, PInf | PInf, Fin x => signed_inf (Rsign x)
  | Fin x, NInf | NInf, Fin x => signed_inf (sgn_opp (Rsign x))
  | PInf, PInf | NInf, NInf => PInf
  | PInf, NInf | NInf, PInf => NInf
  end.

Definition fdiv (a b : fval) : fval :=
  match a, b with
  | NaN, _ | _, NaN => NaN
  | Fin x, Fin y =>
      match Rsign y with
      | Zero => signed_inf (Rsign x)
      | _ => Fin (x / y)
      end
  | Fin _, (PInf | NInf) => Fin 0
  | PInf, Fin y => match Rsign y with Neg => NInf | _ => PInf end
  | NInf, Fin y => match Rsign y with Neg => PInf | _ => NInf end
  | (PInf | NInf), (PInf | NInf) => NaN
  end.

Definition fsqrt (a : fval) : fval :=
  match a with
  | Fin x => match Rsign x with Neg => NaN | _ => Fin (sqrt x) end
  | PInf => PInf
  | NInf | NaN => NaN
  end.

(** [np.log] *)
Definition flog (a : fval) : fval :=
  match a with
  | Fin x =>
      match Rsign x with
      | Pos => Fin (ln x)
      | Zero => NInf
      | Neg => NaN
      end
  | PInf => PInf
  | NInf | NaN => NaN
  end.

(* ================================================================= *)
(** ** One-dimensional arrays and the NumPy operations of the program *)

Definition vec : Type := list fval.

Inductive exn : Type := ValueError | IndexError.

Inductive res (A : Type) : Type :=
| Ok (a : A)
| Raise (e : exn).
Arguments Ok {A} a.
Arguments Raise {A} e.

Fixpoint map2 {A B C : Type} (f : A -> B -> C) (l : list A) (m : list B) : list C :=
  match l, m with
  | a :: l', b :: m' => f a b :: map2 f l' m'
  | _, _ => []
  end.

(** A binary operator on two one-dimensional arrays: equal lengths
    combine element by element, an array of length 1 is stretched to
    the other's length, anything else is a [ValueError]. *)
Definition broadcast2 (op : fval -> fval -> fval) (a b : vec) : res vec :=
  if Nat.eqb (length a) (length b) then Ok (map2 op a b)
  else match a, b with
       | [a0], _ => Ok (map (op a0) b)
       | _, [b0] => Ok (map (fun x => op x b0) a)
       | _, _ => Raise ValueError
       end.

Definition np_add : vec -> vec -> res vec := broadcast2 fadd.
Definition np_sub : vec -> vec -> res vec := broadcast2 fsub.
Definition np_div : vec -> vec -> res vec := broadcast2 fdiv.

(** An array times a scalar. *)
Definition vscale (v : vec) (c : fval) : vec := map (fun a => fmul a c) v.

Definition np_ones (n : nat) : vec := repeat (Fin 1) n.

(** [np.zeros(N)] refuses a negative length. *)
Definition np_zeros (n : Z) : res vec :=
  if (n <? 0)%Z then Raise ValueError else Ok (repeat (Fin 0) (Z.to_nat n)).

(** [np.arange(lo, hi)] on integers. *)
Definition np_arange (lo hi : Z) : list Z :=
  map (fun i => (lo + Z.of_nat i)%Z) (seq 0 (Z.to_nat (hi - lo))).

Definition fsum (v : vec) : fval := fold_left fadd v (Fin 0).

(** [np.linalg.norm] of a one-dimensional array: [sqrt(dot(v, v))]. *)
Definition norm (v : vec) : fval := fsqrt (fsum (map (fun a => fmul a a) v)).

Fixpoint cumsum_from (acc : fval) (v : vec) : vec :=
  match v with
  | [] => []
  | a :: v' => fadd acc a :: cumsum_from (fadd acc a) v'
  end.

(** [np.cumsum] *)
Definition np_cumsum (v : vec) : vec :=
  match v with
  | [] => []
  | a :: v' => a :: cumsum_from a v'
  end.

(** [np.average] without weights: the sum over the number of elements
    (NaN on an empty array). *)
Definition np_average (v : vec) : fval := fdiv (fsum v) (Fin (INR (length v))).

(** [a[i] = b] on a one-dimensional array, for a non-negative index. *)
Fixpoint setitem (a : vec) (i : nat) (b : fval) : res vec :=
  match a, i with
  | [], _ => Raise IndexError
  | _ :: a', O => Ok (b :: a')
  | c :: a', S i' =>
      match setitem a' i' b with
      | Ok r => Ok (c :: r)
      | Raise e => Raise e
      end
  end.

(* ================================================================= *)
(** ** The monad: a counter of iterator calls, and exceptions *)

Definition M (A : Type) : Type := nat -> nat * res A.

Definition ret {A : Type} (a : A) : M A := fun n => (n, Ok a).

Definition bind {A B : Type} (m : M A) (k : A -> M B) : M B :=
  fun n =>
    match m n with
    | (n', Ok a) => k a n'
    | (n', Raise e) => (n', Raise e)
    end.

Definition lift {A : Type} (r : res A) : M A := fun n => (n, r).

(** One call of the iterator function. *)
Definition call (iterator_func : vec -> vec) (v : vec) : M vec :=
  fun n => (S n, Ok (iterator_func v)).

Declare Scope monad_scope.
Delimit Scope monad_scope with monad.
Notation "x <- m ;; k" := (bind m (fun x => k))
  (at level 61, m at next level, right associativity) : monad_scope.
Notation "' pat <- m ;; k" := (bind m (fun x => match x with pat => k end))
  (at level 61, pat pattern, m at next level, right associativity) : monad_scope.

(** [for i in range(start, start + count): s = body i s] *)
Fixpoint for_range {S : Type} (count start : nat) (body : nat -> S -> M S) (s : S) : M S :=
  match count with
  | O => ret s
  | Datatypes.S c => bind (body start s) (for_range c (Datatypes.S start) body)
  end.

(* ================================================================= *)
(** ** The estimator *)

(** What the caller passes as [initial_perturbation]: nothing, an array
    of its own, or the very array object it passes as [starting_point]. *)
Inductive perturbation_arg : Type :=
| PNone
| PArray (v : vec)
| PSameObject.

Inductive output : Type :=
| Scalar (a : fval)
| Trace (v : vec).

(** What a call leaves behind: the number of iterator calls made, the
    contents of the caller's two arrays afterwards, and what was returned
    or raised. *)
Record call_result : Type := mk_call_result {
  iterator_calls : nat;
  starting_point_after : vec;
  initial_perturbation_after : option vec;
  returned : res output
}.

Section Estimator.

Variable iterator_func : vec -> vec.
Variable deviation_scale : fval.
Variable part_time_steps : Z.

(** Lines 54-55: one iterator call on each trajectory. *)
Definition step_both (i_t : nat) (s : vec * vec) : M (vec * vec) :=
  (let '(x, x_pert) := s in
   x <- call iterator_func x ;;
   x_pert <- call iterator_func x_pert ;;
   ret (x, x_pert))%monad.

(** Lines 53-55: the inner loop. *)
Definition advance_both (s : vec * vec) : M (vec * vec) :=
  for_range (Z.to_nat part_time_steps) 0 step_both s.

(** Lines 53-59: the body of the loop over the blocks. *)
Definition block (i_n : nat) (s : vec * vec * vec) : M (vec * vec * vec) :=
  (let '(x, x_pert, log_divergence) := s in
   '(x, x_pert) <- advance_both (x, x_pert) ;;
   dx <- lift (np_sub x_pert x) ;;
   let norm_dx := norm dx in
   log_divergence <-
     lift (setitem log_divergence i_n (flog (fdiv norm_dx deviation_scale))) ;;
   x_pert <- lift (np_add x (vscale dx (fdiv deviation_scale norm_dx))) ;;
   ret (x, x_pert, log_divergence))%monad.

End Estimator.

(** Lines 40-43: the direction of the initial perturbation. *)
Definition direction (starting_point : vec) (initial_perturbation : perturbation_arg) : vec :=
  match initial_perturbation with
  | PNone => np_ones (length starting_point)
  | PArray v => v
  | PSameObject => starting_point
  end.

(** Line 45: the direction rescaled, which overwrites the array it is in. *)
Definition rescaled (deviation_scale : fval) (v : vec) : vec :=
  vscale v (fdiv deviation_scale (norm v)).

(** Lines 47-64, after the perturbation has been rescaled in place:
    [starting_point] and [initial_perturbation] are the arrays as they
    are then. *)
Definition estimate (iterator_func : vec -> vec) (starting_point : vec)
    (deviation_scale : fval) (N part_time_steps : Z) (dt : fval)
    (initial_perturbation : vec) (return_convergence : bool) : M output :=
  (log_divergence <- lift (np_zeros N) ;;
   let x := starting_point in
   x_pert <- lift (np_add starting_point initial_perturbation) ;;
   '(_, _, log_divergence) <-
     for_range (Z.to_nat N) 0 (block iterator_func deviation_scale part_time_steps)
       (x, x_pert, log_divergence) ;;
   if return_convergence then
     c <- lift (np_div (np_cumsum log_divergence)
                  (vscale (vscale (map (fun k => Fin (IZR k)) (np_arange 1 (N + 1))) dt)
                     (Fin (IZR part_time_steps)))) ;;
     ret (Trace c)
   else
     ret (Scalar (fdiv (np_average log_divergence)
                    (fmul dt (Fin (IZR part_time_steps))))))%monad.

Definition largest_lyapunov_exponent (iterator_func : vec -> vec) (starting_point : vec)
    (deviation_scale : fval) (N part_time_steps : Z) (dt : fval)
    (initial_perturbation : perturbation_arg) (return_convergence : bool) : call_result :=
  let p := rescaled deviation_scale (direction starting_point initial_perturbation) in
  let starting_point' :=
    match initial_perturbation with PSameObject => p | _ => starting_point end in
  let '(calls, r) :=
    estimate iterator_func starting_point' deviation_scale N part_time_steps dt p
      return_convergence 0%nat in
  {| iterator_calls := calls;
     starting_point_after := starting_point';
     initial_perturbation_after :=
       match initial_perturbation with PNone => None | _ => Some p end;
     returned := r |}.

(* ================================================================= *)
(** ** The two trajectories, block by block

    The state between two blocks is the pair [(x, x_pert)].  These
    definitions read lines 53-59 as a function on that pair, for arrays
    of one common length (no broadcasting, no exception); [block_run] and
    [blocks_run] below show that the loop of the program computes them. *)

Section Trajectory.

Variable iterator_func : vec -> vec.
Variable deviation_scale : fval.
Variable part_time_steps : Z.

(** [part_time_steps] iterator calls on one state. *)
Definition advance (v : vec) : vec := Nat.iter (Z.to_nat part_time_steps) iterator_func v.

(** The pair [(x, x_pert)] at the moment the divergence is measured. *)
Definition measured (s : vec * vec) : vec * vec := (advance (fst s), advance (snd s)).

(** [dx = x_pert - x] at that moment. *)
Definition divergence (s : vec * vec) : vec :=
  map2 fsub (snd (measured s)) (fst (measured s)).

(** [ln (norm_dx / deviation_scale)], the log-divergence of the block. *)
Definition log_div (s : vec * vec) : fval :=
  flog (fdiv (norm (divergence s)) deviation_scale).

(** The pair after the block: [x] as measured and
    [x_pert = x + dx * (deviation_scale / norm_dx)]. *)
Definition renormalize (s : vec * vec) : vec * vec :=
  (fst (measured s),
   map2 fadd (fst (measured s))
     (vscale (divergence s) (fdiv deviation_scale (norm (divergence s))))).

(** The pair with which block [i] (counted from 0) starts. *)
Definition state_before (s0 : vec * vec) (i : nat) : vec * vec := Nat.iter i renormalize s0.

Definition log_divergence_of (s0 : vec * vec) (i : nat) : fval := log_div (state_before s0 i).

Definition norm_dx_of (s0 : vec * vec) (i : nat) : fval := norm (divergence (state_before s0 i)).

(** The log-divergences of the first [n] blocks, in block order. *)
Definition log_divergences (s0 : vec * vec) (n : nat) : vec :=
  map (log_divergence_of s0) (seq 0 n).

End Trajectory.

(** The iterator maps arrays of length [D] to arrays of length [D]. *)
Definition preserves_dim (iterator_func : vec -> vec) (D : nat) : Prop :=
  forall v, length v = D -> length (iterator_func v) = D.

(** The pair with which the first block starts. *)
Definition initial_state (starting_point : vec) (deviation_scale : fval)
    (initial_perturbation : perturbation_arg) : vec * vec :=
  let p := rescaled deviation_scale (direction starting_point initial_perturbation) in
  let x := match initial_perturbation with PSameObject => p | _ => starting_point end in
  (x, map2 fadd x p).

(** [a] with the element at index [i] replaced. *)
Definition update (a : vec) (i : nat) (b : fval) : vec := firstn i a ++ b :: skipn (S i) a.

(* ================================================================= *)
(** ** The aggregation (lines 61-64), as a function of the log-divergences *)

(** [np.arange(1, N + 1) * dt * part_time_steps] *)
Definition denominators (N : Z) (dt : fval) (part_time_steps : Z) : vec :=
  vscale (vscale (map (fun k => Fin (IZR k)) (np_arange 1 (N + 1))) dt)
    (Fin (IZR part_time_steps)).

(** What the function returns from the log-divergences of the blocks. *)
Definition aggregate (N : Z) (part_time_steps : Z) (dt : fval) (return_convergence : bool)
    (log_divergence : vec) : output :=
  if return_convergence
  then Trace (map2 fdiv (np_cumsum log_divergence) (denominators N dt part_time_steps))
  else Scalar (fdiv (np_average log_divergence) (fmul dt (Fin (IZR part_time_steps)))).

(* ================================================================= *)
(** ** Arrays of finite numbers, and real vectors *)

Definition to_R (a : fval) : R := match a with Fin r => r | _ => 0 end.

Definition all_finite (v : vec) : bool := forallb is_finite v.

(** The iterator maps arrays of finite numbers to arrays of finite numbers. *)
Definition preserves_finite (iterator_func : vec -> vec) : Prop :=
  forall v, all_finite v = true -> all_finite (iterator_func v) = true.

Definition Rsum (r : list R) : R := fold_left Rplus r 0.

(** The Euclidean norm of a real vector. *)
Definition Rnorm (r : list R) : R := sqrt (Rsum (map (fun a => a * a) r)).

(** Both states of a pair hold finite numbers only. *)
Definition finite_state (s : vec * vec) : Prop :=
  all_finite (fst s) = true /\ all_finite (snd s) = true.

(** [x_pert - x] for a pair between two blocks. *)
Definition offset (s : vec * vec) : vec := map2 fsub (snd s) (fst s).

Definition sgn_mul (s t : sgn) : sgn :=
  match s, t with
  | Zero, _ | _, Zero => Zero
  | Pos, Pos | Neg, Neg => Pos
  | Pos, Neg | Neg, Pos => Neg
  end.

(* ================================================================= *)
(** ** Rejection, and three iterators for the examples *)

(** The call fails with an exception and the iterator was never called. *)
Definition rejected_before_any_call (r : call_result) : Prop :=
  iterator_calls r = 0%nat /\ exists e : exn, returned r = Raise e.

(** The map [x -> 2 x]. *)
Definition doubling (v : vec) : vec := vscale v (Fin 2).

(** Every state is a fixed point. *)
Definition stay (v : vec) : vec := v.

(** Every state is sent to the origin. *)
Definition collapse (v : vec) : vec := map (fun _ => Fin 0) v.

(* ================================================================= *)
(** ** Further vocabulary for the properties of the estimator *)

(** The linear map [x -> a x]. *)
Definition scaling (a : R) (v : vec) : vec := vscale v (Fin a).

(** No element of the array is a finite number. *)
Definition none_finite (v : vec) : Prop := Forall (fun a => is_finite a = false) v.

(** The array of [D] NaNs. *)
Definition nan_array (D : nat) : vec := repeat NaN D.

(** Entry [j] (counted from 0) of the convergence trace: the sum of the
    log-divergences of blocks [0] to [j] over [(j + 1) * dt * part_time_steps]. *)
Definition trace_entry (iterator_func : vec -> vec) (deviation_scale : fval)
    (part_time_steps : Z) (dt : fval) (s0 : vec * vec) (j : nat) : fval :=
  fdiv (fsum (log_divergences iterator_func deviation_scale part_time_steps s0 (S j)))
    (fmul (fmul (Fin (INR (S j))) dt) (Fin (IZR part_time_steps))).

(* ================================================================= *)
(** ** The caller of the estimator in [src/streamlit_fragments.py]

    [get_largest_lyapunov_exponent] calls the estimator with keyword
    arguments, so how Python binds the arguments of a call to the
    parameters of a [def] decides what happens.  The values that reach the
    call are Python objects; the module [src.simulate_systems], which
    builds the system instance, is not part of the sources at hand, so the
    instance is taken as it is after line 189. *)

Module Caller.

Import String.
Local Open Scope string_scope.

Inductive pyval : Type :=
| PyCallable (f : vec -> vec)
| PyArray (v : vec)
| PyFloat (a : fval)
| PyInt (n : Z)
| PyBool (b : bool)
| PyNone.

(** A positional-or-keyword parameter of a [def], with its default. *)
Record parameter : Type := mk_parameter {
  param_name : string;
  param_default : option pyval
}.

(** Lines 8-15 of [src/measures.py]: the parameters of the estimator. *)
Definition parameters_of_largest_lyapunov_exponent : list parameter :=
  [ mk_parameter "iterator_func" None;
    mk_parameter "starting_point" None;
    mk_parameter "deviation_scale" (Some (PyFloat (Fin (/ 10 ^ 10))));
    mk_parameter "N" (Some (PyInt 100000));
    mk_parameter "part_time_steps" (Some (PyInt 10));
    mk_parameter "dt" (Some (PyFloat (Fin 1)));
    mk_parameter "initial_perturbation" (Some PyNone);
    mk_parameter "return_convergence" (Some (PyBool false)) ].

(** The positional arguments fill the first parameters; more arguments
    than parameters is a [TypeError] ([None]). *)
Fixpoint bind_positional (params : list parameter) (args : list pyval)
  : option (list (string * option pyval)) :=
  match params, args with
  | _, [] => Some (map (fun p => (param_name p, None)) params)
  | [], _ :: _ => None
  | p :: params', a :: args' =>
      option_map (cons (param_name p, Some a)) (bind_positional params' args')
  end.

(** A keyword argument fills the parameter of that name; a name that is
    no parameter, or a parameter that has a value already, is a
    [TypeError]. *)
Fixpoint bind_keyword (slots : list (string * option pyval)) (k : string) (v : pyval)
  : option (list (string * option pyval)) :=
  match slots with
  | [] => None
  | (n, s) :: slots' =>
      if String.eqb n k
      then match s with
           | None => Some ((n, Some v) :: slots')
           | Some _ => None
           end
      else option_map (cons (n, s)) (bind_keyword slots' k v)
  end.

Fixpoint bind_keywords (slots : list (string * option pyval))
    (kwargs : list (string * pyval)) : option (list (string * option pyval)) :=
  match kwargs with
  | [] => Some slots
  | (k, v) :: kwargs' =>
      match bind_keyword slots k v with
      | Some slots' => bind_keywords slots' kwargs'
      | None => None
      end
  end.

(** A parameter left without a value takes its default; one without a
    default is a [TypeError]. *)
Fixpoint fill_defaults (params : list parameter) (slots : list (string * option pyval))
  : option (list pyval) :=
  match params, slots with
  | [], [] => Some []
  | p :: params', (_, s) :: slots' =>
      match (match s with Some v => Some v | None => param_default p end) with
      | Some v => option_map (cons v) (fill_defaults params' slots')
      | None => None
      end
  | _, _ => None
  end.

(** The values of the parameters, in the order of the [def], or [None]
    when the call raises [TypeError]. *)
Definition bind_arguments (params : list parameter) (args : list pyval)
    (kwargs : list (string * pyval)) : option (list pyval) :=
  match bind_positional params args with
  | Some slots =>
      match bind_keywords slots kwargs with
      | Some slots' => fill_defaults params slots'
      | None => None
      end
  | None => None
  end.

(** What a call of the estimator from Python does. *)
Inductive outcome : Type :=
| Ran (r : call_result)     (* the body ran: what it left and returned or raised *)
| RaisedTypeError           (* the arguments do not fit the parameters *)
| NotModelled.              (* values of types the embedding of the body does not cover *)

Definition as_float (v : pyval) : option fval :=
  match v with
  | PyFloat a => Some a
  | PyInt n => Some (Fin (IZR n))
  | _ => None
  end.

Definition as_perturbation (v : pyval) : option perturbation_arg :=
  match v with
  | PyNone => Some PNone
  | PyArray p => Some (PArray p)
  | _ => None
  end.

(** A call of [meas.largest_lyapunov_exponent] with positional and keyword
    arguments. *)
Definition call_largest_lyapunov_exponent (args : list pyval)
    (kwargs : list (string * pyval)) : outcome :=
  match bind_arguments parameters_of_largest_lyapunov_exponent args kwargs with
  | None => RaisedTypeError
  | Some [PyCallable f; PyArray x; ds; PyInt N; PyInt pts; dt; ip; PyBool rc] =>
      match as_float ds, as_float dt, as_perturbation ip with
      | Some ds', Some dt', Some ip' =>
          Ran (largest_lyapunov_exponent f x ds' N pts dt' ip' rc)
      | _, _, _ => NotModelled
      end
  | Some _ => NotModelled
  end.

(** The system instance of line 189, as far as lines 190-197 look at it:
    its [iterate] method, its [default_starting_point], and its [dt] if
    it has that attribute. *)
Record sim_instance : Type := mk_sim_instance {
  iterate : vec -> vec;
  default_starting_point : vec;
  dt_attribute : option fval
}.

(** Lines 190-203 of [src/streamlit_fragments.py], on a cache miss of
    the memo decorator (which then runs the body). *)
Definition get_largest_lyapunov_exponent (sim : sim_instance) (steps : Z)
    (deviation_scale : fval) (part_time_steps steps_skip : Z) : outcome :=
  let starting_point := default_starting_point sim in
  let dt := match dt_attribute sim with Some dt => dt | None => Fin 1 end in
  let iterator_func := iterate sim in
  call_largest_lyapunov_exponent
    [PyCallable iterator_func]
    [ ("starting_point", PyArray starting_point);
      ("dt", PyFloat dt);
      ("steps", PyInt steps);
      ("part_time_steps", PyInt part_time_steps);
      ("deviation_scale", PyFloat deviation_scale);
      ("steps_skip", PyInt steps_skip);
      ("return_convergence", PyBool true) ].

(** The largest double, [(2 - 2^-52) * 2^1023]. *)
Definition largest_double : R := IZR (2 ^ 1024 - 2 ^ 971).

(** [10 ** x] on a float.  Python raises [OverflowError] when the power
    of a finite [x] is beyond the doubles ([None] here); the rounding of
    the power and its underflow to zero are not modelled. *)
Definition ten_to_the (x : fval) : option fval :=
  match x with
  | Fin r =>
      if Rle_dec (Rpower 10 r) largest_double then Some (Fin (Rpower 10 r)) else None
  | PInf => Some PInf
  | NInf => Some (Fin 0)
  | NaN => Some NaN
  end.

(** What [st_largest_lyapunov_exponent] ends with: the rest of the page
    has been rendered from the trace, or the exception that stopped it,
    at the call or before it. *)
Inductive page (A : Type) : Type :=
| Rendered (a : A)
| Stopped (o : outcome)
| StoppedByOverflow.        (* the [OverflowError] of line 216 *)
Arguments Rendered {A} a.
Arguments Stopped {A} o.
Arguments StoppedByOverflow {A}.

(** Lines 206-227.  The numbers entered in the four inputs are [steps],
    [part_time_steps], [steps_skip] and [log_deviation_scale]; [render]
    stands for lines 222-227, which plot the trace and print its last
    entry. *)
Definition st_largest_lyapunov_exponent {A : Type} (sim : sim_instance)
    (steps part_time_steps steps_skip : Z) (log_deviation_scale : fval)
    (render : vec -> A) : page A :=
  match ten_to_the log_deviation_scale with
  | None => StoppedByOverflow
  | Some deviation_scale =>
      match get_largest_lyapunov_exponent sim steps deviation_scale part_time_steps
              steps_skip with
      | Ran r =>
          match returned r with
          | Ok (Trace lle_conv) => Rendered (render lle_conv)
          | _ => Stopped (Ran r)
          end
      | o => Stopped o
      end
  end.

End Caller.

(* ================================================================= *)
(** ** The tables of [src/plotly_plots.py]

    The plotting functions turn arrays into tables (a Python [dict] from
    column names to lists) and hand them to plotly.  The tables are
    embedded as they are built; plotly is not part of the sources, so its
    functions are parameters that may return a figure or raise.  Arrays
    are one- or two-dimensional; the memo decorator of the functions is
    left out (on a cache miss it runs the body). *)

Module Plots.

Import String.
Local Open Scope string_scope.
Local Open Scope list_scope.

Inductive error : Type :=
| IndexError
| KeyError
| PlainException      (* [raise Exception(...)] *)
| ValueError
| LibraryError        (* whatever a plotly or streamlit function raises *)
| OutsideModel.       (* an array of more than two dimensions would arise *)

Inductive result (A : Type) : Type :=
| Done (a : A)
| Failed (e : error).
Arguments Done {A} a.
Arguments Failed {A} e.

Definition and_then {A B : Type} (r : result A) (k : A -> result B) : result B :=
  match r with
  | Done a => k a
  | Failed e => Failed e
  end.

Notation "x <- r ;; k" := (and_then r (fun x => k))
  (at level 61, r at next level, right associativity).

(** [for i in l: s = body i s] *)
Fixpoint for_each {I S : Type} (l : list I) (body : I -> S -> result S) (s : S)
  : result S :=
  match l with
  | [] => Done s
  | i :: l' => and_then (body i s) (for_each l' body)
  end.

(** What a column of a table holds. *)
Inductive cell : Type :=
| CInt (n : Z)
| CNum (a : fval)
| CStr (s : string).

(** A Python [dict] with string keys, in insertion order. *)
Definition pydict (V : Type) : Type := list (string * V).

Fixpoint dict_get {V : Type} (d : pydict V) (k : string) : option V :=
  match d with
  | [] => None
  | (k', v) :: d' => if String.eqb k' k then Some v else dict_get d' k
  end.

(** [d[k] = v]: a present key keeps its place. *)
Fixpoint dict_set {V : Type} (d : pydict V) (k : string) (v : V) : pydict V :=
  match d with
  | [] => [(k, v)]
  | (k', v') :: d' =>
      if String.eqb k' k then (k', v) :: d' else (k', v') :: dict_set d' k v
  end.

(** A dict display [{k1: v1, k2: v2, ...}]. *)
Definition dict_literal {V : Type} (items : list (string * V)) : pydict V :=
  fold_left (fun d kv => dict_set d (fst kv) (snd kv)) items [].

(** [d[k].extend(xs)] *)
Definition dict_extend (d : pydict (list cell)) (k : string) (xs : list cell)
  : result (pydict (list cell)) :=
  match dict_get d k with
  | Some l => Done (dict_set d k (l ++ xs))
  | None => Failed KeyError
  end.

(** A one- or two-dimensional array of doubles. *)
Inductive ndarray : Type :=
| Arr1 (v : vec)
| Arr2 (nrows ncols : nat) (entry : nat -> nat -> fval).

(** [a.shape] *)
Definition shape (a : ndarray) : list nat :=
  match a with
  | Arr1 v => [List.length v]
  | Arr2 nrows ncols _ => [nrows; ncols]
  end.

(** [a.shape[0]] *)
Definition rows_of (a : ndarray) : nat :=
  match a with
  | Arr1 v => List.length v
  | Arr2 nrows _ _ => nrows
  end.

(** [a[:, np.newaxis]] *)
Definition add_axis (a : ndarray) : result ndarray :=
  match a with
  | Arr1 v => Done (Arr2 (List.length v) 1 (fun t _ => nth t v NaN))
  | Arr2 _ _ _ => Failed OutsideModel
  end.

(** [a[:, i]] for an integer [i]; a negative [i] counts from the end. *)
Definition column (a : ndarray) (i : Z) : result vec :=
  match a with
  | Arr1 _ => Failed IndexError
  | Arr2 nrows ncols entry =>
      if ((- Z.of_nat ncols <=? i) && (i <? Z.of_nat ncols))%Z
      then Done (map (fun t => entry t (Z.to_nat (i mod Z.of_nat ncols)))
                   (seq 0 nrows))
      else Failed IndexError
  end.

(** [str(i)] of an integer. *)
Definition str_of_int (i : Z) : string :=
  DecimalString.NilZero.string_of_int (Z.to_int i).

(** *** [matrix_as_barchart], lines 54-62: the long table of a matrix *)

Definition add_matrix_cell (x_axis y_axis value_name : string)
    (entry : nat -> nat -> fval) (i_x i_y : nat) (data_dict : pydict (list cell))
  : result (pydict (list cell)) :=
  let value := entry i_x i_y in
  data_dict <- dict_extend data_dict x_axis [CInt (Z.of_nat i_x)] ;;
  data_dict <- dict_extend data_dict value_name [CNum value] ;;
  dict_extend data_dict y_axis [CInt (Z.of_nat i_y)].

Definition matrix_as_barchart_data_dict (x_dim y_dim : nat) (entry : nat -> nat -> fval)
    (x_axis y_axis value_name : string) : result (pydict (list cell)) :=
  let data_dict := dict_literal [(x_axis, []); (y_axis, []); (value_name, [])] in
  for_each (seq 0 x_dim)
    (fun i_x => for_each (seq 0 y_dim) (add_matrix_cell x_axis y_axis value_name entry i_x))
    data_dict.

(** A series of [T] rows that has a column [i]. *)
Definition regular_series (T : nat) (i : Z) (item : string * ndarray) : Prop :=
  exists (ncols : nat) (entry : nat -> nat -> fval),
    snd item = Arr2 T ncols entry /\ (0 <= i < Z.of_nat ncols)%Z.

(** The cells that column [i] of a series adds to the y column. *)
Definition y_cells (i : Z) (item : string * ndarray) : list cell :=
  match column (snd item) i with
  | Done y => map CNum y
  | Failed _ => []
  end.

(** *** [multiple_1d_time_series], lines 126-172 *)

Inductive plot_kind : Type := Line | Scatter.

(** Lines 143-147: one series added to the table of dimension [i]. *)
Definition add_series (first_is_1d : bool) (x_label y_label : string)
    (x_array : list cell) (i : Z) (item : string * ndarray)
    (to_plot_dict : pydict (list cell)) : result (pydict (list cell)) :=
  let '(label, time_series) := item in
  time_series <- (if first_is_1d then add_axis time_series else Done time_series) ;;
  to_plot_dict <- dict_extend to_plot_dict x_label x_array ;;
  y <- column time_series i ;;
  to_plot_dict <- dict_extend to_plot_dict y_label (map CNum y) ;;
  dict_extend to_plot_dict "label" (repeat (CStr label) (rows_of time_series)).

(** Lines 141-147: the table of dimension [i]. *)
Definition to_plot_dict_1d (time_series_dict : pydict ndarray) (first_is_1d : bool)
    (x_label y_label : string) (x_array : list cell) (i : Z)
  : result (pydict (list cell)) :=
  for_each time_series_dict (add_series first_is_1d x_label y_label x_array i)
    (dict_literal [(x_label, []); (y_label, []); ("label", [])]).

(** Lines 133-136: [np.arange(x_steps)], times [x_scale] if there is one. *)
Definition x_array_of (x_steps : nat) (x_scale : option fval) : list cell :=
  match x_scale with
  | None => map (fun t => CInt (Z.of_nat t)) (seq 0 x_steps)
  | Some c => map (fun t => CNum (fmul (Fin (INR t)) c)) (seq 0 x_steps)
  end.

(** Lines 149-155: the title of the figure of dimension [i]. *)
Definition title_of (title : option string) (n_dimensions : nat) (i : Z) : option string :=
  if (1 <? n_dimensions)%nat
  then match title with
       | Some t => Some (t ++ ": dimension: " ++ str_of_int i)%string
       | None => Some ("Dimension: " ++ str_of_int i)%string
       end
  else title.

(** *** [multiple_2d_time_series], lines 198-216 *)

(** Lines 200-202: one series added to the table. *)
Definition add_series_2d (x_label y_label : string) (item : string * ndarray)
    (to_plot_dict : pydict (list cell)) : result (pydict (list cell)) :=
  let '(label, time_series) := item in
  x <- column time_series 0 ;;
  to_plot_dict <- dict_extend to_plot_dict x_label (map CNum x) ;;
  y <- column time_series 1 ;;
  to_plot_dict <- dict_extend to_plot_dict y_label (map CNum y) ;;
  dict_extend to_plot_dict "label" (repeat (CStr label) (rows_of time_series)).

(** Lines 198-202: the table. *)
Definition to_plot_dict_2d (time_series_dict : pydict ndarray) (x_label y_label : string)
  : result (pydict (list cell)) :=
  for_each time_series_dict (add_series_2d x_label y_label)
    (dict_literal [(x_label, []); (y_label, []); ("label", [])]).

(** A two-dimensional series with at least two columns. *)
Definition wide_series (item : string * ndarray) : Prop :=
  exists (nrows ncols : nat) (entry : nat -> nat -> fval),
    snd item = Arr2 nrows ncols entry /\ (2 <= ncols)%nat.

(** *** [multiple_3d_time_series], lines 242-247 *)

Definition add_series_3d (x_label y_label z_label : string) (item : string * ndarray)
    (to_plot_dict : pydict (list cell)) : result (pydict (list cell)) :=
  let '(label, time_series) := item in
  x <- column time_series 0 ;;
  to_plot_dict <- dict_extend to_plot_dict x_label (map CNum x) ;;
  y <- column time_series 1 ;;
  to_plot_dict <- dict_extend to_plot_dict y_label (map CNum y) ;;
  z <- column time_series 2 ;;
  to_plot_dict <- dict_extend to_plot_dict z_label (map CNum z) ;;
  dict_extend to_plot_dict "label" (repeat (CStr label) (rows_of time_series)).

Definition to_plot_dict_3d (time_series_dict : pydict ndarray)
    (x_label y_label z_label : string) : result (pydict (list cell)) :=
  for_each time_series_dict (add_series_3d x_label y_label z_label)
    (dict_literal [(x_label, []); (y_label, []); (z_label, []); ("label", [])]).

(** [a.T] *)
Definition transpose (a : ndarray) : ndarray :=
  match a with
  | Arr1 v => Arr1 v
  | Arr2 nrows ncols entry => Arr2 ncols nrows (fun i j => entry j i)
  end.

Section Plotly.

Variable figure : Type.

(** [px.line] and [px.scatter] with the table, the names of the x, y and
    colour columns and the title. *)
Variable px : plot_kind -> pydict (list cell) -> string -> string -> string ->
              option string -> result figure.

(** [fig.update_traces] with the line width or the marker size. *)
Variable update_traces : plot_kind -> fval -> figure -> result figure.

(** [fig.update_layout(height=..., width=...)] *)
Variable update_layout : Z -> Z -> figure -> result figure.

(** Lines 157-170: the figure of one table. *)
Definition figure_of (mode : string) (line_size scatter_size : option fval)
    (fig_size : Z * Z) (x_label y_label : string) (title_i : option string)
    (to_plot_dict : pydict (list cell)) : result figure :=
  fig <-
    (if String.eqb mode "line" then
       fig <- px Line to_plot_dict x_label y_label "label" title_i ;;
       match line_size with
       | Some w => update_traces Line w fig
       | None => Done fig
       end
     else if String.eqb mode "scatter" then
       fig <- px Scatter to_plot_dict x_label y_label "label" title_i ;;
       match scatter_size with
       | Some w => update_traces Scatter w fig
       | None => Done fig
       end
     else Failed PlainException) ;;
  update_layout (snd fig_size) (fst fig_size) fig.

Definition multiple_1d_time_series (time_series_dict : pydict ndarray) (mode : string)
    (line_size scatter_size : option fval) (title : option string) (fig_size : Z * Z)
    (x_scale : option fval) (x_label y_label : string) (dimensions : option (list Z))
  : result (list figure) :=
  match time_series_dict with
  | [] => Failed IndexError
  | (_, first) :: _ =>
      let first_is_1d := match first with Arr1 _ => true | Arr2 _ _ _ => false end in
      let '(x_steps, y_dim) :=
        match first with
        | Arr1 v => (List.length v, 1%nat)
        | Arr2 nrows ncols _ => (nrows, ncols)
        end in
      let x_array := x_array_of x_steps x_scale in
      let dimensions :=
        match dimensions with
        | None => map Z.of_nat (seq 0 y_dim)
        | Some l => l
        end in
      for_each dimensions
        (fun i figs =>
           to_plot_dict <-
             to_plot_dict_1d time_series_dict first_is_1d x_label y_label x_array i ;;
           let title_i := title_of title (List.length dimensions) i in
           fig <- figure_of mode line_size scatter_size fig_size x_label y_label title_i
                    to_plot_dict ;;
           Done (figs ++ [fig]))
        []
  end.

Definition multiple_2d_time_series (time_series_dict : pydict ndarray) (mode : string)
    (line_size scatter_size : option fval) (title : option string) (fig_size : Z * Z)
    (x_label y_label : string) : result figure :=
  to_plot_dict <- to_plot_dict_2d time_series_dict x_label y_label ;;
  figure_of mode line_size scatter_size fig_size x_label y_label title to_plot_dict.

(** [px.line_3d] and [px.scatter_3d] with the table, the names of the x, y,
    z and colour columns and the title. *)
Variable px_3d : plot_kind -> pydict (list cell) -> string -> string -> string ->
                 string -> option string -> result figure.

(** [px.imshow] with the array, the title, the width and the height, the
    two axis labels and the x values. *)
Variable px_imshow : ndarray -> string -> Z -> Z -> string * string ->
                     option (list cell) -> result figure.

(** [st.plotly_chart] *)
Variable plotly_chart : figure -> result unit.

(** Lines 242-262 *)
Definition multiple_3d_time_series (time_series_dict : pydict ndarray) (mode : string)
    (line_size scatter_size : option fval) (title : option string) (fig_size : Z * Z)
    (x_label y_label z_label : string) : result figure :=
  to_plot_dict <- to_plot_dict_3d time_series_dict x_label y_label z_label ;;
  fig <-
    (if String.eqb mode "line" then
       fig <- px_3d Line to_plot_dict x_label y_label z_label "label" title ;;
       match line_size with
       | Some w => update_traces Line w fig
       | None => Done fig
       end
     else if String.eqb mode "scatter" then
       fig <- px_3d Scatter to_plot_dict x_label y_label z_label "label" title ;;
       match scatter_size with
       | Some w => update_traces Scatter w fig
       | None => Done fig
       end
     else Failed PlainException) ;;
  update_layout (snd fig_size) (fst fig_size) fig.

(** Lines 274-288 *)
Definition multiple_time_series_image (time_series_dict : pydict ndarray)
    (fig_size : Z * Z) (x_label y_label : string) (x_scale : option fval)
  : result (list figure) :=
  let labels := (x_label, y_label) in
  x_array <-
    match x_scale with
    | None => Done None
    | Some c =>
        match time_series_dict with
        | [] => Failed IndexError
        | (_, first) :: _ => Done (Some (x_array_of (rows_of first) (Some c)))
        end
    end ;;
  for_each time_series_dict
    (fun item figs =>
       let '(key, val) := item in
       fig <- px_imshow (transpose val) key (fst fig_size) (snd fig_size) labels x_array ;;
       Done (figs ++ [fig]))
    [].

(** Lines 22-23; the result is the list of the charts shown. *)
Definition multiple_figs (figs : list figure) : result (list figure) :=
  for_each figs (fun fig shown => _ <- plotly_chart fig ;; Done (shown ++ [fig])) [].

(** Lines 230-253 of [src/streamlit_fragments.py]; the result is the list
    of the charts shown. *)
Definition st_default_simulation_plot (time_series : ndarray) : result (list figure) :=
  match shape time_series with
  | [_; x_dim] =>
      if (x_dim =? 1)%nat then
        figs <- multiple_1d_time_series [("simulated timeseries", time_series)] "line"
                  (Some (Fin 1)) (Some (Fin 1)) None (650, 350)%Z None "time step" "y"
                  None ;;
        multiple_figs figs
      else if (x_dim =? 2)%nat then
        fig <- multiple_2d_time_series [("simulated timeseries", time_series)] "scatter"
                 (Some (Fin 1)) (Some (Fin 1)) None (650, 350)%Z "x" "y" ;;
        _ <- plotly_chart fig ;;
        Done [fig]
      else if (x_dim =? 3)%nat then
        fig <- multiple_3d_time_series [("simulated timeseries", time_series)] "line"
                 (Some (Fin 1)) (Some (Fin 1)) None (650, 500)%Z "x" "y" "z" ;;
        _ <- plotly_chart fig ;;
        Done [fig]
      else if (3 <? x_dim)%nat then
        figs <- multiple_time_series_image [("simulated timeseries", time_series)]
                  (650, 350)%Z "time steps" "dimensions" None ;;
        multiple_figs figs
      else Failed ValueError
  | _ => Failed IndexError
  end.

End Plotly.

End Plots.

(* ================================================================= *)
(** ** The estimator in double precision

    Lines 40-64 once more, on binary64 numbers: every addition,
    subtraction, multiplication, division and square root rounds to the
    nearest double, as the program's do.  Two library functions are
    embedded only where their result does not depend on how the library
    computes them, and the run ends as [Unknown] when it needs them
    elsewhere:
    - [np.log] at the special values, at 1, and at 2, where the double
      nearest to [ln 2] is [0x1.62e42fefa39efp-1] (0.6931471805599453);
    - the sum inside [np.average] for fewer than eight numbers, which
      NumPy adds one after the other.
    The dot product inside [np.linalg.norm] is taken as the plain loop;
    the results below use it on one element, or on products and sums that
    are exact, where the order of the additions cannot matter.  The
    caller's arrays are distinct objects here.  The state threaded
    through a run is the list of the arrays the iterator was called
    with, in the order of the calls. *)

Module Binary64.

Import PrimFloat.
Local Open Scope float_scope.

Definition arr : Type := list float.

Inductive outcome (A : Type) : Type :=
| Value (a : A)
| Raises (e : exn)
| Unknown.
Arguments Value {A} a.
Arguments Raises {A} e.
Arguments Unknown {A}.

(** A Python [int] as a double, for an integer in the range of [int64]
    (exact below [2^53]). *)
Definition of_Z (z : Z) : float :=
  match z with
  | Z0 => 0
  | Zpos _ => of_uint63 (Uint63.of_Z z)
  | Zneg p => - of_uint63 (Uint63.of_Z (Zpos p))
  end.

Definition broadcast2 (op : float -> float -> float) (a b : arr) : outcome arr :=
  if Nat.eqb (length a) (length b) then Value (map2 op a b)
  else match a, b with
       | [a0], _ => Value (map (op a0) b)
       | _, [b0] => Value (map (fun x => op x b0) a)
       | _, _ => Raises ValueError
       end.

Definition np_add : arr -> arr -> outcome arr := broadcast2 add.
Definition np_sub : arr -> arr -> outcome arr := broadcast2 sub.
Definition np_div : arr -> arr -> outcome arr := broadcast2 div.

Definition vscale (v : arr) (c : float) : arr := map (fun a => a * c) v.

Definition np_ones (n : nat) : arr := repeat 1 n.

Definition np_zeros (n : Z) : outcome arr :=
  if (n <? 0)%Z then Raises ValueError else Value (repeat 0 (Z.to_nat n)).

Definition dot (v w : arr) : float := fold_left add (map2 mul v w) 0.

(** [np.linalg.norm] of a one-dimensional array: [sqrt(dot(v, v))]. *)
Definition norm (v : arr) : float := sqrt (dot v v).

Fixpoint cumsum_from (acc : float) (v : arr) : arr :=
  match v with
  | [] => []
  | a :: v' => (acc + a) :: cumsum_from (acc + a) v'
  end.

Definition np_cumsum (v : arr) : arr :=
  match v with
  | [] => []
  | a :: v' => a :: cumsum_from a v'
  end.

(** [np.average] without weights, for fewer than eight numbers. *)
Definition np_average (v : arr) : outcome float :=
  if (length v <? 8)%nat
  then Value (fold_left add v 0 / of_Z (Z.of_nat (length v)))
  else Unknown.

(** [np.log], where its result is known. *)
Definition np_log (a : float) : outcome float :=
  if is_nan a then Value nan
  else if a <? 0 then Value nan
  else if a =? 0 then Value neg_infinity
  else if a =? 1 then Value 0
  else if a =? 2 then Value 0x1.62e42fefa39efp-1
  else if a =? infinity then Value infinity
  else Unknown.

Fixpoint setitem (a : arr) (i : nat) (b : float) : outcome arr :=
  match a, i with
  | [], _ => Raises IndexError
  | _ :: a', O => Value (b :: a')
  | c :: a', S i' =>
      match setitem a' i' b with
      | Value r => Value (c :: r)
      | other => other
      end
  end.

Definition M (A : Type) : Type := list arr -> list arr * outcome A.

Definition ret {A : Type} (a : A) : M A := fun l => (l, Value a).

Definition bind {A B : Type} (m : M A) (k : A -> M B) : M B :=
  fun l =>
    match m l with
    | (l', Value a) => k a l'
    | (l', Raises e) => (l', Raises e)
    | (l', Unknown) => (l', Unknown)
    end.

Definition lift {A : Type} (r : outcome A) : M A := fun l => (l, r).

(** One call of the iterator function, recorded with its argument. *)
Definition call (iterator_func : arr -> arr) (v : arr) : M arr :=
  fun l => (l ++ [v], Value (iterator_func v)).

Notation "x <- m ;; k" := (bind m (fun x => k))
  (at level 61, m at next level, right associativity).
Notation "' pat <- m ;; k" := (bind m (fun x => match x with pat => k end))
  (at level 61, pat pattern, m at next level, right associativity).

Fixpoint for_range {S : Type} (count start : nat) (body : nat -> S -> M S) (s : S) : M S :=
  match count with
  | O => ret s
  | Datatypes.S c => bind (body start s) (for_range c (Datatypes.S start) body)
  end.

Inductive output : Type :=
| Scalar (a : float)
| Trace (v : arr).

(** What a call leaves behind: the arrays the iterator was called with,
    and what was returned or raised. *)
Record call_result : Type := mk_call_result {
  iterator_arguments : list arr;
  returned : outcome output
}.

Section Estimator.

Variable iterator_func : arr -> arr.
Variable deviation_scale : float.
Variable part_time_steps : Z.

(** Lines 54-55 *)
Definition step_both (i_t : nat) (s : arr * arr) : M (arr * arr) :=
  let '(x, x_pert) := s in
  x <- call iterator_func x ;;
  x_pert <- call iterator_func x_pert ;;
  ret (x, x_pert).

(** Lines 53-55 *)
Definition advance_both (s : arr * arr) : M (arr * arr) :=
  for_range (Z.to_nat part_time_steps) 0 step_both s.

(** Lines 53-59 *)
Definition block (i_n : nat) (s : arr * arr * arr) : M (arr * arr * arr) :=
  let '(x, x_pert, log_divergence) := s in
  '(x, x_pert) <- advance_both (x, x_pert) ;;
  dx <- lift (np_sub x_pert x) ;;
  let norm_dx := norm dx in
  l <- lift (np_log (norm_dx / deviation_scale)) ;;
  log_divergence <- lift (setitem log_divergence i_n l) ;;
  x_pert <- lift (np_add x (vscale dx (deviation_scale / norm_dx))) ;;
  ret (x, x_pert, log_divergence).

End Estimator.

(** Lines 40-64 *)
Definition largest_lyapunov_exponent (iterator_func : arr -> arr) (starting_point : arr)
    (deviation_scale : float) (N part_time_steps : Z) (dt : float)
    (initial_perturbation : option arr) (return_convergence : bool) : call_result :=
  let x_dim := length starting_point in
  let initial_perturbation :=
    match initial_perturbation with
    | None => np_ones x_dim
    | Some v => v
    end in
  let initial_perturbation :=
    vscale initial_perturbation (deviation_scale / norm initial_perturbation) in
  let '(l, r) :=
    (log_divergence <- lift (np_zeros N) ;;
     let x := starting_point in
     x_pert <- lift (np_add starting_point initial_perturbation) ;;
     '(_, _, log_divergence) <-
       for_range (Z.to_nat N) 0 (block iterator_func deviation_scale part_time_steps)
         (x, x_pert, log_divergence) ;;
     if return_convergence then
       c <- lift (np_div (np_cumsum log_divergence)
                    (vscale (vscale (map of_Z (np_arange 1 (N + 1))) dt)
                       (of_Z part_time_steps))) ;;
       ret (Trace c)
     else
       a <- lift (np_average log_divergence) ;;
       ret (Scalar (a / (dt * of_Z part_time_steps)))) [] in
  {| iterator_arguments := l; returned := r |}.

(** The map [x -> 2 x]. *)
Definition doubling (v : arr) : arr := map (fun a => 2 * a) v.

(** The real number a double stands for (0 for an infinity and NaN). *)
Definition to_real (a : float) : R :=
  match FloatOps.Prim2SF a with
  | SpecFloat.S754_finite s m e =>
      ((if s then -1 else 1) * (IZR (Zpos m) * powerRZ 2 e))%R
  | _ => 0%R
  end.

End Binary64.

(* ================================================================= *)
(** ** Signs of reals *)

Lemma Rsign_pos (r : R) : 0 < r -> Rsign r = Pos.
Proof.
  intro H. unfold Rsign. destruct (total_order_T 0 r) as [[H1 | H1] | H1]; auto; lra.
Qed.

Lemma Rsign_neg (r : R) : r < 0 -> Rsign r = Neg.
Proof.
  intro H. unfold Rsign. destruct (total_order_T 0 r) as [[H1 | H1] | H1]; auto; lra.
Qed.

Lemma Rsign_zero : Rsign 0 = Zero.
Proof.
  unfold Rsign. destruct (total_order_T 0 0) as [[H1 | H1] | H1]; auto; lra.
Qed.

Lemma Rsign_Zero_inv (r : R) : Rsign r = Zero -> r = 0.
Proof.
  unfold Rsign. destruct (total_order_T 0 r) as [[H1 | H1] | H1]; congruence.
Qed.

Lemma Rsign_Pos_inv (r : R) : Rsign r = Pos -> 0 < r.
Proof.
  unfold Rsign. destruct (total_order_T 0 r) as [[H1 | H1] | H1]; congruence.
Qed.

Lemma Rsign_Neg_inv (r : R) : Rsign r = Neg -> r < 0.
Proof.
  unfold Rsign. destruct (total_order_T 0 r) as [[H1 | H1] | H1]; congruence || lra.
Qed.

Lemma Rsign_nonzero (r : R) : r <> 0 -> Rsign r <> Zero.
Proof. intros H E. apply H. now apply Rsign_Zero_inv. Qed.

(* ================================================================= *)
(** ** Arithmetic on values *)

Lemma fadd_0_l (a : fval) : fadd (Fin 0) a = a.
Proof. destruct a; simpl; auto. f_equal. lra. Qed.

Lemma fdiv_Fin (x y : R) : y <> 0 -> fdiv (Fin x) (Fin y) = Fin (x / y).
Proof.
  intro H. simpl. generalize (Rsign_nonzero y H). destruct (Rsign y); congruence.
Qed.

Lemma fsqrt_Fin (x : R) : 0 <= x -> fsqrt (Fin x) = Fin (sqrt x).
Proof.
  intro H. simpl. destruct (Rsign x) eqn:E; auto.
  apply Rsign_Neg_inv in E. lra.
Qed.

Lemma flog_Fin (x : R) : 0 < x -> flog (Fin x) = Fin (ln x).
Proof. intro H. simpl. now rewrite Rsign_pos. Qed.

(* ================================================================= *)
(** ** Lists and arrays *)

Lemma map2_length {A B C : Type} (f : A -> B -> C) (l : list A) (m : list B) :
  length l = length m -> length (map2 f l m) = length l.
Proof.
  revert m. induction l as [| a l IH]; intros [| b m] H; simpl in *;
    try discriminate; auto.
Qed.

Lemma map2_nth_error {A B C : Type} (f : A -> B -> C) (l : list A) (m : list B)
    (i : nat) (a : A) (b : B) :
  nth_error l i = Some a -> nth_error m i = Some b ->
  nth_error (map2 f l m) i = Some (f a b).
Proof.
  revert m i. induction l as [| a' l IH]; intros [| b' m] [| i] Hl Hm; simpl in *;
    try discriminate.
  - congruence.
  - now apply IH.
Qed.

Lemma broadcast2_same_length (op : fval -> fval -> fval) (a b : vec) :
  length a = length b -> broadcast2 op a b = Ok (map2 op a b).
Proof.
  intro H. unfold broadcast2. rewrite H, Nat.eqb_refl. reflexivity.
Qed.

Lemma vscale_length (v : vec) (c : fval) : length (vscale v c) = length v.
Proof. apply length_map. Qed.

Lemma np_ones_length (n : nat) : length (np_ones n) = n.
Proof. apply repeat_length. Qed.

Lemma setitem_update (a : vec) (i : nat) (b : fval) :
  (i < length a)%nat -> setitem a i b = Ok (update a i b).
Proof.
  revert i. induction a as [| c a IH]; intros i H; simpl in H; [lia |].
  destruct i as [| i]; simpl.
  - reflexivity.
  - rewrite IH by lia. reflexivity.
Qed.

Lemma update_length (a : vec) (i : nat) (b : fval) :
  (i < length a)%nat -> length (update a i b) = length a.
Proof.
  intro H. unfold update. rewrite length_app, length_firstn.
  change (length (b :: skipn (S i) a)) with (S (length (skipn (S i) a))).
  rewrite length_skipn. lia.
Qed.

Lemma firstn_update (a : vec) (i : nat) (b : fval) :
  (i < length a)%nat -> firstn (S i) (update a i b) = firstn i a ++ [b].
Proof.
  intro H. unfold update.
  rewrite firstn_app, length_firstn, Nat.min_l by lia.
  replace (S i - i)%nat with 1%nat by lia.
  rewrite firstn_all2 by (rewrite length_firstn; lia).
  reflexivity.
Qed.

Lemma skipn_update (a : vec) (i n : nat) (b : fval) :
  (i < length a)%nat -> skipn (S i + n) (update a i b) = skipn (i + S n) a.
Proof.
  intro H. unfold update.
  rewrite skipn_app, length_firstn, Nat.min_l by lia.
  rewrite skipn_all2 by (rewrite length_firstn; lia).
  replace (S i + n - i)%nat with (S n) by lia.
  change (skipn (S n) (b :: skipn (S i) a)) with (skipn n (skipn (S i) a)).
  rewrite skipn_skipn. simpl. f_equal. lia.
Qed.

Lemma firstn_seq_le (k start n : nat) :
  (k <= n)%nat -> firstn k (seq start n) = seq start k.
Proof.
  revert start n. induction k as [| k IH]; intros start [| n] H; simpl; auto; try lia.
  f_equal. apply IH. lia.
Qed.

Lemma map_seq_shift {A : Type} (f : nat -> A) (n : nat) :
  map f (seq 1 n) = map (fun i => f (S i)) (seq 0 n).
Proof. rewrite <- seq_shift, map_map. reflexivity. Qed.

(* ================================================================= *)
(** ** Running the loops *)

Section Loops.

Variable iterator_func : vec -> vec.
Variable deviation_scale : fval.
Variable part_time_steps : Z.
Variable D : nat.
Hypothesis Hdim : preserves_dim iterator_func D.

Local Abbreviation pts := (Z.to_nat part_time_steps).
Local Abbreviation renorm := (renormalize iterator_func deviation_scale part_time_steps).

Lemma iter_length (n : nat) (v : vec) :
  length v = D -> length (Nat.iter n iterator_func v) = D.
Proof. intro H. induction n; simpl; auto. Qed.

Lemma step_both_loop (n start : nat) (x x_pert : vec) (c : nat) :
  for_range n start (step_both iterator_func) (x, x_pert) c
  = ((c + 2 * n)%nat, Ok (Nat.iter n iterator_func x, Nat.iter n iterator_func x_pert)).
Proof.
  revert start x x_pert c. induction n as [| n IH]; intros start x x_pert c.
  - simpl. unfold ret. f_equal. lia.
  - cbn [for_range]. unfold bind at 1. cbn [step_both]. unfold bind, call, ret.
    rewrite IH. rewrite !Nat.iter_succ_r. f_equal. lia.
Qed.

Lemma advance_both_run (s : vec * vec) (c : nat) :
  advance_both iterator_func part_time_steps s c
  = ((c + 2 * pts)%nat, Ok (measured iterator_func part_time_steps s)).
Proof. destruct s as [x x_pert]. apply step_both_loop. Qed.

Lemma measured_dim (s : vec * vec) :
  length (fst s) = D -> length (snd s) = D ->
  length (fst (measured iterator_func part_time_steps s)) = D
  /\ length (snd (measured iterator_func part_time_steps s)) = D.
Proof. intros H1 H2. split; apply iter_length; assumption. Qed.

Lemma divergence_dim (s : vec * vec) :
  length (fst s) = D -> length (snd s) = D ->
  length (divergence iterator_func part_time_steps s) = D.
Proof.
  intros H1 H2. destruct (measured_dim s H1 H2) as [E1 E2].
  unfold divergence. rewrite map2_length; congruence.
Qed.

Lemma renormalize_dim (s : vec * vec) :
  length (fst s) = D -> length (snd s) = D ->
  length (fst (renorm s)) = D /\ length (snd (renorm s)) = D.
Proof.
  intros H1 H2. destruct (measured_dim s H1 H2) as [E1 E2].
  unfold renormalize. cbn [fst snd]. split; auto.
  rewrite map2_length; auto.
  rewrite vscale_length, divergence_dim; auto.
Qed.

Lemma state_before_dim (s0 : vec * vec) (i : nat) :
  length (fst s0) = D -> length (snd s0) = D ->
  length (fst (Nat.iter i renorm s0)) = D /\ length (snd (Nat.iter i renorm s0)) = D.
Proof.
  intros H1 H2. induction i as [| i [IH1 IH2]]; simpl; auto.
  apply renormalize_dim; assumption.
Qed.

Lemma block_run (i_n : nat) (s : vec * vec) (log_divergence : vec) (c : nat) :
  length (fst s) = D -> length (snd s) = D -> (i_n < length log_divergence)%nat ->
  block iterator_func deviation_scale part_time_steps i_n (s, log_divergence) c
  = ((c + 2 * pts)%nat,
     Ok (renorm s,
         update log_divergence i_n (log_div iterator_func deviation_scale part_time_steps s))).
Proof.
  intros H1 H2 Hi. destruct (measured_dim s H1 H2) as [E1 E2].
  pose proof (divergence_dim s H1 H2) as E3.
  destruct s as [x x_pert]. unfold block, bind at 1.
  rewrite advance_both_run. unfold measured in *. cbn [fst snd] in *.
  unfold bind, lift, ret, np_sub, np_add.
  rewrite broadcast2_same_length by congruence.
  rewrite setitem_update by assumption.
  unfold divergence, measured in E3. cbn [fst snd] in E3.
  rewrite broadcast2_same_length by (rewrite vscale_length; congruence).
  reflexivity.
Qed.

Lemma blocks_run (n start : nat) (s : vec * vec) (log_divergence : vec) (c : nat) :
  length (fst s) = D -> length (snd s) = D -> (start + n <= length log_divergence)%nat ->
  for_range n start (block iterator_func deviation_scale part_time_steps)
    (s, log_divergence) c
  = ((c + n * (2 * pts))%nat,
     Ok (Nat.iter n renorm s,
         firstn start log_divergence
         ++ log_divergences iterator_func deviation_scale part_time_steps s n
         ++ skipn (start + n) log_divergence)).
Proof.
  revert start s log_divergence c.
  induction n as [| n IH]; intros start s log_divergence c H1 H2 Hl.
  - cbn [for_range]. unfold ret, log_divergences. cbn [seq map app Nat.iter].
    rewrite (Nat.add_0_r start), firstn_skipn. f_equal. lia.
  - cbn [for_range]. unfold bind. rewrite block_run by (assumption || lia).
    destruct (renormalize_dim s H1 H2) as [E1 E2].
    rewrite IH by (try assumption; rewrite update_length; lia).
    rewrite firstn_update, skipn_update by lia.
    rewrite <- app_assoc. rewrite Nat.iter_succ_r.
    unfold log_divergences, log_divergence_of, state_before.
    cbn [seq map Nat.iter app]. rewrite map_seq_shift.
    f_equal; [lia |]. do 5 f_equal.
    apply map_ext. intro i. rewrite Nat.iter_succ_r. reflexivity.
Qed.

End Loops.

(* ================================================================= *)
(** ** The aggregation (lines 61-64) *)

Lemma denominators_length (N : Z) (dt : fval) (part_time_steps : Z) :
  length (denominators N dt part_time_steps) = Z.to_nat N.
Proof.
  unfold denominators, np_arange. rewrite !vscale_length, !length_map, length_seq.
  f_equal. lia.
Qed.

Lemma denominators_nth (N : Z) (dt : fval) (part_time_steps : Z) (k : nat) :
  (1 <= k <= Z.to_nat N)%nat ->
  nth_error (denominators N dt part_time_steps) (k - 1)
  = Some (fmul (fmul (Fin (INR k)) dt) (Fin (IZR part_time_steps))).
Proof.
  intro H. unfold denominators, vscale, np_arange. rewrite !map_map.
  rewrite nth_error_map.
  replace (Z.to_nat (N + 1 - 1)) with (Z.to_nat N) by (f_equal; lia).
  rewrite (nth_error_nth' (seq 0 (Z.to_nat N)) 0%nat) by (rewrite length_seq; lia).
  rewrite seq_nth by lia. cbn [option_map]. do 4 f_equal.
  rewrite INR_IZR_INZ. f_equal. lia.
Qed.

Lemma cumsum_from_length (acc : fval) (v : vec) : length (cumsum_from acc v) = length v.
Proof. revert acc. induction v as [| a v IH]; intro acc; simpl; auto. Qed.

Lemma np_cumsum_length (v : vec) : length (np_cumsum v) = length v.
Proof. destruct v; simpl; auto using cumsum_from_length. Qed.

Lemma cumsum_from_nth (acc : fval) (v : vec) (j : nat) :
  (j < length v)%nat ->
  nth_error (cumsum_from acc v) j = Some (fold_left fadd (firstn (S j) v) acc).
Proof.
  revert acc j. induction v as [| a v IH]; intros acc j H; simpl in H; [lia |].
  destruct j as [| j].
  - reflexivity.
  - cbn [cumsum_from nth_error]. rewrite IH by lia. reflexivity.
Qed.

(** Entry [j] of the cumulative sum is the sum of the first [j + 1] elements. *)
Lemma np_cumsum_nth (v : vec) (j : nat) :
  (j < length v)%nat -> nth_error (np_cumsum v) j = Some (fsum (firstn (S j) v)).
Proof.
  destruct v as [| a v]; cbn [length]; [lia |]. intro H. unfold fsum.
  destruct j as [| j]; cbn [np_cumsum nth_error].
  - cbn [firstn fold_left]. now rewrite fadd_0_l.
  - rewrite cumsum_from_nth by lia.
    cbn [firstn fold_left]. now rewrite fadd_0_l.
Qed.

Lemma log_divergences_length it ds pts (s0 : vec * vec) (n : nat) :
  length (log_divergences it ds pts s0 n) = n.
Proof. unfold log_divergences. now rewrite length_map, length_seq. Qed.

Lemma log_divergences_firstn it ds pts (s0 : vec * vec) (n k : nat) :
  (k <= n)%nat ->
  firstn k (log_divergences it ds pts s0 n) = log_divergences it ds pts s0 k.
Proof.
  intro H. unfold log_divergences. rewrite firstn_map, firstn_seq_le by lia.
  reflexivity.
Qed.

Lemma log_divergences_nth it ds pts (s0 : vec * vec) (n i : nat) :
  (i < n)%nat ->
  nth_error (log_divergences it ds pts s0 n) i = Some (log_divergence_of it ds pts s0 i).
Proof.
  intro H. unfold log_divergences. rewrite nth_error_map.
  rewrite (nth_error_nth' (seq 0 n) 0%nat) by (rewrite length_seq; lia).
  rewrite seq_nth by lia. reflexivity.
Qed.

(* ================================================================= *)
(** ** Running the whole function *)

Lemma estimate_run_from (iterator_func : vec -> vec) (starting_point : vec)
    (deviation_scale : fval) (N part_time_steps : Z) (dt : fval) (p x_pert : vec)
    (return_convergence : bool) (D c : nat) :
  preserves_dim iterator_func D ->
  length starting_point = D -> length x_pert = D ->
  np_add starting_point p = Ok x_pert -> (0 <= N)%Z ->
  estimate iterator_func starting_point deviation_scale N part_time_steps dt p
    return_convergence c
  = ((c + Z.to_nat N * (2 * Z.to_nat part_time_steps))%nat,
     Ok (aggregate N part_time_steps dt return_convergence
           (log_divergences iterator_func deviation_scale part_time_steps
              (starting_point, x_pert) (Z.to_nat N)))).
Proof.
  intros Hdim Hs Hx Hadd HN. unfold estimate, np_zeros.
  destruct (Z.ltb_spec N 0) as [? | _]; [lia |].
  unfold bind at 1, lift at 1. unfold bind at 1, lift at 1.
  rewrite Hadd. unfold bind at 1.
  rewrite (blocks_run iterator_func deviation_scale part_time_steps D Hdim);
    cbn [fst snd]; try assumption.
  2: { rewrite repeat_length. lia. }
  cbn [firstn app Nat.add]. rewrite skipn_all2 by (rewrite repeat_length; lia).
  rewrite app_nil_r. unfold aggregate.
  destruct (Nat.iter (Z.to_nat N) _ _) as [x' x_pert'].
  destruct return_convergence.
  - unfold bind, lift, ret, np_div. fold (denominators N dt part_time_steps).
    rewrite broadcast2_same_length; [reflexivity |].
    now rewrite np_cumsum_length, log_divergences_length, denominators_length.
  - reflexivity.
Qed.

Lemma estimate_run (iterator_func : vec -> vec) (starting_point : vec)
    (deviation_scale : fval) (N part_time_steps : Z) (dt : fval) (p : vec)
    (return_convergence : bool) (D c : nat) :
  preserves_dim iterator_func D ->
  length starting_point = D -> length p = D -> (0 <= N)%Z ->
  estimate iterator_func starting_point deviation_scale N part_time_steps dt p
    return_convergence c
  = ((c + Z.to_nat N * (2 * Z.to_nat part_time_steps))%nat,
     Ok (aggregate N part_time_steps dt return_convergence
           (log_divergences iterator_func deviation_scale part_time_steps
              (starting_point, map2 fadd starting_point p) (Z.to_nat N)))).
Proof.
  intros Hdim Hs Hp HN. apply (estimate_run_from _ _ _ _ _ _ _ _ _ D); auto.
  - rewrite map2_length; congruence.
  - apply broadcast2_same_length. congruence.
Qed.

Lemma initial_state_dim (starting_point : vec) (deviation_scale : fval)
    (initial_perturbation : perturbation_arg) (D : nat) :
  length starting_point = D ->
  length (direction starting_point initial_perturbation) = D ->
  length (fst (initial_state starting_point deviation_scale initial_perturbation)) = D
  /\ length (snd (initial_state starting_point deviation_scale initial_perturbation)) = D.
Proof.
  intros Hs Hd. unfold initial_state, rescaled. cbn [fst snd].
  destruct initial_perturbation; cbn [direction] in *;
    repeat (rewrite ?map2_length, ?vscale_length, ?np_ones_length); auto; congruence.
Qed.

(** With arrays of one length [D], an iterator that keeps that length
    and [N >= 0], the call returns, after [N * 2 * part_time_steps]
    iterator calls, the aggregate of the blocks' log-divergences. *)
Lemma largest_lyapunov_exponent_run (iterator_func : vec -> vec) (starting_point : vec)
    (deviation_scale : fval) (N part_time_steps : Z) (dt : fval)
    (initial_perturbation : perturbation_arg) (return_convergence : bool) (D : nat) :
  preserves_dim iterator_func D ->
  length starting_point = D ->
  length (direction starting_point initial_perturbation) = D ->
  (0 <= N)%Z ->
  let r := largest_lyapunov_exponent iterator_func starting_point deviation_scale N
             part_time_steps dt initial_perturbation return_convergence in
  iterator_calls r = (Z.to_nat N * (2 * Z.to_nat part_time_steps))%nat
  /\ returned r
     = Ok (aggregate N part_time_steps dt return_convergence
             (log_divergences iterator_func deviation_scale part_time_steps
                (initial_state starting_point deviation_scale initial_perturbation)
                (Z.to_nat N))).
Proof.
  intros Hdim Hs Hd HN.
  destruct (initial_state_dim starting_point deviation_scale initial_perturbation D Hs Hd)
    as [E1 E2].
  unfold initial_state in E1, E2. cbn [fst snd] in E1, E2.
  cbv zeta. unfold largest_lyapunov_exponent.
  rewrite (estimate_run _ _ _ _ _ _ _ _ D) by
    (try assumption; unfold rescaled; now rewrite vscale_length).
  cbn [iterator_calls returned]. split; reflexivity.
Qed.

(* ================================================================= *)
(** ** Arrays of finite numbers *)

Lemma all_finite_map_Fin (r : list R) : all_finite (map Fin r) = true.
Proof. induction r; simpl; auto. Qed.

Lemma all_finite_inv (v : vec) : all_finite v = true -> v = map Fin (map to_R v).
Proof.
  induction v as [| a v IH]; simpl; intro H; auto.
  apply andb_prop in H. destruct H as [Ha Hv].
  destruct a; try discriminate. simpl. f_equal. auto.
Qed.

Lemma fold_left_fadd_Fin (r : list R) (acc : R) :
  fold_left fadd (map Fin r) (Fin acc) = Fin (fold_left Rplus r acc).
Proof. revert acc. induction r as [| a r IH]; intro acc; simpl; auto. Qed.

Lemma fsum_Fin (r : list R) : fsum (map Fin r) = Fin (Rsum r).
Proof. apply fold_left_fadd_Fin. Qed.

Lemma fold_left_squares_nonneg (r : list R) (acc : R) :
  0 <= acc -> 0 <= fold_left Rplus (map (fun a => a * a) r) acc.
Proof.
  revert acc. induction r as [| a r IH]; intros acc H; simpl; auto.
  apply IH. nra.
Qed.

Lemma Rsum_squares_nonneg (r : list R) : 0 <= Rsum (map (fun a => a * a) r).
Proof. apply fold_left_squares_nonneg. lra. Qed.

Lemma Rnorm_nonneg (r : list R) : 0 <= Rnorm r.
Proof. apply sqrt_pos. Qed.

Lemma norm_Fin (r : list R) : norm (map Fin r) = Fin (Rnorm r).
Proof.
  unfold norm, Rnorm. rewrite map_map.
  change (map (fun x => fmul (Fin x) (Fin x)) r)
    with (map (fun x => Fin (x * x)) r).
  rewrite <- (map_map (fun x => x * x) Fin), fsum_Fin.
  apply fsqrt_Fin, Rsum_squares_nonneg.
Qed.

Lemma vscale_Fin (r : list R) (c : R) :
  vscale (map Fin r) (Fin c) = map Fin (map (fun a => a * c) r).
Proof. unfold vscale. rewrite !map_map. reflexivity. Qed.

Lemma map2_fadd_Fin (a b : list R) :
  map2 fadd (map Fin a) (map Fin b) = map Fin (map2 Rplus a b).
Proof.
  revert b. induction a as [| x a IH]; intros [| y b]; simpl; auto. now rewrite IH.
Qed.

Lemma map2_fsub_Fin (a b : list R) :
  map2 fsub (map Fin a) (map Fin b) = map Fin (map2 Rminus a b).
Proof.
  revert b. induction a as [| x a IH]; intros [| y b]; simpl; auto. now rewrite IH.
Qed.

Lemma map2_Rplus_Rminus (x d : list R) :
  length x = length d -> map2 Rminus (map2 Rplus x d) x = d.
Proof.
  revert d. induction x as [| a x IH]; intros [| b d] H; simpl in *; try discriminate; auto.
  f_equal; [lra | apply IH; lia].
Qed.

Lemma fold_left_squares_scale (r : list R) (c acc : R) :
  fold_left Rplus (map (fun a => a * a) (map (fun a => a * c) r)) (acc * (c * c))
  = fold_left Rplus (map (fun a => a * a) r) acc * (c * c).
Proof.
  revert acc. induction r as [| a r IH]; intro acc; simpl; auto.
  rewrite <- IH. f_equal. lra.
Qed.

Lemma Rnorm_scale (r : list R) (c : R) :
  Rnorm (map (fun a => a * c) r) = Rabs c * Rnorm r.
Proof.
  unfold Rnorm, Rsum.
  replace 0 with (0 * (c * c)) at 1 by lra.
  rewrite fold_left_squares_scale.
  rewrite sqrt_mult_alt by (apply fold_left_squares_nonneg; lra).
  fold (Rsqr c). rewrite sqrt_Rsqr_abs. lra.
Qed.

(** The difference [(x + d) - x] is [d], on finite arrays of one length. *)
Lemma add_sub_cancel (x d : vec) :
  all_finite x = true -> all_finite d = true -> length x = length d ->
  map2 fsub (map2 fadd x d) x = d.
Proof.
  intros Hx Hd Hl. rewrite (all_finite_inv x Hx), (all_finite_inv d Hd).
  rewrite map2_fadd_Fin, map2_fsub_Fin, map2_Rplus_Rminus; auto.
  rewrite !length_map. exact Hl.
Qed.

Lemma map2_fadd_finite (x d : vec) :
  all_finite x = true -> all_finite d = true -> all_finite (map2 fadd x d) = true.
Proof.
  intros Hx Hd. rewrite (all_finite_inv x Hx), (all_finite_inv d Hd), map2_fadd_Fin.
  apply all_finite_map_Fin.
Qed.

Lemma map2_fsub_finite (x d : vec) :
  all_finite x = true -> all_finite d = true -> all_finite (map2 fsub x d) = true.
Proof.
  intros Hx Hd. rewrite (all_finite_inv x Hx), (all_finite_inv d Hd), map2_fsub_Fin.
  apply all_finite_map_Fin.
Qed.

(** Rescaling a finite array whose norm is not zero gives a finite array
    of norm [deviation_scale], when that is finite and not negative. *)
Lemma rescaled_finite_norm (v : vec) (s : R) :
  all_finite v = true -> norm v <> Fin 0 -> 0 <= s ->
  all_finite (rescaled (Fin s) v) = true /\ norm (rescaled (Fin s) v) = Fin s.
Proof.
  intros Hv Hn Hs. unfold rescaled. rewrite (all_finite_inv v Hv) in *.
  set (r := map to_R v) in *. rewrite norm_Fin in *.
  assert (Rnorm r <> 0) as Hr by congruence.
  pose proof (Rnorm_nonneg r) as H0.
  rewrite fdiv_Fin, vscale_Fin by assumption.
  split; [apply all_finite_map_Fin |].
  rewrite norm_Fin, Rnorm_scale. f_equal.
  rewrite Rabs_pos_eq.
  - field. assumption.
  - apply Rmult_le_pos; [assumption |]. apply Rlt_le, Rinv_0_lt_compat. lra.
Qed.

(* ================================================================= *)
(** ** Signs of products and quotients *)

Lemma Rsign_cases (r : R) :
  (Rsign r = Pos /\ 0 < r) \/ (Rsign r = Zero /\ r = 0) \/ (Rsign r = Neg /\ r < 0).
Proof.
  destruct (total_order_T 0 r) as [[H | H] | H].
  - left. split; [now apply Rsign_pos | assumption].
  - right; left. subst r. split; [apply Rsign_zero | reflexivity].
  - right; right. split; [now apply Rsign_neg | assumption].
Qed.

Lemma Rsign_mult (a b : R) : Rsign (a * b) = sgn_mul (Rsign a) (Rsign b).
Proof.
  destruct (Rsign_cases a) as [[Ea Ha] | [[Ea Ha] | [Ea Ha]]];
    destruct (Rsign_cases b) as [[Eb Hb] | [[Eb Hb] | [Eb Hb]]];
    rewrite Ea, Eb; cbn [sgn_mul]; subst;
    rewrite ?Rmult_0_l, ?Rmult_0_r; try apply Rsign_zero;
    try (apply Rsign_pos; nra); apply Rsign_neg; nra.
Qed.



(* ================================================================= *)
(** ** The convergence trace and the scalar *)

(** The sequence returned in convergence mode, entry by entry. *)
Lemma convergence_trace_run (iterator_func : vec -> vec) (starting_point : vec)
    (deviation_scale : fval) (N part_time_steps : Z) (dt : fval)
    (initial_perturbation : perturbation_arg) (D : nat) :
  preserves_dim iterator_func D ->
  length starting_point = D ->
  length (direction starting_point initial_perturbation) = D ->
  (0 <= N)%Z ->
  exists out : vec,
    returned (largest_lyapunov_exponent iterator_func starting_point deviation_scale N
                part_time_steps dt initial_perturbation true)
    = Ok (Trace out)
    /\ length out = Z.to_nat N
    /\ forall k : nat, (1 <= k <= Z.to_nat N)%nat ->
         nth_error out (k - 1)
         = Some (fdiv (fsum (log_divergences iterator_func deviation_scale part_time_steps
                               (initial_state starting_point deviation_scale
                                  initial_perturbation) k))
                   (fmul (fmul (Fin (INR k)) dt) (Fin (IZR part_time_steps)))).
Proof.
  intros Hdim Hs Hd HN.
  destruct (largest_lyapunov_exponent_run iterator_func starting_point deviation_scale N
              part_time_steps dt initial_perturbation true D Hdim Hs Hd HN) as [_ Hr].
  cbn [aggregate] in Hr.
  eexists. split; [exact Hr |]. split.
  - rewrite map2_length; rewrite np_cumsum_length, log_divergences_length; auto.
    now rewrite denominators_length.
  - intros k Hk. apply map2_nth_error.
    + rewrite np_cumsum_nth by (rewrite log_divergences_length; lia).
      replace (S (k - 1)) with k by lia.
      rewrite log_divergences_firstn by lia. reflexivity.
    + now apply denominators_nth.
Qed.

(** C1.  In convergence mode, on arrays of one length [D], with an
    iterator that keeps that length and [N >= 0] (so for every valid
    input), the call returns a sequence of [N] entries whose [k]-th
    entry, for [k] from 1 to [N], is the sum of the log-divergences of
    the first [k] blocks divided by [k * dt * part_time_steps]; the
    log-divergence of a block is [ln (norm (x_pert - x) / deviation_scale)]
    taken after [part_time_steps] iterator calls on each of the two
    states with which the block starts. *)
Theorem convergence_trace_entries (iterator_func : vec -> vec) (starting_point : vec)
    (deviation_scale : fval) (N part_time_steps : Z) (dt : fval)
    (initial_perturbation : perturbation_arg) (D : nat) :
  preserves_dim iterator_func D ->
  length starting_point = D ->
  length (direction starting_point initial_perturbation) = D ->
  (0 <= N)%Z ->
  let s0 := initial_state starting_point deviation_scale initial_perturbation in
  let log_divergence := log_divergence_of iterator_func deviation_scale part_time_steps s0 in
  (forall i : nat,
      let s := state_before iterator_func deviation_scale part_time_steps s0 i in
      log_divergence i
      = flog (fdiv (norm (map2 fsub
                            (Nat.iter (Z.to_nat part_time_steps) iterator_func (snd s))
                            (Nat.iter (Z.to_nat part_time_steps) iterator_func (fst s))))
                deviation_scale))
  /\ exists out : vec,
      returned (largest_lyapunov_exponent iterator_func starting_point deviation_scale N
                  part_time_steps dt initial_perturbation true)
      = Ok (Trace out)
      /\ length out = Z.to_nat N
      /\ forall k : nat, (1 <= k <= Z.to_nat N)%nat ->
           nth_error out (k - 1)
           = Some (fdiv (fsum (map log_divergence (seq 0 k)))
                     (fmul (fmul (Fin (INR k)) dt) (Fin (IZR part_time_steps)))).
Proof.
  intros Hdim Hs Hd HN s0 log_divergence. split; [reflexivity |].
  exact (convergence_trace_run iterator_func starting_point deviation_scale N
           part_time_steps dt initial_perturbation D Hdim Hs Hd HN).
Qed.


Lemma doubling_preserves_dim (D : nat) : preserves_dim doubling D.
Proof. intros v H. unfold doubling. now rewrite vscale_length. Qed.

Lemma convergence_trace_entries_witness :
  preserves_dim doubling 1
  /\ (0 <= 2)%Z
  /\ exists out : vec,
      returned (largest_lyapunov_exponent doubling [Fin 1] (Fin 1) 2 1 (Fin 1) PNone true)
      = Ok (Trace out)
      /\ length out = 2%nat
      /\ nth_error out 1
         = Some (fdiv (fsum (map (log_divergence_of doubling (Fin 1) 1
                                    (initial_state [Fin 1] (Fin 1) PNone)) [0; 1]%nat))
                   (fmul (fmul (Fin (INR 2)) (Fin 1)) (Fin 1))).
Proof.
  split; [apply doubling_preserves_dim |]. split; [lia |].
  destruct (convergence_trace_entries doubling [Fin 1] (Fin 1) 2 1 (Fin 1) PNone 1
              (doubling_preserves_dim 1) eq_refl eq_refl ltac:(lia))
    as [_ (out & H1 & H2 & H3)].
  exists out. split; [exact H1 |]. split; [exact H2 |].
  exact (H3 2%nat ltac:(simpl; lia)).
Defined.


(* ================================================================= *)
(** ** The number of iterator calls *)

(** C7.  For every valid input, one call of the estimator calls the
    iterator [2 * N * part_time_steps] times; the inner loop of a block
    makes [2 * part_time_steps] of them, [part_time_steps] on the
    reference state and as many on the perturbed state. *)
Theorem iterator_call_count (iterator_func : vec -> vec) (starting_point : vec)
    (deviation_scale : fval) (N part_time_steps : Z) (dt : fval)
    (initial_perturbation : perturbation_arg) (return_convergence : bool) (D : nat) :
  preserves_dim iterator_func D ->
  length starting_point = D ->
  length (direction starting_point initial_perturbation) = D ->
  (0 <= N)%Z -> (0 <= part_time_steps)%Z ->
  Z.of_nat (iterator_calls
              (largest_lyapunov_exponent iterator_func starting_point deviation_scale N
                 part_time_steps dt initial_perturbation return_convergence))
  = (2 * N * part_time_steps)%Z
  /\ forall (x x_pert : vec) (calls : nat),
      advance_both iterator_func part_time_steps (x, x_pert) calls
      = ((calls + 2 * Z.to_nat part_time_steps)%nat,
         Ok (Nat.iter (Z.to_nat part_time_steps) iterator_func x,
             Nat.iter (Z.to_nat part_time_steps) iterator_func x_pert)).
Proof.
  intros Hdim Hs Hd HN Hp. split.
  - destruct (largest_lyapunov_exponent_run iterator_func starting_point deviation_scale N
                part_time_steps dt initial_perturbation return_convergence D
                Hdim Hs Hd HN) as [Hc _].
    rewrite Hc. lia.
  - intros x x_pert calls. apply step_both_loop.
Qed.

Lemma iterator_call_count_witness :
  preserves_dim doubling 2
  /\ (0 <= 3)%Z /\ (0 <= 5)%Z
  /\ iterator_calls
       (largest_lyapunov_exponent doubling [Fin 1; Fin 0] (Fin 1) 3 5 (Fin 1)
          (PArray [Fin 0; Fin 1]) false)
     = 30%nat.
Proof.
  split; [apply doubling_preserves_dim |]. split; [lia |]. split; [lia |].
  apply Nat2Z.inj.
  exact (proj1 (iterator_call_count doubling [Fin 1; Fin 0] (Fin 1) 3 5 (Fin 1)
                  (PArray [Fin 0; Fin 1]) false 2
                  (doubling_preserves_dim 2) eq_refl eq_refl ltac:(lia) ltac:(lia))).
Defined.

(* ================================================================= *)
(** ** The magnitude of the perturbation *)

Section Magnitude.

Variable iterator_func : vec -> vec.
Variable scale : R.
Variable part_time_steps : Z.
Variable D : nat.
Hypothesis Hdim : preserves_dim iterator_func D.
Hypothesis Hfin : preserves_finite iterator_func.
Hypothesis Hscale : 0 <= scale.

Local Abbreviation renorm := (renormalize iterator_func (Fin scale) part_time_steps).

Lemma iter_finite (n : nat) (v : vec) :
  all_finite v = true -> all_finite (Nat.iter n iterator_func v) = true.
Proof. intro H. induction n; simpl; auto. Qed.

Lemma divergence_finite (s : vec * vec) :
  finite_state s -> all_finite (divergence iterator_func part_time_steps s) = true.
Proof.
  intros [H1 H2]. unfold divergence, measured, advance. cbn [fst snd].
  apply map2_fsub_finite; now apply iter_finite.
Qed.

(** One block: if the measured norm is not zero, the pair after the
    renormalization is finite again and its offset has norm
    [deviation_scale]. *)
Lemma renormalize_invariant (s : vec * vec) :
  length (fst s) = D -> length (snd s) = D -> finite_state s ->
  norm (divergence iterator_func part_time_steps s) <> Fin 0 ->
  finite_state (renorm s) /\ norm (offset (renorm s)) = Fin scale.
Proof.
  intros H1 H2 Hf Hn.
  pose proof (divergence_finite s Hf) as Hd.
  pose proof (divergence_dim iterator_func part_time_steps D Hdim s H1 H2) as Hl.
  destruct (measured_dim iterator_func part_time_steps D Hdim s H1 H2) as [E1 _].
  destruct (rescaled_finite_norm _ scale Hd Hn Hscale) as [Rf Rn].
  assert (all_finite (fst (measured iterator_func part_time_steps s)) = true) as Hx.
  { destruct Hf as [Hf _]. unfold measured, advance. cbn [fst]. now apply iter_finite. }
  unfold renormalize, offset, finite_state. cbn [fst snd].
  fold (rescaled (Fin scale) (divergence iterator_func part_time_steps s)).
  split; [split; [exact Hx | now apply map2_fadd_finite] |].
  rewrite add_sub_cancel; auto.
  unfold rescaled. rewrite vscale_length. congruence.
Qed.

(** The pair with which the first block starts. *)
Lemma initial_state_invariant (starting_point : vec)
    (initial_perturbation : perturbation_arg) :
  length starting_point = D ->
  length (direction starting_point initial_perturbation) = D ->
  all_finite starting_point = true ->
  all_finite (direction starting_point initial_perturbation) = true ->
  norm (direction starting_point initial_perturbation) <> Fin 0 ->
  finite_state (initial_state starting_point (Fin scale) initial_perturbation)
  /\ norm (offset (initial_state starting_point (Fin scale) initial_perturbation))
     = Fin scale.
Proof.
  intros Hs Hd Fs Fd Hn.
  destruct (rescaled_finite_norm _ scale Fd Hn Hscale) as [Rf Rn].
  destruct (initial_state_dim starting_point (Fin scale) initial_perturbation D Hs Hd)
    as [E1 _].
  unfold initial_state in *. unfold offset, finite_state. cbn [fst snd] in *.
  set (p := rescaled (Fin scale) (direction starting_point initial_perturbation)) in *.
  set (x := match initial_perturbation with PSameObject => p | _ => starting_point end)
    in *.
  assert (all_finite x = true) as Fx by (subst x; destruct initial_perturbation; auto).
  split; [split; [exact Fx | now apply map2_fadd_finite] |].
  rewrite add_sub_cancel; auto.
  subst p. unfold rescaled. rewrite vscale_length. congruence.
Qed.

(** As long as no measured norm was zero, the pair between two blocks
    is finite and its offset has norm [deviation_scale]. *)
Lemma state_before_invariant (s0 : vec * vec) (i : nat) :
  length (fst s0) = D -> length (snd s0) = D ->
  finite_state s0 -> norm (offset s0) = Fin scale ->
  (forall j : nat, (j < i)%nat ->
     norm_dx_of iterator_func (Fin scale) part_time_steps s0 j <> Fin 0) ->
  finite_state (state_before iterator_func (Fin scale) part_time_steps s0 i)
  /\ norm (offset (state_before iterator_func (Fin scale) part_time_steps s0 i))
     = Fin scale.
Proof.
  intros H1 H2 Hf Hn. induction i as [| i IH]; intro Hz.
  - simpl. auto.
  - destruct IH as [IHf _]; [intros j Hj; apply Hz; lia |].
    destruct (state_before_dim iterator_func (Fin scale) part_time_steps D Hdim s0 i H1 H2)
      as [E1 E2].
    unfold state_before. cbn [Nat.iter nat_rect].
    apply renormalize_invariant; auto.
    apply (Hz i). lia.
Qed.

End Magnitude.

(** C6.  For every valid input (finite arrays of one length, an
    iterator that keeps the length and finiteness, a direction whose norm
    is not zero, a finite [deviation_scale >= 0]), in exact arithmetic
    the norm of [x_pert - x] is [deviation_scale] right after the
    initialisation, and the loop of the estimator run through its first
    [i + 1] blocks ([i < N]) leaves a pair [(x, x_pert)] with that same
    norm of [x_pert - x], provided no norm measured in these blocks was
    zero. *)
Theorem perturbation_magnitude_invariant (iterator_func : vec -> vec)
    (starting_point : vec) (scale : R) (N part_time_steps : Z)
    (initial_perturbation : perturbation_arg) (D : nat) :
  preserves_dim iterator_func D ->
  preserves_finite iterator_func ->
  length starting_point = D ->
  length (direction starting_point initial_perturbation) = D ->
  all_finite starting_point = true ->
  all_finite (direction starting_point initial_perturbation) = true ->
  norm (direction starting_point initial_perturbation) <> Fin 0 ->
  0 <= scale ->
  let deviation_scale := Fin scale in
  let s0 := initial_state starting_point deviation_scale initial_perturbation in
  np_add (fst s0) (rescaled deviation_scale (direction starting_point initial_perturbation))
  = Ok (snd s0)
  /\ norm (map2 fsub (snd s0) (fst s0)) = deviation_scale
  /\ forall i : nat, (i < Z.to_nat N)%nat ->
       (forall j : nat, (j <= i)%nat ->
          norm_dx_of iterator_func deviation_scale part_time_steps s0 j <> Fin 0) ->
       exists (x x_pert log_divergence : vec) (calls : nat),
         for_range (S i) 0 (block iterator_func deviation_scale part_time_steps)
           (s0, repeat (Fin 0) (Z.to_nat N)) 0%nat
         = (calls, Ok (x, x_pert, log_divergence))
         /\ norm (map2 fsub x_pert x) = deviation_scale.
Proof.
  intros Hdim Hfin Hs Hd Fs Fd Hn Hscale deviation_scale s0.
  destruct (initial_state_invariant scale D Hscale starting_point initial_perturbation
              Hs Hd Fs Fd Hn) as [F0 N0].
  fold deviation_scale s0 in F0, N0.
  destruct (initial_state_dim starting_point deviation_scale initial_perturbation D Hs Hd)
    as [E1 E2].
  fold s0 in E1, E2.
  split.
  { unfold np_add. rewrite broadcast2_same_length; [reflexivity |].
    unfold rescaled. rewrite vscale_length. congruence. }
  split; [exact N0 |].
  intros i Hi Hz.
  rewrite (blocks_run iterator_func deviation_scale part_time_steps D Hdim)
    by (try assumption; rewrite repeat_length; lia).
  destruct (state_before_invariant iterator_func scale part_time_steps D Hdim Hfin Hscale
              s0 (S i) E1 E2 F0 N0) as [_ Hn'].
  { intros j Hj. apply Hz. lia. }
  unfold state_before, offset in Hn'. fold deviation_scale in Hn'.
  destruct (Nat.iter (S i) _ s0) as [x x_pert]. cbn [fst snd] in Hn'.
  do 4 eexists. split; [reflexivity | exact Hn'].
Qed.

Lemma fold_left_Rplus_repeat (a acc : R) (n : nat) :
  fold_left Rplus (repeat a n) acc = acc + INR n * a.
Proof.
  revert acc. induction n as [| n IH]; intro acc.
  - simpl. lra.
  - cbn [repeat fold_left]. rewrite IH, S_INR. lra.
Qed.

(** The norm of [np.ones(D)] is the square root of [D]. *)
Lemma norm_np_ones (D : nat) : norm (np_ones D) = Fin (sqrt (INR D)).
Proof.
  unfold np_ones. rewrite <- (map_repeat 1 D Fin), norm_Fin. unfold Rnorm, Rsum.
  rewrite map_repeat, fold_left_Rplus_repeat. do 2 f_equal. lra.
Qed.

Lemma perturbation_magnitude_invariant_witness :
  preserves_dim stay 1
  /\ preserves_finite stay
  /\ norm (direction [Fin 3] PNone) <> Fin 0
  /\ (forall j : nat, (j <= 0)%nat ->
        norm_dx_of stay (Fin 1) 1 (initial_state [Fin 3] (Fin 1) PNone) j <> Fin 0)
  /\ exists (x x_pert log_divergence : vec) (calls : nat),
      for_range 1 0 (block stay (Fin 1) 1)
        (initial_state [Fin 3] (Fin 1) PNone, repeat (Fin 0) (Z.to_nat 2)) 0%nat
      = (calls, Ok (x, x_pert, log_divergence))
      /\ norm (map2 fsub x_pert x) = Fin 1.
Proof.
  assert (preserves_dim stay 1) as Hdim by (intros v H; exact H).
  assert (preserves_finite stay) as Hfin by (intros v H; exact H).
  assert (norm (direction [Fin 3] PNone) <> Fin 0) as Hn.
  { change (direction [Fin 3] PNone) with (np_ones 1). rewrite norm_np_ones.
    change (INR 1) with 1. rewrite sqrt_1. intro E. injection E. lra. }
  assert (0 <= 1) as Hscale by lra.
  assert (forall j : nat, (j <= 0)%nat ->
            norm_dx_of stay (Fin 1) 1 (initial_state [Fin 3] (Fin 1) PNone) j <> Fin 0)
    as Hz.
  { intros j Hj. replace j with 0%nat by lia.
    change (norm_dx_of stay (Fin 1) 1 (initial_state [Fin 3] (Fin 1) PNone) 0)
      with (norm (offset (initial_state [Fin 3] (Fin 1) PNone))).
    destruct (initial_state_invariant 1 1 Hscale [Fin 3] PNone
                eq_refl eq_refl eq_refl eq_refl Hn) as [_ E].
    rewrite E. intro E'. injection E'. lra. }
  split; [exact Hdim |]. split; [exact Hfin |]. split; [exact Hn |]. split; [exact Hz |].
  exact (proj2 (proj2 (perturbation_magnitude_invariant stay [Fin 3] 1 2 1 PNone 1
                         Hdim Hfin eq_refl eq_refl eq_refl eq_refl Hn Hscale))
           0%nat ltac:(simpl; lia) Hz).
Defined.

(* ================================================================= *)
(** ** The default direction *)

Lemma norm_np_ones_nonzero (D : nat) : (1 <= D)%nat -> norm (np_ones D) <> Fin 0.
Proof.
  intros HD E. rewrite norm_np_ones in E. injection E as E.
  assert (0 < INR D) as H by (apply lt_0_INR; lia).
  apply sqrt_lt_R0 in H. lra.
Qed.

Lemma np_ones_finite (D : nat) : all_finite (np_ones D) = true.
Proof. induction D; simpl; auto. Qed.

(** C10, as the code has it.  Without [initial_perturbation] the
    direction is [np.ones(D)], with [D] the size of [starting_point], and
    line 45 multiplies it by [deviation_scale / sqrt D].  For an iterator
    that keeps the length [D] and [N >= 0], the call returns what lines
    52-64 compute from [x = starting_point] and
    [x_pert = starting_point + ones(D) * (deviation_scale / sqrt D)]; it
    makes the same number of iterator calls and returns the same as the
    call with [initial_perturbation = np.ones(D)], which leaves
    [ones(D) * (deviation_scale / sqrt D)] in the caller's array; and the
    caller's [starting_point] is left as it was.  In exact arithmetic that
    vector has the norm [deviation_scale] (for [D >= 1] and a finite
    [deviation_scale] that is not negative); in double precision its
    length can miss [deviation_scale] (a run that does is given with the
    double-precision embedding, at the end). *)
Theorem default_perturbation_is_ones (iterator_func : vec -> vec) (starting_point : vec)
    (deviation_scale : fval) (N part_time_steps : Z) (dt : fval)
    (return_convergence : bool) :
  let D := length starting_point in
  let p := vscale (np_ones D) (fdiv deviation_scale (Fin (sqrt (INR D)))) in
  let run ip := largest_lyapunov_exponent iterator_func starting_point deviation_scale N
                  part_time_steps dt ip return_convergence in
  (preserves_dim iterator_func D -> (0 <= N)%Z ->
   returned (run PNone)
   = Ok (aggregate N part_time_steps dt return_convergence
           (log_divergences iterator_func deviation_scale part_time_steps
              (starting_point, map2 fadd starting_point p) (Z.to_nat N))))
  /\ initial_perturbation_after (run (PArray (np_ones D))) = Some p
  /\ returned (run PNone) = returned (run (PArray (np_ones D)))
  /\ iterator_calls (run PNone) = iterator_calls (run (PArray (np_ones D)))
  /\ starting_point_after (run PNone) = starting_point
  /\ (forall s : R, (1 <= D)%nat -> deviation_scale = Fin s -> 0 <= s -> norm p = Fin s).
Proof.
  intros D p run.
  assert (rescaled deviation_scale (np_ones D) = p) as Ep
    by (unfold rescaled; now rewrite norm_np_ones).
  split; [| split; [| split; [| split; [| split]]]].
  - intros Hdim HN.
    destruct (largest_lyapunov_exponent_run iterator_func starting_point deviation_scale N
                part_time_steps dt PNone return_convergence D Hdim eq_refl
                (np_ones_length D) HN) as [_ Hr].
    subst run; cbv beta. rewrite Hr. unfold initial_state. cbn [direction]. fold D.
    now rewrite Ep.
  - subst run; cbv beta. unfold largest_lyapunov_exponent. cbn [direction].
    destruct (estimate _ _ _ _ _ _ _ _ _) as [calls r].
    cbn [initial_perturbation_after]. now rewrite Ep.
  - subst run; cbv beta. unfold largest_lyapunov_exponent. cbn [direction]. fold D.
    destruct (estimate _ _ _ _ _ _ _ _ _) as [calls r]. reflexivity.
  - subst run; cbv beta. unfold largest_lyapunov_exponent. cbn [direction]. fold D.
    destruct (estimate _ _ _ _ _ _ _ _ _) as [calls r]. reflexivity.
  - subst run; cbv beta. unfold largest_lyapunov_exponent.
    destruct (estimate _ _ _ _ _ _ _ _ _) as [calls r]. reflexivity.
  - intros s HD Hs Hs0. rewrite <- Ep, Hs.
    apply rescaled_finite_norm; auto using np_ones_finite, norm_np_ones_nonzero.
Qed.

Lemma default_perturbation_is_ones_witness :
  preserves_dim doubling (length [Fin 3; Fin 4]) /\ (0 <= 2)%Z
  /\ (1 <= length [Fin 3; Fin 4])%nat /\ 0 <= 1
  /\ returned (largest_lyapunov_exponent doubling [Fin 3; Fin 4] (Fin 1) 2 3 (Fin 1)
                 PNone true)
     = Ok (aggregate 2 3 (Fin 1) true
             (log_divergences doubling (Fin 1) 3
                ([Fin 3; Fin 4],
                 map2 fadd [Fin 3; Fin 4]
                   (vscale (np_ones 2) (fdiv (Fin 1) (Fin (sqrt (INR 2))))))
                2))
  /\ initial_perturbation_after
       (largest_lyapunov_exponent doubling [Fin 3; Fin 4] (Fin 1) 2 3 (Fin 1)
          (PArray (np_ones 2)) true)
     = Some (vscale (np_ones 2) (fdiv (Fin 1) (Fin (sqrt (INR 2)))))
  /\ norm (vscale (np_ones 2) (fdiv (Fin 1) (Fin (sqrt (INR 2))))) = Fin 1.
Proof.
  destruct (default_perturbation_is_ones doubling [Fin 3; Fin 4] (Fin 1) 2 3 (Fin 1) true)
    as (H1 & H2 & _ & _ & _ & H3).
  split; [apply doubling_preserves_dim |]. split; [lia |].
  split; [simpl; lia |]. split; [lra |].
  split; [exact (H1 (doubling_preserves_dim 2) ltac:(lia)) |].
  split; [exact H2 | exact (H3 1 ltac:(simpl; lia) eq_refl ltac:(lra))].
Defined.

(* ================================================================= *)
(** ** The length of the supplied direction does not matter *)

Lemma Rsign_scale_pos (c a : R) : 0 < c -> Rsign (c * a) = Rsign a.
Proof.
  intro Hc. rewrite Rsign_mult, (Rsign_pos c Hc). destruct (Rsign a); reflexivity.
Qed.

(** One element of [c * v], rescaled, against the same element of [v],
    rescaled; [n] is the norm of [v]. *)
Lemma rescale_element (deviation_scale : fval) (c n a : R) :
  0 < c -> 0 <= n ->
  fmul (Fin (c * a)) (fdiv deviation_scale (Fin (c * n)))
  = fmul (Fin a) (fdiv deviation_scale (Fin n)).
Proof.
  intros Hc Hn.
  pose proof (Rsign_scale_pos c a Hc) as Ea.
  pose proof (Rsign_scale_pos c n Hc) as En.
  destruct deviation_scale as [s | | |]; cbn [fdiv]; rewrite ?En;
    destruct (Rsign_cases n) as [[E Hn'] | [[E Hn'] | [E Hn']]]; rewrite ?E;
    try (exfalso; lra); cbn [fmul signed_inf sgn_opp]; rewrite ?Ea; try reflexivity.
  - f_equal. field. lra.
  - destruct (Rsign s); cbn [fmul signed_inf sgn_opp]; rewrite ?Ea; reflexivity.
Qed.

Lemma Rnorm_scale_l (r : list R) (c : R) :
  0 < c -> Rnorm (map (Rmult c) r) = c * Rnorm r.
Proof.
  intro Hc. rewrite (map_ext (Rmult c) (fun a => a * c)) by (intro; lra).
  rewrite Rnorm_scale, Rabs_pos_eq; lra.
Qed.

(** Line 45 gives the same array for [c * v] as for [v], when [c > 0]. *)
Lemma rescaled_scale_invariant (deviation_scale : fval) (c : R) (v : vec) :
  0 < c -> all_finite v = true ->
  rescaled deviation_scale (map (fmul (Fin c)) v) = rescaled deviation_scale v.
Proof.
  intros Hc Hv. rewrite (all_finite_inv v Hv). set (r := map to_R v).
  rewrite map_map. change (map (fun x => fmul (Fin c) (Fin x)) r)
    with (map (fun x => Fin (c * x)) r).
  rewrite <- (map_map (Rmult c) Fin). unfold rescaled.
  rewrite !norm_Fin, Rnorm_scale_l by assumption.
  unfold vscale. rewrite !map_map. apply map_ext. intro a.
  apply rescale_element; [assumption | apply Rnorm_nonneg].
Qed.

(** C9.  For a supplied direction [v] of finite numbers and a real
    [c > 0], the call with [initial_perturbation = c * v] makes the same
    iterator calls, returns the same scalar or sequence and leaves the
    same arrays behind as the call with [initial_perturbation = v], all
    other arguments being the same. *)
Theorem perturbation_scale_invariance (iterator_func : vec -> vec) (starting_point : vec)
    (deviation_scale : fval) (N part_time_steps : Z) (dt : fval)
    (v : vec) (c : R) (return_convergence : bool) :
  0 < c -> all_finite v = true ->
  largest_lyapunov_exponent iterator_func starting_point deviation_scale N
    part_time_steps dt (PArray (map (fmul (Fin c)) v)) return_convergence
  = largest_lyapunov_exponent iterator_func starting_point deviation_scale N
      part_time_steps dt (PArray v) return_convergence.
Proof.
  intros Hc Hv. unfold largest_lyapunov_exponent. cbn [direction].
  now rewrite rescaled_scale_invariant.
Qed.

Lemma perturbation_scale_invariance_witness :
  0 < 5
  /\ returned (largest_lyapunov_exponent doubling [Fin 1; Fin 2] (Fin 1) 4 3 (Fin 1)
                 (PArray (map (fmul (Fin 5)) [Fin 3; Fin 4])) true)
     = returned (largest_lyapunov_exponent doubling [Fin 1; Fin 2] (Fin 1) 4 3 (Fin 1)
                   (PArray [Fin 3; Fin 4]) true).
Proof.
  split; [lra |].
  exact (f_equal returned
           (perturbation_scale_invariance doubling [Fin 1; Fin 2] (Fin 1) 4 3 (Fin 1)
              [Fin 3; Fin 4] 5 true ltac:(lra) eq_refl)).
Defined.

(* ================================================================= *)
(** ** The caller's array is overwritten *)

(** A finite array whose norm is already [deviation_scale] is rescaled
    to itself. *)
Lemma rescaled_fixed (v : vec) (s : R) :
  all_finite v = true -> 0 < s -> norm v = Fin s -> rescaled (Fin s) v = v.
Proof.
  intros Hv Hs Hn. unfold rescaled. rewrite Hn, fdiv_Fin by lra.
  rewrite (all_finite_inv v Hv), vscale_Fin. f_equal.
  rewrite <- (map_id (map to_R v)) at 2. apply map_ext. intro a. field. lra.
Qed.

(** C5, as the code has it.  When the caller supplies an array as
    [initial_perturbation], the call leaves in it the original vector
    times [deviation_scale / (its original norm)], whatever else happens
    in the call.  For a finite vector whose norm is neither zero nor
    [deviation_scale] (finite, not negative) these are no longer the
    original values; a finite vector whose norm already is
    [deviation_scale > 0] is left with its original values. *)
Theorem initial_perturbation_overwritten (iterator_func : vec -> vec)
    (starting_point : vec) (deviation_scale : fval) (N part_time_steps : Z) (dt : fval)
    (initial_perturbation : perturbation_arg) (return_convergence : bool) :
  initial_perturbation <> PNone ->
  let original := direction starting_point initial_perturbation in
  let after :=
    initial_perturbation_after
      (largest_lyapunov_exponent iterator_func starting_point deviation_scale N
         part_time_steps dt initial_perturbation return_convergence) in
  after = Some (vscale original (fdiv deviation_scale (norm original)))
  /\ (forall s : R,
        deviation_scale = Fin s -> 0 <= s ->
        all_finite original = true -> norm original <> Fin 0 -> norm original <> Fin s ->
        after <> Some original)
  /\ (forall s : R,
        deviation_scale = Fin s -> 0 < s ->
        all_finite original = true -> norm original = Fin s ->
        after = Some original).
Proof.
  intros Hp original after.
  assert (after = Some (rescaled deviation_scale original)) as E.
  { subst after original. unfold largest_lyapunov_exponent.
    destruct (estimate _ _ _ _ _ _ _ _ _) as [calls r]. cbn [initial_perturbation_after].
    destruct initial_perturbation; [congruence | reflexivity | reflexivity]. }
  split; [exact E |]. split.
  - intros s Hs Hs0 Hf Hn0 Hns. rewrite E, Hs. intro Eq.
    destruct (rescaled_finite_norm original s Hf Hn0 Hs0) as [_ Hn].
    apply Hns. injection Eq as Eq. rewrite Eq in Hn. exact Hn.
  - intros s Hs Hs0 Hf Hn. rewrite E, Hs. f_equal. now apply rescaled_fixed.
Qed.

Lemma initial_perturbation_overwritten_witness :
  PArray [Fin 1; Fin 1; Fin 1; Fin 1] <> PNone
  /\ norm [Fin 1; Fin 1; Fin 1; Fin 1] = Fin 2
  /\ initial_perturbation_after
       (largest_lyapunov_exponent doubling [Fin 0; Fin 0; Fin 0; Fin 0] (Fin 1) 1 1 (Fin 1)
          (PArray [Fin 1; Fin 1; Fin 1; Fin 1]) false)
     = Some (vscale [Fin 1; Fin 1; Fin 1; Fin 1]
               (fdiv (Fin 1) (norm [Fin 1; Fin 1; Fin 1; Fin 1])))
  /\ initial_perturbation_after
       (largest_lyapunov_exponent doubling [Fin 0; Fin 0; Fin 0; Fin 0] (Fin 1) 1 1 (Fin 1)
          (PArray [Fin 1; Fin 1; Fin 1; Fin 1]) false)
     <> Some [Fin 1; Fin 1; Fin 1; Fin 1].
Proof.
  assert (PArray [Fin 1; Fin 1; Fin 1; Fin 1] <> PNone) as Hp by discriminate.
  assert (norm [Fin 1; Fin 1; Fin 1; Fin 1] = Fin 2) as Hn.
  { change [Fin 1; Fin 1; Fin 1; Fin 1] with (np_ones 4). rewrite norm_np_ones.
    f_equal. replace (INR 4) with (2 * 2) by (simpl; lra).
    apply sqrt_square. lra. }
  split; [exact Hp |]. split; [exact Hn |].
  destruct (initial_perturbation_overwritten doubling [Fin 0; Fin 0; Fin 0; Fin 0] (Fin 1)
              1 1 (Fin 1) (PArray [Fin 1; Fin 1; Fin 1; Fin 1]) false Hp) as (H1 & H2 & _).
  split; [exact H1 |].
  apply (H2 1 eq_refl ltac:(lra) eq_refl).
  - cbn [direction]. rewrite Hn. intro E. injection E. lra.
  - cbn [direction]. rewrite Hn. intro E. injection E. lra.
Defined.

(** C5 as stated fails: a supplied array whose norm already is
    [deviation_scale] holds its original values after the call. *)
Lemma unit_perturbation_keeps_its_values :
  initial_perturbation_after
    (largest_lyapunov_exponent doubling [Fin 0; Fin 0] (Fin 1) 1 1 (Fin 1)
       (PArray [Fin 1; Fin 0]) false)
  = Some [Fin 1; Fin 0].
Proof.
  unfold largest_lyapunov_exponent. cbn [direction].
  destruct (estimate _ _ _ _ _ _ _ _ _) as [calls r]. cbn [initial_perturbation_after].
  f_equal. apply rescaled_fixed; [reflexivity | lra |].
  change [Fin 1; Fin 0] with (map Fin [1; 0]). rewrite norm_Fin. f_equal.
  unfold Rnorm, Rsum. cbn [map fold_left].
  replace (0 + 1 * 1 + 0 * 0) with 1 by lra. apply sqrt_1.
Qed.

(* ================================================================= *)
(** ** A measured norm of zero *)

Lemma fadd_not_finite_l (a b : fval) : is_finite a = false -> is_finite (fadd a b) = false.
Proof. destruct a, b; simpl; intro H; auto; discriminate. Qed.

Lemma fadd_not_finite_r (a b : fval) : is_finite b = false -> is_finite (fadd a b) = false.
Proof. destruct a, b; simpl; intro H; auto; discriminate. Qed.

Lemma fdiv_not_finite (a b : fval) : is_finite a = false -> is_finite (fdiv a b) = false.
Proof.
  destruct a as [x | | |], b as [y | | |]; simpl; intro H; auto; try discriminate;
    destruct (Rsign y); reflexivity.
Qed.

Lemma fold_left_fadd_not_finite (v : vec) (acc : fval) :
  is_finite acc = false -> is_finite (fold_left fadd v acc) = false.
Proof.
  revert acc. induction v as [| a v IH]; intros acc H; simpl; auto.
  apply IH. now apply fadd_not_finite_l.
Qed.

(** A sum with an element that is not finite is not finite. *)
Lemma fsum_not_finite (v : vec) (a : fval) :
  In a v -> is_finite a = false -> is_finite (fsum v) = false.
Proof.
  unfold fsum. generalize (Fin 0) as acc.
  induction v as [| b v IH]; intros acc Hin Ha; simpl in Hin; [contradiction |].
  cbn [fold_left]. destruct Hin as [-> | Hin].
  - apply fold_left_fadd_not_finite. now apply fadd_not_finite_r.
  - now apply IH.
Qed.

(** [ln (0 / deviation_scale)] is not finite, whatever the scale. *)
Lemma flog_zero_not_finite (deviation_scale : fval) :
  is_finite (flog (fdiv (Fin 0) deviation_scale)) = false.
Proof.
  destruct deviation_scale as [s | | |]; cbn [fdiv flog]; rewrite ?Rsign_zero;
    try reflexivity.
  destruct (Rsign_cases s) as [[E H] | [[E H] | [E H]]]; rewrite E;
    cbn [signed_inf flog]; try reflexivity;
    replace (0 / s) with 0 by (field; lra); now rewrite Rsign_zero.
Qed.

(** C8.  If the norm measured at the end of block [i] ([i < N]) is
    exactly zero, the call still returns (nothing is raised), and the
    value it returns is not finite: in convergence mode every entry from
    the one of block [i] on is an infinity or a NaN, and so is the scalar
    in scalar mode. *)
Theorem zero_norm_propagates (iterator_func : vec -> vec) (starting_point : vec)
    (deviation_scale : fval) (N part_time_steps : Z) (dt : fval)
    (initial_perturbation : perturbation_arg) (D i : nat) :
  preserves_dim iterator_func D ->
  length starting_point = D ->
  length (direction starting_point initial_perturbation) = D ->
  (i < Z.to_nat N)%nat ->
  norm_dx_of iterator_func deviation_scale part_time_steps
    (initial_state starting_point deviation_scale initial_perturbation) i = Fin 0 ->
  (exists out : vec,
      returned (largest_lyapunov_exponent iterator_func starting_point deviation_scale N
                  part_time_steps dt initial_perturbation true)
      = Ok (Trace out)
      /\ length out = Z.to_nat N
      /\ forall k : nat, (i < k <= Z.to_nat N)%nat ->
           exists a : fval, nth_error out (k - 1) = Some a /\ is_finite a = false)
  /\ (exists a : fval,
        returned (largest_lyapunov_exponent iterator_func starting_point deviation_scale N
                    part_time_steps dt initial_perturbation false)
        = Ok (Scalar a)
        /\ is_finite a = false).
Proof.
  intros Hdim Hs Hd Hi Hz.
  assert (0 <= N)%Z as HN by lia.
  set (s0 := initial_state starting_point deviation_scale initial_perturbation) in *.
  assert (is_finite (log_divergence_of iterator_func deviation_scale part_time_steps s0 i)
          = false) as Hlog.
  { unfold log_divergence_of, log_div. unfold norm_dx_of in Hz. rewrite Hz.
    apply flog_zero_not_finite. }
  assert (forall k : nat, (i < k)%nat ->
            is_finite (fsum (log_divergences iterator_func deviation_scale
                               part_time_steps s0 k)) = false) as Hsum.
  { intros k Hk. eapply fsum_not_finite; [| exact Hlog].
    unfold log_divergences. apply in_map, in_seq. lia. }
  split.
  - destruct (convergence_trace_run iterator_func starting_point deviation_scale N
                part_time_steps dt initial_perturbation D Hdim Hs Hd HN)
      as (out & Hout & Hlen & Hnth).
    exists out. split; [exact Hout |]. split; [exact Hlen |].
    intros k Hk. eexists. split; [apply Hnth; lia |].
    apply fdiv_not_finite, Hsum. lia.
  - destruct (largest_lyapunov_exponent_run iterator_func starting_point deviation_scale N
                part_time_steps dt initial_perturbation false D Hdim Hs Hd HN) as [_ Hr].
    cbn [aggregate] in Hr. eexists. split; [exact Hr |].
    unfold np_average. do 2 apply fdiv_not_finite. apply Hsum.
    exact Hi.
Qed.

Lemma collapse_preserves_dim (D : nat) : preserves_dim collapse D.
Proof. intros v H. unfold collapse. now rewrite length_map. Qed.

Lemma zero_norm_propagates_witness :
  preserves_dim collapse 1
  /\ norm_dx_of collapse (Fin 1) 1 (initial_state [Fin 1] (Fin 1) PNone) 0 = Fin 0
  /\ (exists a : fval,
        returned (largest_lyapunov_exponent collapse [Fin 1] (Fin 1) 1 1 (Fin 1) PNone false)
        = Ok (Scalar a)
        /\ is_finite a = false).
Proof.
  assert (norm_dx_of collapse (Fin 1) 1 (initial_state [Fin 1] (Fin 1) PNone) 0 = Fin 0)
    as Hz.
  { change (norm_dx_of collapse (Fin 1) 1 (initial_state [Fin 1] (Fin 1) PNone) 0)
      with (norm (map Fin [0 - 0])).
    rewrite norm_Fin. f_equal. unfold Rnorm, Rsum. cbn [map fold_left].
    replace (0 + (0 - 0) * (0 - 0)) with 0 by lra. apply sqrt_0. }
  split; [apply collapse_preserves_dim |]. split; [exact Hz |].
  exact (proj2 (zero_norm_propagates collapse [Fin 1] (Fin 1) 1 1 (Fin 1) PNone 1 0
                  (collapse_preserves_dim 1) eq_refl eq_refl ltac:(simpl; lia) Hz)).
Defined.

(* ================================================================= *)
(** ** What is and what is not rejected *)

Lemma estimate_negative_N (iterator_func : vec -> vec) (starting_point : vec)
    (deviation_scale : fval) (N part_time_steps : Z) (dt : fval) (p : vec)
    (return_convergence : bool) (c : nat) :
  (N < 0)%Z ->
  estimate iterator_func starting_point deviation_scale N part_time_steps dt p
    return_convergence c
  = (c, Raise ValueError).
Proof.
  intro HN. unfold estimate, np_zeros.
  destruct (Z.ltb_spec N 0) as [_ | ?]; [reflexivity | lia].
Qed.


Lemma broadcast2_singleton_r (op : fval -> fval -> fval) (a b : vec) :
  length b = 1%nat ->
  exists b0 : fval, b = [b0] /\ broadcast2 op a b = Ok (map (fun x => op x b0) a).
Proof.
  intro Hb. destruct b as [| b0 [| b1 b]]; try discriminate.
  exists b0. split; [reflexivity |]. unfold broadcast2.
  destruct (Nat.eqb_spec (length a) (length [b0])) as [E | _].
  - destruct a as [| a0 [| a1 a]]; try discriminate. reflexivity.
  - destruct a as [| a0 [| a1 a]]; reflexivity.
Qed.



(** The loops when the reference state has length 1 and the perturbed
    state has length [D]: every subtraction and addition broadcasts. *)
Section Stretched.

Variable iterator_func : vec -> vec.
Variable deviation_scale : fval.
Variable part_time_steps : Z.
Variable D : nat.
Hypothesis Hdim1 : preserves_dim iterator_func 1.
Hypothesis HdimD : preserves_dim iterator_func D.




End Stretched.

(** C3, as the code has it.  The estimator validates none of
    [deviation_scale], [N] and [part_time_steps].  On arrays of one
    length kept by the iterator: a negative [N] raises [ValueError] (from
    [np.zeros]) before any iterator call; [N = 0] or a non-positive
    [part_time_steps] makes no iterator call but returns a result; and
    with [N >= 1] and [part_time_steps >= 1] the iterator is called
    [2 * N * part_time_steps] times and a result is returned whatever
    [deviation_scale] is, zero and negative values included. *)
Theorem configuration_is_not_validated (iterator_func : vec -> vec) (starting_point : vec)
    (deviation_scale : fval) (N part_time_steps : Z) (dt : fval)
    (initial_perturbation : perturbation_arg) (return_convergence : bool) (D : nat) :
  preserves_dim iterator_func D ->
  length starting_point = D ->
  length (direction starting_point initial_perturbation) = D ->
  let r := largest_lyapunov_exponent iterator_func starting_point deviation_scale N
             part_time_steps dt initial_perturbation return_convergence in
  ((N < 0)%Z -> iterator_calls r = 0%nat /\ returned r = Raise ValueError)
  /\ ((N = 0)%Z \/ (0 <= N)%Z /\ (part_time_steps <= 0)%Z ->
      iterator_calls r = 0%nat /\ exists o : output, returned r = Ok o)
  /\ ((1 <= N)%Z -> (1 <= part_time_steps)%Z ->
      Z.of_nat (iterator_calls r) = (2 * N * part_time_steps)%Z
      /\ (0 < iterator_calls r)%nat
      /\ exists o : output, returned r = Ok o).
Proof.
  intros Hdim Hs Hd r. split; [| split].
  - intro HN. subst r. unfold largest_lyapunov_exponent.
    rewrite estimate_negative_N by assumption. split; reflexivity.
  - intro H.
    destruct (largest_lyapunov_exponent_run iterator_func starting_point deviation_scale N
                part_time_steps dt initial_perturbation return_convergence D
                Hdim Hs Hd ltac:(lia)) as [Hc Hr].
    fold r in Hc, Hr. split; [| eexists; exact Hr].
    rewrite Hc. destruct H as [-> | [_ Hp]]; [reflexivity |].
    replace (Z.to_nat part_time_steps) with 0%nat by lia. lia.
  - intros HN Hp.
    destruct (largest_lyapunov_exponent_run iterator_func starting_point deviation_scale N
                part_time_steps dt initial_perturbation return_convergence D
                Hdim Hs Hd ltac:(lia)) as [Hc Hr].
    fold r in Hc, Hr. rewrite Hc. split; [lia |]. split; [nia |].
    eexists; exact Hr.
Qed.

Lemma configuration_is_not_validated_witness :
  preserves_dim doubling 1
  /\ (1 <= 3)%Z /\ (1 <= 2)%Z
  /\ Z.of_nat (iterator_calls
                 (largest_lyapunov_exponent doubling [Fin 1] (Fin (-1)) 3 2 (Fin 1)
                    PNone false))
     = 12%Z
  /\ exists o : output,
      returned (largest_lyapunov_exponent doubling [Fin 1] (Fin (-1)) 3 2 (Fin 1)
                  PNone false)
      = Ok o.
Proof.
  split; [apply doubling_preserves_dim |]. split; [lia |]. split; [lia |].
  destruct (configuration_is_not_validated doubling [Fin 1] (Fin (-1)) 3 2 (Fin 1)
              PNone false 1 (doubling_preserves_dim 1) eq_refl eq_refl)
    as (_ & _ & H).
  destruct (H ltac:(lia) ltac:(lia)) as (H1 & _ & H2).
  split; [exact H1 | exact H2].
Defined.

(** C3 as stated fails: with [N = 0], with [part_time_steps = 0] and
    with [deviation_scale = 0] the call is not rejected, and with
    [deviation_scale = 0] the iterator is called. *)
Lemma nonpositive_configuration_not_rejected :
  ~ rejected_before_any_call
      (largest_lyapunov_exponent doubling [Fin 1] (Fin 1) 0 1 (Fin 1) PNone true)
  /\ ~ rejected_before_any_call
         (largest_lyapunov_exponent doubling [Fin 1] (Fin 1) 1 0 (Fin 1) PNone true)
  /\ ~ rejected_before_any_call
         (largest_lyapunov_exponent doubling [Fin 1] (Fin 0) 1 1 (Fin 1) PNone true)
  /\ iterator_calls
       (largest_lyapunov_exponent doubling [Fin 1] (Fin 0) 1 1 (Fin 1) PNone true)
     = 2%nat.
Proof.
  assert (forall (ds : fval) (N pts : Z), (0 <= N)%Z ->
            let r := largest_lyapunov_exponent doubling [Fin 1] ds N pts (Fin 1) PNone true in
            iterator_calls r = (Z.to_nat N * (2 * Z.to_nat pts))%nat
            /\ ~ rejected_before_any_call r) as H.
  { intros ds N pts HN r.
    destruct (largest_lyapunov_exponent_run doubling [Fin 1] ds N pts (Fin 1) PNone true 1
                (doubling_preserves_dim 1) eq_refl eq_refl HN) as [Hc Hr].
    fold r in Hc, Hr. split; [exact Hc |].
    intros [_ [e He]]. rewrite Hr in He. discriminate. }
  split; [apply (H (Fin 1) 0%Z 1%Z); lia |].
  split; [apply (H (Fin 1) 1%Z 0%Z); lia |].
  split; [apply (H (Fin 0) 1%Z 1%Z); lia |].
  apply (H (Fin 0) 1%Z 1%Z). lia.
Qed.




(* ================================================================= *)
(** ** Further properties of the estimator: what the blocks decide *)

Lemma Forall_of_nth_error {A : Type} (P : A -> Prop) (l : list A) :
  (forall (j : nat) (a : A), nth_error l j = Some a -> P a) -> Forall P l.
Proof.
  intro H. apply Forall_forall. intros a Ha.
  destruct (In_nth_error l a Ha) as [j Hj]. exact (H j a Hj).
Qed.

Lemma eq_repeat_of_nth_error {A : Type} (c : A) (l : list A) (n : nat) :
  length l = n ->
  (forall j : nat, (j < n)%nat -> nth_error l j = Some c) ->
  l = repeat c n.
Proof.
  revert n. induction l as [| a l IH]; intros n Hl H; subst n; simpl in *.
  - reflexivity.
  - f_equal.
    + specialize (H 0%nat ltac:(lia)). simpl in H. congruence.
    + apply IH; [reflexivity |]. intros j Hj. exact (H (S j) ltac:(lia)).
Qed.

Section Outputs.

Variable iterator_func : vec -> vec.
Variable starting_point : vec.
Variable deviation_scale : fval.
Variable N part_time_steps : Z.
Variable dt : fval.
Variable initial_perturbation : perturbation_arg.
Variable D : nat.
Hypothesis Hdim : preserves_dim iterator_func D.
Hypothesis Hs : length starting_point = D.
Hypothesis Hd : length (direction starting_point initial_perturbation) = D.
Hypothesis HN : (0 <= N)%Z.

Local Abbreviation s0 := (initial_state starting_point deviation_scale initial_perturbation).
Local Abbreviation logs :=
  (log_divergences iterator_func deviation_scale part_time_steps s0).
Local Abbreviation run b :=
  (largest_lyapunov_exponent iterator_func starting_point deviation_scale N
     part_time_steps dt initial_perturbation b).

(** The trace, as a list of its entries given by index. *)
Lemma trace_by_index :
  exists out : vec,
    returned (run true) = Ok (Trace out)
    /\ length out = Z.to_nat N
    /\ forall (j : nat) (a : fval), nth_error out j = Some a ->
         (j < Z.to_nat N)%nat
         /\ a = fdiv (fsum (logs (S j)))
                  (fmul (fmul (Fin (INR (S j))) dt) (Fin (IZR part_time_steps))).
Proof.
  destruct (convergence_trace_run iterator_func starting_point deviation_scale N
              part_time_steps dt initial_perturbation D Hdim Hs Hd HN)
    as (out & Hout & Hlen & Hnth).
  exists out. split; [exact Hout |]. split; [exact Hlen |].
  intros j a Hj.
  assert (j < Z.to_nat N)%nat as Hlt.
  { rewrite <- Hlen. apply nth_error_Some. congruence. }
  split; [exact Hlt |].
  specialize (Hnth (S j) ltac:(lia)).
  replace (S j - 1)%nat with j in Hnth by lia. congruence.
Qed.

Lemma scalar_by_sum :
  returned (run false)
  = Ok (Scalar (fdiv (fdiv (fsum (logs (Z.to_nat N))) (Fin (INR (Z.to_nat N))))
                  (fmul dt (Fin (IZR part_time_steps))))).
Proof.
  destruct (largest_lyapunov_exponent_run iterator_func starting_point deviation_scale N
              part_time_steps dt initial_perturbation false D Hdim Hs Hd HN) as [_ Hr].
  rewrite Hr. cbn [aggregate]. unfold np_average.
  now rewrite log_divergences_length.
Qed.

(** If no block has a finite log-divergence, nothing finite is returned. *)
Lemma outputs_not_finite :
  (forall i : nat,
      is_finite (log_divergence_of iterator_func deviation_scale part_time_steps s0 i)
      = false) ->
  (exists out : vec,
      returned (run true) = Ok (Trace out)
      /\ length out = Z.to_nat N /\ none_finite out)
  /\ ((1 <= N)%Z ->
      exists a : fval, returned (run false) = Ok (Scalar a) /\ is_finite a = false).
Proof.
  intro Hlog.
  assert (forall k : nat, (1 <= k)%nat -> is_finite (fsum (logs k)) = false) as Hsum.
  { intros k Hk. eapply fsum_not_finite; [| exact (Hlog 0%nat)].
    unfold log_divergences. apply in_map, in_seq. lia. }
  split.
  - destruct trace_by_index as (out & Hout & Hlen & Hnth).
    exists out. split; [exact Hout |]. split; [exact Hlen |].
    apply Forall_of_nth_error. intros j a Hj.
    destruct (Hnth j a Hj) as [_ ->]. apply fdiv_not_finite, Hsum. lia.
  - intro H1. eexists. split; [apply scalar_by_sum |].
    do 2 apply fdiv_not_finite. apply Hsum. lia.
Qed.

(** If every block has the log-divergence NaN, everything returned is NaN. *)
Lemma outputs_nan :
  (forall i : nat,
      log_divergence_of iterator_func deviation_scale part_time_steps s0 i = NaN) ->
  returned (run true) = Ok (Trace (nan_array (Z.to_nat N)))
  /\ ((1 <= N)%Z -> returned (run false) = Ok (Scalar NaN)).
Proof.
  intro Hlog.
  assert (forall k : nat, (1 <= k)%nat -> fsum (logs k) = NaN) as Hsum.
  { intros k Hk. destruct k as [| k]; [lia |].
    unfold log_divergences, fsum. rewrite seq_S, map_app, fold_left_app.
    cbn [map fold_left Nat.add]. rewrite Hlog.
    now destruct (fold_left fadd _ _). }
  split.
  - destruct trace_by_index as (out & Hout & Hlen & Hnth).
    rewrite Hout. do 2 f_equal. apply eq_repeat_of_nth_error; [exact Hlen |].
    intros j Hj. destruct (nth_error out j) as [a |] eqn:E.
    + destruct (Hnth j a E) as [_ ->]. now rewrite Hsum by lia.
    + apply nth_error_None in E. lia.
  - intro H1. rewrite scalar_by_sum, Hsum by lia. reflexivity.
Qed.

End Outputs.

(* ================================================================= *)
(** ** A deviation scale that is not positive *)

(** A norm is a finite number that is not negative, or [+inf], or NaN. *)
Lemma norm_cases (v : vec) :
  (exists n : R, 0 <= n /\ norm v = Fin n) \/ norm v = PInf \/ norm v = NaN.
Proof.
  unfold norm. destruct (fsum _) as [x | | |]; cbn [fsqrt]; auto.
  destruct (Rsign x); auto; left; exists (sqrt x); split; auto; apply sqrt_pos.
Qed.

Lemma flog_nonpositive_scale (v : vec) (s : R) :
  s <= 0 -> is_finite (flog (fdiv (norm v) (Fin s))) = false.
Proof.
  intro Hs. destruct (norm_cases v) as [(n & Hn & ->) | [-> | ->]]; cbn [fdiv].
  - destruct (Rsign_cases s) as [[E H] | [[E H] | [E H]]]; rewrite E; [lra | |].
    + destruct (Rsign n); reflexivity.
    + cbn [flog]. destruct (Rsign_cases (n / s)) as [[E' H'] | [[E' H'] | [E' H']]];
        rewrite E'; try reflexivity.
      exfalso. unfold Rdiv in H'. assert (/ s < 0) by now apply Rinv_lt_0_compat. nra.
  - destruct (Rsign s); reflexivity.
  - reflexivity.
Qed.

(** X1.  With a [deviation_scale] that is zero or negative nothing is
    rejected and nothing finite comes out: on arrays of one length kept
    by the iterator and [N >= 1], every entry of the trace is an infinity
    or a NaN, and so is the scalar, whatever the iterator computes. *)
Theorem nonpositive_scale_returns_nothing_finite (iterator_func : vec -> vec)
    (starting_point : vec) (s : R) (N part_time_steps : Z) (dt : fval)
    (initial_perturbation : perturbation_arg) (D : nat) :
  preserves_dim iterator_func D ->
  length starting_point = D ->
  length (direction starting_point initial_perturbation) = D ->
  (1 <= N)%Z -> s <= 0 ->
  (exists out : vec,
      returned (largest_lyapunov_exponent iterator_func starting_point (Fin s) N
                  part_time_steps dt initial_perturbation true)
      = Ok (Trace out)
      /\ length out = Z.to_nat N /\ none_finite out)
  /\ (exists a : fval,
        returned (largest_lyapunov_exponent iterator_func starting_point (Fin s) N
                    part_time_steps dt initial_perturbation false)
        = Ok (Scalar a)
        /\ is_finite a = false).
Proof.
  intros Hdim Hs Hd HN Hneg.
  destruct (outputs_not_finite iterator_func starting_point (Fin s) N part_time_steps dt
              initial_perturbation D Hdim Hs Hd ltac:(lia)) as [H1 H2].
  { intro i. apply flog_nonpositive_scale. exact Hneg. }
  split; [exact H1 | exact (H2 HN)].
Qed.

Lemma nonpositive_scale_returns_nothing_finite_witness :
  preserves_dim doubling 2
  /\ -1 <= 0
  /\ exists a : fval,
      returned (largest_lyapunov_exponent doubling [Fin 1; Fin 2] (Fin (-1)) 3 2 (Fin 1)
                  PNone false)
      = Ok (Scalar a)
      /\ is_finite a = false.
Proof.
  split; [apply doubling_preserves_dim |]. split; [lra |].
  exact (proj2 (nonpositive_scale_returns_nothing_finite doubling [Fin 1; Fin 2] (-1) 3 2
                  (Fin 1) PNone 2 (doubling_preserves_dim 2) eq_refl eq_refl
                  ltac:(lia) ltac:(lra))).
Defined.

(* ================================================================= *)
(** ** Empty inputs *)

Lemma np_average_nil : np_average [] = NaN.
Proof.
  unfold np_average, fsum. cbn [fold_left length]. change (INR 0) with 0.
  cbn [fdiv]. now rewrite Rsign_zero.
Qed.

(** X2.  With [N = 0] and arrays of one length the iterator is never
    called and nothing is raised: convergence mode returns the empty
    sequence and scalar mode returns NaN (the mean of no numbers). *)
Theorem zero_blocks (iterator_func : vec -> vec) (starting_point : vec)
    (deviation_scale : fval) (part_time_steps : Z) (dt : fval)
    (initial_perturbation : perturbation_arg) :
  length (direction starting_point initial_perturbation) = length starting_point ->
  let run b := largest_lyapunov_exponent iterator_func starting_point deviation_scale 0
                 part_time_steps dt initial_perturbation b in
  iterator_calls (run true) = 0%nat
  /\ returned (run true) = Ok (Trace [])
  /\ iterator_calls (run false) = 0%nat
  /\ returned (run false) = Ok (Scalar NaN).
Proof.
  intros Hd run.
  assert (forall b : bool,
            iterator_calls (run b) = 0%nat
            /\ returned (run b) = Ok (if b then Trace [] else Scalar NaN)) as H.
  { intro b. subst run. unfold largest_lyapunov_exponent, estimate, np_zeros, np_add.
    cbn [Z.ltb Z.compare Z.to_nat repeat for_range].
    rewrite broadcast2_same_length.
    2: { unfold rescaled. rewrite vscale_length.
         destruct initial_perturbation; cbn [direction] in *;
           rewrite ?vscale_length; congruence. }
    destruct b; cbn [lift bind ret iterator_calls returned np_cumsum].
    - split; reflexivity.
    - rewrite np_average_nil. split; reflexivity. }
  destruct (H true) as [H1 H2], (H false) as [H3 H4]. auto.
Qed.

Lemma zero_blocks_witness :
  length (direction [Fin 1; Fin 2] (PArray [Fin 0; Fin 1])) = length [Fin 1; Fin 2]
  /\ returned (largest_lyapunov_exponent doubling [Fin 1; Fin 2] (Fin 1) 0 5 (Fin 1)
                 (PArray [Fin 0; Fin 1]) false)
     = Ok (Scalar NaN).
Proof.
  split; [reflexivity |].
  exact (proj2 (proj2 (proj2 (zero_blocks doubling [Fin 1; Fin 2] (Fin 1) 5 (Fin 1)
                                (PArray [Fin 0; Fin 1]) eq_refl)))).
Defined.

(** X3.  An empty [starting_point] is not rejected: with an iterator
    that maps the empty array to itself and [N >= 1], every measured
    norm is zero, nothing is raised, and every entry of the trace and the
    scalar are infinities or NaNs. *)
Theorem empty_state_returns_nothing_finite (iterator_func : vec -> vec)
    (deviation_scale : fval) (N part_time_steps : Z) (dt : fval) :
  iterator_func [] = [] -> (1 <= N)%Z ->
  (exists out : vec,
      returned (largest_lyapunov_exponent iterator_func [] deviation_scale N
                  part_time_steps dt PNone true)
      = Ok (Trace out)
      /\ length out = Z.to_nat N /\ none_finite out)
  /\ (exists a : fval,
        returned (largest_lyapunov_exponent iterator_func [] deviation_scale N
                    part_time_steps dt PNone false)
        = Ok (Scalar a)
        /\ is_finite a = false).
Proof.
  intros Hit HN.
  assert (preserves_dim iterator_func 0) as Hdim.
  { intros v Hv. destruct v; [now rewrite Hit | discriminate]. }
  destruct (outputs_not_finite iterator_func [] deviation_scale N part_time_steps dt
              PNone 0 Hdim eq_refl eq_refl ltac:(lia)) as [H1 H2].
  { intro i.
    destruct (state_before_dim iterator_func deviation_scale part_time_steps 0 Hdim
                (initial_state [] deviation_scale PNone) i eq_refl eq_refl) as [E1 E2].
    pose proof (divergence_dim iterator_func part_time_steps 0 Hdim _ E1 E2) as E.
    unfold log_divergence_of, log_div, state_before.
    destruct (divergence iterator_func part_time_steps _); [| discriminate].
    change (norm []) with (fsqrt (Fin 0)). rewrite fsqrt_Fin, sqrt_0 by lra.
    apply flog_zero_not_finite. }
  split; [exact H1 | exact (H2 HN)].
Qed.

Lemma empty_state_returns_nothing_finite_witness :
  doubling [] = [] /\ (1 <= 2)%Z
  /\ exists a : fval,
      returned (largest_lyapunov_exponent doubling [] (Fin 1) 2 3 (Fin 1) PNone false)
      = Ok (Scalar a)
      /\ is_finite a = false.
Proof.
  split; [reflexivity |]. split; [lia |].
  exact (proj2 (empty_state_returns_nothing_finite doubling (Fin 1) 2 3 (Fin 1)
                  eq_refl ltac:(lia))).
Defined.

(* ================================================================= *)
(** ** A direction that is the zero vector *)

Lemma fold_left_fadd_NaN (v : vec) : fold_left fadd v NaN = NaN.
Proof. induction v as [| a v IH]; simpl; auto. Qed.

Lemma norm_nan_array (D : nat) : (1 <= D)%nat -> norm (nan_array D) = NaN.
Proof.
  intro HD. destruct D as [| D]; [lia |].
  unfold norm, fsum, nan_array. cbn [repeat map fold_left fmul fadd].
  now rewrite fold_left_fadd_NaN.
Qed.

Lemma map2_fadd_nan_array (x : vec) : map2 fadd x (nan_array (length x)) = nan_array (length x).
Proof.
  induction x as [| a x IH]; simpl; auto. unfold nan_array in IH. rewrite IH.
  now destruct a.
Qed.

Lemma map2_fsub_nan_array (x : vec) : map2 fsub (nan_array (length x)) x = nan_array (length x).
Proof.
  induction x as [| a x IH]; simpl; auto. unfold nan_array in IH. rewrite IH.
  now destruct a.
Qed.

Lemma vscale_nan_array (D : nat) (c : fval) : vscale (nan_array D) c = nan_array D.
Proof. unfold vscale, nan_array. now rewrite map_repeat. Qed.

Lemma norm_zero_array (D : nat) : norm (repeat (Fin 0) D) = Fin 0.
Proof.
  rewrite <- (map_repeat 0 D Fin), norm_Fin. f_equal. unfold Rnorm, Rsum.
  rewrite map_repeat, fold_left_Rplus_repeat.
  replace (0 + INR D * (0 * 0)) with 0 by lra. apply sqrt_0.
Qed.

(** Line 45 turns the zero vector into NaNs, whatever the scale is. *)
Lemma rescaled_zero_array (deviation_scale : fval) (D : nat) :
  rescaled deviation_scale (repeat (Fin 0) D) = nan_array D.
Proof.
  unfold rescaled, vscale, nan_array. rewrite norm_zero_array, map_repeat. f_equal.
  destruct deviation_scale as [s | | |]; cbn [fdiv]; rewrite ?Rsign_zero;
    try destruct (Rsign s); cbn [signed_inf fmul sgn_opp]; rewrite ?Rsign_zero;
    reflexivity.
Qed.

(** X4.  A supplied direction that is the zero vector is not rejected:
    line 45 turns it into NaNs, so [x_pert] starts as NaNs, and with an
    iterator that keeps the length [D >= 1] and maps the all-NaN array to
    itself every entry of the trace is NaN and so is the scalar. *)
Theorem zero_direction_returns_nan (iterator_func : vec -> vec) (starting_point : vec)
    (deviation_scale : fval) (N part_time_steps : Z) (dt : fval) (D : nat) :
  (1 <= D)%nat ->
  length starting_point = D ->
  preserves_dim iterator_func D ->
  iterator_func (nan_array D) = nan_array D ->
  (1 <= N)%Z ->
  let run b := largest_lyapunov_exponent iterator_func starting_point deviation_scale N
                 part_time_steps dt (PArray (repeat (Fin 0) D)) b in
  initial_perturbation_after (run true) = Some (nan_array D)
  /\ returned (run true) = Ok (Trace (nan_array (Z.to_nat N)))
  /\ returned (run false) = Ok (Scalar NaN).
Proof.
  intros HD Hs Hdim Hnan HN run.
  assert (forall n : nat, Nat.iter n iterator_func (nan_array D) = nan_array D) as Hiter.
  { induction n as [| n IH]; simpl; [reflexivity | now rewrite IH]. }
  set (s0 := initial_state starting_point deviation_scale (PArray (repeat (Fin 0) D))).
  assert (forall i : nat,
            length (fst (state_before iterator_func deviation_scale part_time_steps s0 i))
            = D
            /\ snd (state_before iterator_func deviation_scale part_time_steps s0 i)
               = nan_array D) as Hinv.
  { induction i as [| i [IH1 IH2]].
    - subst s0. unfold initial_state. cbn [state_before Nat.iter nat_rect fst snd direction].
      rewrite rescaled_zero_array. split; [exact Hs |].
      rewrite <- Hs. apply map2_fadd_nan_array.
    - unfold state_before in *. rewrite Nat.iter_succ.
      set (s := Nat.iter i _ s0) in *.
      assert (length (advance iterator_func part_time_steps (fst s)) = D) as E
        by now apply iter_length.
      unfold renormalize, divergence, measured. cbn [fst snd].
      split; [exact E |].
      rewrite IH2. unfold advance at 2 4 5. rewrite Hiter, <- E.
      now rewrite map2_fsub_nan_array, vscale_nan_array, map2_fadd_nan_array. }
  assert (forall i : nat,
            log_divergence_of iterator_func deviation_scale part_time_steps s0 i = NaN)
    as Hlog.
  { intro i. destruct (Hinv i) as [E1 E2].
    unfold log_divergence_of, log_div, divergence, measured. cbn [fst snd].
    rewrite E2. unfold advance at 1. rewrite Hiter.
    assert (length (advance iterator_func part_time_steps
                      (fst (state_before iterator_func deviation_scale part_time_steps
                              s0 i))) = D) as E by now apply iter_length.
    rewrite <- E at 1. rewrite map2_fsub_nan_array, E, norm_nan_array by exact HD.
    reflexivity. }
  destruct (outputs_nan iterator_func starting_point deviation_scale N part_time_steps dt
              (PArray (repeat (Fin 0) D)) D Hdim Hs ltac:(apply repeat_length)
              ltac:(lia) Hlog) as [H1 H2].
  split; [| split; [exact H1 | exact (H2 HN)]].
  subst run. unfold largest_lyapunov_exponent. cbn [direction].
  destruct (estimate _ _ _ _ _ _ _ _ _) as [calls r]. cbn [initial_perturbation_after].
  now rewrite rescaled_zero_array.
Qed.

Lemma doubling_nan_array (D : nat) : doubling (nan_array D) = nan_array D.
Proof. apply vscale_nan_array. Qed.

Lemma zero_direction_returns_nan_witness :
  preserves_dim doubling 2
  /\ doubling (nan_array 2) = nan_array 2
  /\ returned (largest_lyapunov_exponent doubling [Fin 1; Fin 2] (Fin 1) 3 2 (Fin 1)
                 (PArray [Fin 0; Fin 0]) true)
     = Ok (Trace [NaN; NaN; NaN]).
Proof.
  split; [apply doubling_preserves_dim |]. split; [apply doubling_nan_array |].
  exact (proj1 (proj2 (zero_direction_returns_nan doubling [Fin 1; Fin 2] (Fin 1) 3 2
                         (Fin 1) 2 ltac:(lia) eq_refl (doubling_preserves_dim 2)
                         (doubling_nan_array 2) ltac:(lia)))).
Defined.

(* ================================================================= *)
(** ** Blocks that all measure the same growth *)

Lemma fsum_constant (f : nat -> fval) (c : R) (k : nat) :
  (forall i : nat, f i = Fin c) -> fsum (map f (seq 0 k)) = Fin (INR k * c).
Proof.
  intro Hf. rewrite (map_ext f (fun _ => Fin c)) by exact Hf.
  rewrite <- (map_map (fun _ => c) Fin), fsum_Fin. f_equal. unfold Rsum.
  replace (map (fun _ : nat => c) (seq 0 k)) with (repeat c k).
  - rewrite fold_left_Rplus_repeat. lra.
  - generalize 0%nat. induction k as [| k IH]; intro n; simpl; [reflexivity |].
    now rewrite <- IH.
Qed.

Section ConstantBlocks.

Variable iterator_func : vec -> vec.
Variable scale : R.
Variable part_time_steps : Z.
Variable D : nat.
Variable growth : R.
Hypothesis Hdim : preserves_dim iterator_func D.
Hypothesis Hfin : preserves_finite iterator_func.
Hypothesis Hscale : 0 < scale.

(** Every block that starts from a finite pair with an offset of norm
    [scale] measures the norm [growth * scale], with [growth > 0]. *)
Hypothesis Hgrowth : 0 < growth.
Hypothesis Hstep :
  forall s : vec * vec,
    length (fst s) = D -> length (snd s) = D -> finite_state s ->
    norm (offset s) = Fin scale ->
    norm (divergence iterator_func part_time_steps s) = Fin (growth * scale).

Local Abbreviation state := (state_before iterator_func (Fin scale) part_time_steps).

Lemma constant_growth_states (s0 : vec * vec) (i : nat) :
  length (fst s0) = D -> length (snd s0) = D ->
  finite_state s0 -> norm (offset s0) = Fin scale ->
  finite_state (state s0 i) /\ norm (offset (state s0 i)) = Fin scale.
Proof.
  intros H1 H2 Hf Hn.
  apply (state_before_invariant iterator_func scale part_time_steps D Hdim Hfin
           ltac:(lra) s0 i H1 H2 Hf Hn).
  induction i as [| i IH]; intros j Hj; [lia |].
  assert (forall j' : nat, (j' < i)%nat ->
            norm_dx_of iterator_func (Fin scale) part_time_steps s0 j' <> Fin 0) as IH'
    by (intros j' Hj'; apply IH; lia).
  destruct (Nat.eq_dec j i) as [-> | Hne]; [| apply IH'; lia].
  destruct (state_before_invariant iterator_func scale part_time_steps D Hdim Hfin
              ltac:(lra) s0 i H1 H2 Hf Hn IH') as [Hfi Hni].
  destruct (state_before_dim iterator_func (Fin scale) part_time_steps D Hdim s0 i H1 H2)
    as [E1 E2].
  unfold norm_dx_of, state_before in *. rewrite (Hstep _ E1 E2 Hfi Hni).
  intro E. injection E as E. nra.
Qed.

Lemma constant_growth_log (s0 : vec * vec) (i : nat) :
  length (fst s0) = D -> length (snd s0) = D ->
  finite_state s0 -> norm (offset s0) = Fin scale ->
  log_divergence_of iterator_func (Fin scale) part_time_steps s0 i = Fin (ln growth).
Proof.
  intros H1 H2 Hf Hn.
  destruct (constant_growth_states s0 i H1 H2 Hf Hn) as [Hfi Hni].
  destruct (state_before_dim iterator_func (Fin scale) part_time_steps D Hdim s0 i H1 H2)
    as [E1 E2].
  unfold log_divergence_of, log_div, state_before in *.
  rewrite (Hstep _ E1 E2 Hfi Hni), fdiv_Fin by lra.
  replace (growth * scale / scale) with growth by (field; lra).
  now apply flog_Fin.
Qed.

End ConstantBlocks.

(** Without any iterator call in a block the offset is what it was. *)
Lemma divergence_without_steps (iterator_func : vec -> vec) (s : vec * vec) :
  divergence iterator_func 0 s = offset s.
Proof. reflexivity. Qed.

(** Two loop bodies that do the same give the same loop. *)
Lemma for_range_ext {S : Type} (count start : nat) (body body' : nat -> S -> M S)
    (s : S) (c : nat) :
  (forall (i : nat) (s' : S) (c' : nat), body i s' c' = body' i s' c') ->
  for_range count start body s c = for_range count start body' s c.
Proof.
  intro H. revert start s c. induction count as [| count IH]; intros start s c.
  - reflexivity.
  - cbn [for_range]. unfold bind. rewrite H.
    destruct (body' start s c) as [c' [s' | e]]; [apply IH | reflexivity].
Qed.

(** With no step in a block the iterator is not looked at: any other
    iterator gives the same call. *)
Lemma no_steps_any_iterator (f g : vec -> vec) (starting_point : vec)
    (deviation_scale : fval) (N part_time_steps : Z) (dt : fval)
    (initial_perturbation : perturbation_arg) (return_convergence : bool) :
  (part_time_steps <= 0)%Z ->
  largest_lyapunov_exponent f starting_point deviation_scale N part_time_steps dt
    initial_perturbation return_convergence
  = largest_lyapunov_exponent g starting_point deviation_scale N part_time_steps dt
      initial_perturbation return_convergence.
Proof.
  intro Hp. assert (Z.to_nat part_time_steps = 0%nat) as Ep by lia.
  unfold largest_lyapunov_exponent.
  set (p := rescaled deviation_scale (direction starting_point initial_perturbation)).
  set (x := match initial_perturbation with PSameObject => p | _ => starting_point end).
  replace (estimate f x deviation_scale N part_time_steps dt p return_convergence 0%nat)
    with (estimate g x deviation_scale N part_time_steps dt p return_convergence 0%nat);
    [reflexivity |].
  unfold estimate, bind, lift.
  destruct (np_zeros N) as [log_divergence | e]; [| reflexivity].
  destruct (np_add x p) as [x_pert | e]; [| reflexivity].
  rewrite (for_range_ext (Z.to_nat N) 0 (block g deviation_scale part_time_steps)
             (block f deviation_scale part_time_steps)); [reflexivity |].
  intros i [[y y_pert] l] c. unfold block, advance_both. rewrite Ep. reflexivity.
Qed.

Lemma stay_preserves_dim (D : nat) : preserves_dim stay D.
Proof. intros v H. exact H. Qed.

(** A division by [a * 0] never gives a finite number. *)
Lemma fdiv_by_zero_product (x a : fval) : is_finite (fdiv x (fmul a (Fin 0))) = false.
Proof.
  assert (fmul a (Fin 0) = Fin 0 \/ fmul a (Fin 0) = NaN) as [-> | ->].
  { destruct a as [d | | |]; cbn [fmul]; rewrite ?Rsign_zero; cbn [signed_inf sgn_opp];
      auto.
    left. f_equal. lra. }
  - destruct x as [r | | |]; cbn [fdiv]; rewrite ?Rsign_zero; try reflexivity.
    destruct (Rsign r); reflexivity.
  - destruct x; reflexivity.
Qed.

(** X5.  [part_time_steps = 0] is not rejected.  On arrays of one
    length and with [N >= 0], whatever the iterator, [deviation_scale]
    and [dt] are: the iterator is never called, a result is returned, and
    the division by [dt * 0] leaves nothing finite in it: every entry of
    the trace and the scalar are an infinity or NaN. *)
Theorem zero_part_time_steps_returns_nothing_finite (iterator_func : vec -> vec)
    (starting_point : vec) (deviation_scale : fval) (N : Z) (dt : fval)
    (initial_perturbation : perturbation_arg) (D : nat) :
  length starting_point = D ->
  length (direction starting_point initial_perturbation) = D ->
  (0 <= N)%Z ->
  let run b := largest_lyapunov_exponent iterator_func starting_point deviation_scale N 0
                 dt initial_perturbation b in
  iterator_calls (run true) = 0%nat
  /\ iterator_calls (run false) = 0%nat
  /\ (exists out : vec,
        returned (run true) = Ok (Trace out)
        /\ length out = Z.to_nat N /\ none_finite out)
  /\ (exists a : fval, returned (run false) = Ok (Scalar a) /\ is_finite a = false).
Proof.
  intros Hs Hd HN run.
  assert (forall b : bool,
            run b = largest_lyapunov_exponent stay starting_point deviation_scale N 0 dt
                      initial_perturbation b) as Hstay
    by (intro b; apply no_steps_any_iterator; lia).
  rewrite !Hstay.
  assert (forall b : bool,
            iterator_calls (largest_lyapunov_exponent stay starting_point deviation_scale N
                              0 dt initial_perturbation b) = 0%nat) as Hcalls.
  { intro b.
    destruct (largest_lyapunov_exponent_run stay starting_point deviation_scale N 0 dt
                initial_perturbation b D (stay_preserves_dim D) Hs Hd HN) as [-> _].
    cbn [Z.to_nat]. lia. }
  split; [apply Hcalls |]. split; [apply Hcalls |]. split.
  - destruct (trace_by_index stay starting_point deviation_scale N 0 dt
                initial_perturbation D (stay_preserves_dim D) Hs Hd HN)
      as (out & Hout & Hlen & Hnth).
    exists out. split; [exact Hout |]. split; [exact Hlen |].
    apply Forall_of_nth_error. intros j a Hj.
    destruct (Hnth j a Hj) as [_ ->]. apply fdiv_by_zero_product.
  - eexists. split.
    + apply (scalar_by_sum stay starting_point deviation_scale N 0 dt
               initial_perturbation D (stay_preserves_dim D) Hs Hd HN).
    + apply fdiv_by_zero_product.
Qed.


Lemma norm_direction_none (starting_point : vec) :
  (1 <= length starting_point)%nat -> norm (direction starting_point PNone) <> Fin 0.
Proof. intro H. now apply norm_np_ones_nonzero. Qed.

Lemma zero_part_time_steps_returns_nothing_finite_witness :
  (0 <= 2)%Z
  /\ iterator_calls (largest_lyapunov_exponent doubling [Fin 1; Fin 2] (Fin 1) 2 0 (Fin 1)
                       PNone true) = 0%nat
  /\ exists out : vec,
       returned (largest_lyapunov_exponent doubling [Fin 1; Fin 2] (Fin 1) 2 0 (Fin 1)
                   PNone true)
       = Ok (Trace out)
       /\ length out = 2%nat /\ none_finite out.
Proof.
  destruct (zero_part_time_steps_returns_nothing_finite doubling [Fin 1; Fin 2] (Fin 1) 2
              (Fin 1) PNone 2 eq_refl eq_refl ltac:(lia)) as (H1 & _ & H2 & _).
  split; [lia |]. split; [exact H1 | exact H2].
Defined.

(* ================================================================= *)
(** ** The exponent of a linear map *)

Lemma scaling_preserves_dim (a : R) (D : nat) : preserves_dim (scaling a) D.
Proof. intros v H. unfold scaling. now rewrite vscale_length. Qed.

Lemma scaling_preserves_finite (a : R) : preserves_finite (scaling a).
Proof.
  intros v Hv. unfold scaling. rewrite (all_finite_inv v Hv), vscale_Fin.
  apply all_finite_map_Fin.
Qed.

Lemma iter_scaling (a : R) (n : nat) (r : list R) :
  Nat.iter n (scaling a) (map Fin r) = map Fin (map (fun x => x * a ^ n) r).
Proof.
  induction n as [| n IH].
  - cbn [Nat.iter nat_rect]. f_equal. rewrite <- (map_id r) at 1.
    apply map_ext. intro x. simpl. lra.
  - rewrite Nat.iter_succ, IH. unfold scaling. rewrite vscale_Fin.
    f_equal. rewrite map_map. apply map_ext. intro x. simpl. lra.
Qed.

Lemma map2_Rminus_scale (c : R) (x y : list R) :
  map2 Rminus (map (fun a => a * c) x) (map (fun a => a * c) y)
  = map (fun a => a * c) (map2 Rminus x y).
Proof.
  revert y. induction x as [| a x IH]; intros [| b y]; simpl; auto.
  f_equal; [lra | apply IH].
Qed.

(** One block of the linear map multiplies the norm of the offset by
    [|a| ^ part_time_steps]. *)
Lemma scaling_divergence (a : R) (part_time_steps : Z) (s : vec * vec) (scale : R) :
  finite_state s -> norm (offset s) = Fin scale ->
  norm (divergence (scaling a) part_time_steps s)
  = Fin (Rabs a ^ Z.to_nat part_time_steps * scale).
Proof.
  intros [H1 H2] Hn. destruct s as [x x_pert]. cbn [fst snd] in *.
  unfold offset, divergence, measured, advance in *. cbn [fst snd] in *.
  rewrite (all_finite_inv x H1), (all_finite_inv x_pert H2) in *.
  rewrite map2_fsub_Fin, norm_Fin in Hn. injection Hn as Hn.
  rewrite !iter_scaling, map2_fsub_Fin, map2_Rminus_scale, norm_Fin, Rnorm_scale, Hn.
  now rewrite RPow_abs.
Qed.

(** X6.  For the linear map [x -> a x] with [a <> 0] and a valid input
    (finite arrays of one length, a direction of non-zero norm, finite
    [deviation_scale > 0], finite [dt <> 0], [part_time_steps >= 1],
    [N >= 1]) the estimator returns, in exact arithmetic, exactly
    [ln |a| / dt]: as the scalar and as every entry of the trace. *)
Theorem linear_map_exponent (a : R) (starting_point : vec) (scale : R)
    (N part_time_steps : Z) (d : R) (initial_perturbation : perturbation_arg) (D : nat) :
  a <> 0 ->
  length starting_point = D ->
  length (direction starting_point initial_perturbation) = D ->
  all_finite starting_point = true ->
  all_finite (direction starting_point initial_perturbation) = true ->
  norm (direction starting_point initial_perturbation) <> Fin 0 ->
  0 < scale -> d <> 0 -> (1 <= part_time_steps)%Z -> (1 <= N)%Z ->
  let run b := largest_lyapunov_exponent (scaling a) starting_point (Fin scale) N
                 part_time_steps (Fin d) initial_perturbation b in
  returned (run true) = Ok (Trace (repeat (Fin (ln (Rabs a) / d)) (Z.to_nat N)))
  /\ returned (run false) = Ok (Scalar (Fin (ln (Rabs a) / d))).
Proof.
  intros Ha Hs Hd Fs Fd Hn Hscale Hdt Hp HN run.
  pose proof (scaling_preserves_dim a D) as Hdim.
  pose proof (scaling_preserves_finite a) as Hfin.
  set (n := Z.to_nat part_time_steps).
  set (s0 := initial_state starting_point (Fin scale) initial_perturbation).
  assert (0 < Rabs a ^ n) as Hg by (apply pow_lt, Rabs_pos_lt, Ha).
  destruct (initial_state_invariant scale D ltac:(lra) starting_point initial_perturbation
              Hs Hd Fs Fd Hn) as [F0 N0].
  destruct (initial_state_dim starting_point (Fin scale) initial_perturbation D Hs Hd)
    as [E1 E2].
  fold s0 in F0, N0, E1, E2.
  assert (forall i : nat,
            log_divergence_of (scaling a) (Fin scale) part_time_steps s0 i
            = Fin (INR n * ln (Rabs a))) as Hlog.
  { intro i. rewrite <- ln_pow by (apply Rabs_pos_lt, Ha).
    apply (constant_growth_log (scaling a) scale part_time_steps D (Rabs a ^ n)
             Hdim Hfin Hscale Hg); auto.
    intros s _ _ Hf Hns. now apply scaling_divergence. }
  assert (forall k : nat,
            fsum (log_divergences (scaling a) (Fin scale) part_time_steps s0 k)
            = Fin (INR k * (INR n * ln (Rabs a)))) as Hsum.
  { intro k. unfold log_divergences. now rewrite (fsum_constant _ _ k Hlog). }
  assert (IZR part_time_steps = INR n) as Ep.
  { subst n. rewrite INR_IZR_INZ. f_equal. lia. }
  assert (0 < INR n) as Hn0 by (apply lt_0_INR; lia).
  split.
  - destruct (trace_by_index (scaling a) starting_point (Fin scale) N part_time_steps
                (Fin d) initial_perturbation D Hdim Hs Hd ltac:(lia))
      as (out & Hout & Hlen & Hnth).
    subst run; cbv beta. rewrite Hout. do 2 f_equal.
    apply eq_repeat_of_nth_error; [exact Hlen |].
    intros j Hj. destruct (nth_error out j) as [x |] eqn:E.
    + destruct (Hnth j x E) as [_ ->]. fold s0. rewrite Hsum. f_equal.
      assert (0 < INR (S j)) as Hk by (apply lt_0_INR; lia).
      cbn [fmul]. rewrite Ep, fdiv_Fin.
      * f_equal. field. lra.
      * repeat apply Rmult_integral_contrapositive_currified; lra.
    + apply nth_error_None in E. lia.
  - subst run; cbv beta.
    rewrite (scalar_by_sum (scaling a) starting_point (Fin scale) N part_time_steps
               (Fin d) initial_perturbation D Hdim Hs Hd ltac:(lia)).
    fold s0. rewrite Hsum.
    assert (0 < INR (Z.to_nat N)) as Hk by (apply lt_0_INR; lia).
    cbn [fmul]. rewrite Ep, (fdiv_Fin _ (INR (Z.to_nat N))) by lra.
    rewrite fdiv_Fin.
    + do 3 f_equal. field. lra.
    + apply Rmult_integral_contrapositive_currified; lra.
Qed.

Lemma linear_map_exponent_witness :
  / 2 <> 0
  /\ norm (direction [Fin 1; Fin 2; Fin 3] PNone) <> Fin 0
  /\ returned (largest_lyapunov_exponent (scaling (/ 2)) [Fin 1; Fin 2; Fin 3] (Fin 1) 4 3
                 (Fin 1) PNone false)
     = Ok (Scalar (Fin (ln (Rabs (/ 2)) / 1))).
Proof.
  assert (norm (direction [Fin 1; Fin 2; Fin 3] PNone) <> Fin 0) as Hn
    by (apply norm_direction_none; simpl; lia).
  split; [lra |]. split; [exact Hn |].
  exact (proj2 (linear_map_exponent (/ 2) [Fin 1; Fin 2; Fin 3] 1 4 3 1 PNone 3
                  ltac:(lra) eq_refl eq_refl eq_refl eq_refl Hn
                  ltac:(lra) ltac:(lra) ltac:(lia) ltac:(lia))).
Defined.

(* ================================================================= *)
(** ** The trace in closed form: longer runs and other time steps *)

Lemma trace_closed_form (iterator_func : vec -> vec) (starting_point : vec)
    (deviation_scale : fval) (N part_time_steps : Z) (dt : fval)
    (initial_perturbation : perturbation_arg) (D : nat) :
  preserves_dim iterator_func D ->
  length starting_point = D ->
  length (direction starting_point initial_perturbation) = D ->
  (0 <= N)%Z ->
  returned (largest_lyapunov_exponent iterator_func starting_point deviation_scale N
              part_time_steps dt initial_perturbation true)
  = Ok (Trace (map (trace_entry iterator_func deviation_scale part_time_steps dt
                      (initial_state starting_point deviation_scale initial_perturbation))
                 (seq 0 (Z.to_nat N)))).
Proof.
  intros Hdim Hs Hd HN.
  destruct (trace_by_index iterator_func starting_point deviation_scale N part_time_steps
              dt initial_perturbation D Hdim Hs Hd HN) as (out & Hout & Hlen & Hnth).
  rewrite Hout. do 2 f_equal. apply nth_error_ext. intro j.
  rewrite nth_error_map.
  destruct (nth_error out j) as [a |] eqn:E.
  - destruct (Hnth j a E) as [Hj ->].
    rewrite (nth_error_nth' (seq 0 (Z.to_nat N)) 0%nat) by (rewrite length_seq; lia).
    rewrite seq_nth by lia. reflexivity.
  - apply nth_error_None in E.
    replace (nth_error (seq 0 (Z.to_nat N)) j) with (@None nat); [reflexivity |].
    symmetry. apply nth_error_None. rewrite length_seq. lia.
Qed.

(** X7.  The trace is a running estimate: on arrays of one length kept
    by the iterator, the trace of a run with [N] blocks is the first [N]
    entries of the trace of a run with [N' >= N] blocks, all other
    arguments being the same. *)
Theorem trace_of_shorter_run_is_prefix (iterator_func : vec -> vec) (starting_point : vec)
    (deviation_scale : fval) (N N' part_time_steps : Z) (dt : fval)
    (initial_perturbation : perturbation_arg) (D : nat) :
  preserves_dim iterator_func D ->
  length starting_point = D ->
  length (direction starting_point initial_perturbation) = D ->
  (0 <= N <= N')%Z ->
  exists out out' : vec,
    returned (largest_lyapunov_exponent iterator_func starting_point deviation_scale N
                part_time_steps dt initial_perturbation true)
    = Ok (Trace out)
    /\ returned (largest_lyapunov_exponent iterator_func starting_point deviation_scale N'
                   part_time_steps dt initial_perturbation true)
       = Ok (Trace out')
    /\ length out = Z.to_nat N
    /\ length out' = Z.to_nat N'
    /\ out = firstn (Z.to_nat N) out'.
Proof.
  intros Hdim Hs Hd HN.
  do 2 eexists.
  split; [apply (trace_closed_form _ _ _ _ _ _ _ D); auto; lia |].
  split; [apply (trace_closed_form _ _ _ _ _ _ _ D); auto; lia |].
  rewrite !length_map, !length_seq. split; [reflexivity |]. split; [reflexivity |].
  rewrite firstn_map, firstn_seq_le by lia. reflexivity.
Qed.

Lemma trace_of_shorter_run_is_prefix_witness :
  preserves_dim doubling 1 /\ (0 <= 2 <= 5)%Z
  /\ exists out out' : vec,
      returned (largest_lyapunov_exponent doubling [Fin 1] (Fin 1) 2 3 (Fin 1) PNone true)
      = Ok (Trace out)
      /\ returned (largest_lyapunov_exponent doubling [Fin 1] (Fin 1) 5 3 (Fin 1) PNone true)
         = Ok (Trace out')
      /\ out = firstn 2 out'.
Proof.
  split; [apply doubling_preserves_dim |]. split; [lia |].
  destruct (trace_of_shorter_run_is_prefix doubling [Fin 1] (Fin 1) 2 5 3 (Fin 1) PNone 1
              (doubling_preserves_dim 1) eq_refl eq_refl ltac:(lia))
    as (out & out' & H1 & H2 & _ & _ & H3).
  exists out, out'. auto.
Defined.

(** Dividing by [q * d] is dividing by [q > 0] and then by [d <> 0]. *)
Lemma fdiv_rescale (S : fval) (q q' d : R) :
  0 < q -> d <> 0 -> q' = q * d ->
  fdiv S (Fin q') = fdiv (fdiv S (Fin q)) (Fin d).
Proof.
  intros Hq Hd ->.
  pose proof (Rsign_pos q Hq) as Eq.
  assert (Rsign (q * d) = Rsign d) as Eqd
    by (rewrite Rsign_mult, Eq; destruct (Rsign d); reflexivity).
  pose proof (Rsign_nonzero d Hd) as Hz.
  destruct S as [x | | |]; cbn [fdiv]; rewrite ?Eqd, ?Eq; cbn [fdiv];
    destruct (Rsign d) eqn:Ed; try congruence; try reflexivity;
    f_equal; field; lra.
Qed.

(** X8.  In exact arithmetic [dt] only rescales the result: for a finite
    [dt <> 0], [N >= 1], [part_time_steps >= 1] and arrays of one length
    kept by the iterator, the trace is the trace computed with [dt = 1],
    every entry divided by [dt], and likewise the scalar.  (On doubles
    [S / ((k * dt) * part_time_steps)] and [(S / (k * part_time_steps)) / dt]
    round differently and can differ in the last place.)  The number of
    iterator calls is the same, whatever the arithmetic. *)
Theorem time_step_only_rescales (iterator_func : vec -> vec) (starting_point : vec)
    (deviation_scale : fval) (N part_time_steps : Z) (d : R)
    (initial_perturbation : perturbation_arg) (D : nat) :
  preserves_dim iterator_func D ->
  length starting_point = D ->
  length (direction starting_point initial_perturbation) = D ->
  (1 <= N)%Z -> (1 <= part_time_steps)%Z -> d <> 0 ->
  let run dt b := largest_lyapunov_exponent iterator_func starting_point deviation_scale N
                    part_time_steps dt initial_perturbation b in
  (exists out1 : vec,
      returned (run (Fin 1) true) = Ok (Trace out1)
      /\ returned (run (Fin d) true) = Ok (Trace (map (fun a => fdiv a (Fin d)) out1)))
  /\ (exists a1 : fval,
        returned (run (Fin 1) false) = Ok (Scalar a1)
        /\ returned (run (Fin d) false) = Ok (Scalar (fdiv a1 (Fin d))))
  /\ iterator_calls (run (Fin d) true) = iterator_calls (run (Fin 1) true).
Proof.
  intros Hdim Hs Hd HN Hp Hdt run.
  assert (0 < IZR part_time_steps) as Hp' by (apply IZR_lt; lia).
  split; [| split].
  - eexists. subst run; cbv beta.
    split; [apply (trace_closed_form _ _ _ _ _ _ _ D); auto; lia |].
    rewrite (trace_closed_form _ _ _ _ _ _ _ D) by (auto; lia).
    rewrite map_map. do 2 f_equal. apply map_ext. intro j.
    unfold trace_entry. cbn [fmul].
    assert (0 < INR (S j)) as Hk by (apply lt_0_INR; lia).
    apply fdiv_rescale; [nra | exact Hdt | ring].
  - eexists. subst run; cbv beta.
    split; [apply (scalar_by_sum _ _ _ _ _ _ _ D); auto; lia |].
    rewrite (scalar_by_sum _ _ _ _ _ _ _ D) by (auto; lia).
    do 2 f_equal. cbn [fmul]. apply fdiv_rescale; [lra | exact Hdt | ring].
  - subst run; cbv beta.
    destruct (largest_lyapunov_exponent_run iterator_func starting_point deviation_scale N
                part_time_steps (Fin d) initial_perturbation true D Hdim Hs Hd ltac:(lia))
      as [-> _].
    destruct (largest_lyapunov_exponent_run iterator_func starting_point deviation_scale N
                part_time_steps (Fin 1) initial_perturbation true D Hdim Hs Hd ltac:(lia))
      as [-> _].
    reflexivity.
Qed.

Lemma time_step_only_rescales_witness :
  preserves_dim doubling 1 /\ / 100 <> 0
  /\ exists a1 : fval,
      returned (largest_lyapunov_exponent doubling [Fin 1] (Fin 1) 2 3 (Fin 1) PNone false)
      = Ok (Scalar a1)
      /\ returned (largest_lyapunov_exponent doubling [Fin 1] (Fin 1) 2 3 (Fin (/ 100))
                     PNone false)
         = Ok (Scalar (fdiv a1 (Fin (/ 100)))).
Proof.
  split; [apply doubling_preserves_dim |]. split; [lra |].
  exact (proj1 (proj2 (time_step_only_rescales doubling [Fin 1] (Fin 1) 2 3 (/ 100) PNone 1
                         (doubling_preserves_dim 1) eq_refl eq_refl
                         ltac:(lia) ltac:(lia) ltac:(lra)))).
Defined.

(* ================================================================= *)
(** ** One array passed as starting point and as perturbation *)

(** X9.  When the caller passes the very same array as [starting_point]
    and as [initial_perturbation] (finite, of non-zero norm, with a
    finite [deviation_scale > 0]), line 45 overwrites the starting point
    too: after the call both arrays hold the original multiplied by
    [deviation_scale / norm], and the reference trajectory has started
    from that vector, not from the one that was passed.  In exact
    arithmetic that vector has the norm [deviation_scale], the call
    returns what it returns when that vector is passed as both arguments
    in two arrays, and the whole result is the same when the vector
    passed is multiplied by any [c > 0].  (On doubles the products of
    line 45 round, and those three need not hold to the last place.) *)
Theorem same_array_for_both (iterator_func : vec -> vec) (starting_point : vec)
    (scale : R) (N part_time_steps : Z) (dt : fval) (return_convergence : bool) :
  all_finite starting_point = true -> norm starting_point <> Fin 0 -> 0 < scale ->
  let run x p := largest_lyapunov_exponent iterator_func x (Fin scale) N part_time_steps
                   dt p return_convergence in
  let p := rescaled (Fin scale) starting_point in
  starting_point_after (run starting_point PSameObject) = p
  /\ initial_perturbation_after (run starting_point PSameObject) = Some p
  /\ norm p = Fin scale
  /\ returned (run starting_point PSameObject) = returned (run p (PArray p))
  /\ iterator_calls (run starting_point PSameObject) = iterator_calls (run p (PArray p))
  /\ forall c : R, 0 < c ->
       run (map (fmul (Fin c)) starting_point) PSameObject = run starting_point PSameObject.
Proof.
  intros Hf Hn Hscale run p.
  destruct (rescaled_finite_norm starting_point scale Hf Hn ltac:(lra)) as [Pf Pn].
  fold p in Pf, Pn.
  assert (rescaled (Fin scale) p = p) as Hfix by now apply rescaled_fixed.
  subst run; cbv beta. unfold largest_lyapunov_exponent. cbn [direction]. fold p.
  rewrite Hfix.
  destruct (estimate iterator_func p (Fin scale) N part_time_steps dt p
              return_convergence 0%nat) as [calls r] eqn:E.
  cbn [starting_point_after initial_perturbation_after returned iterator_calls].
  repeat (split; [reflexivity || exact Pn |]).
  intros c Hc. rewrite rescaled_scale_invariant by assumption. fold p.
  now rewrite E.
Qed.

Lemma same_array_for_both_witness :
  norm [Fin 3; Fin 4] <> Fin 0 /\ 0 < 1
  /\ starting_point_after
       (largest_lyapunov_exponent doubling [Fin 3; Fin 4] (Fin 1) 2 3 (Fin 1)
          PSameObject true)
     = rescaled (Fin 1) [Fin 3; Fin 4]
  /\ norm (rescaled (Fin 1) [Fin 3; Fin 4]) = Fin 1.
Proof.
  assert (norm [Fin 3; Fin 4] <> Fin 0) as Hn.
  { change [Fin 3; Fin 4] with (map Fin [3; 4]). rewrite norm_Fin.
    unfold Rnorm, Rsum. cbn [map fold_left].
    replace (0 + 3 * 3 + 4 * 4) with (5 * 5) by lra.
    rewrite sqrt_square by lra. intro E. injection E. lra. }
  split; [exact Hn |]. split; [lra |].
  destruct (same_array_for_both doubling [Fin 3; Fin 4] 1 2 3 (Fin 1) true eq_refl Hn
              ltac:(lra)) as (H1 & _ & H2 & _).
  split; [exact H1 | exact H2].
Defined.

(* ================================================================= *)
(** ** A perturbation of length one against a longer starting point *)

Lemma norm_singleton (a : R) : norm [Fin a] = Fin (Rabs a).
Proof.
  change [Fin a] with (map Fin [a]). rewrite norm_Fin. f_equal.
  unfold Rnorm, Rsum. cbn [map fold_left].
  replace (0 + a * a) with (Rsqr a) by (unfold Rsqr; lra).
  apply sqrt_Rsqr_abs.
Qed.

Lemma map2_Rminus_shift (p0 : R) (x : list R) :
  map2 Rminus (map (fun a => a + p0) x) x = repeat p0 (length x).
Proof.
  induction x as [| a x IH]; simpl; auto. f_equal; [lra | exact IH].
Qed.

Lemma Rnorm_repeat (p0 : R) (n : nat) : Rnorm (repeat p0 n) = sqrt (INR n) * Rabs p0.
Proof.
  unfold Rnorm, Rsum. rewrite map_repeat, fold_left_Rplus_repeat.
  replace (0 + INR n * (p0 * p0)) with (INR n * Rsqr p0) by (unfold Rsqr; lra).
  rewrite sqrt_mult_alt by apply pos_INR. now rewrite sqrt_Rsqr_abs.
Qed.

(** X10.  In exact arithmetic.  A supplied perturbation of length 1,
    [[a]] with [a <> 0], against a finite [starting_point] of length [D]
    kept by the iterator ([deviation_scale] finite and not negative,
    [N >= 0]): the caller's array is left holding the one component
    [a * (deviation_scale / |a|)], and line 50 broadcasts it, so that the
    call returns what lines 52-64 compute from [x = starting_point] and
    [x_pert] with that component added to every component of
    [starting_point].  The initial separation [x_pert - x] then has the
    norm [sqrt D * deviation_scale], not [deviation_scale]; so for the
    identity map, one block of one step and [dt = 1], the call returns
    the estimate [ln (sqrt D)] ([D >= 1], [deviation_scale > 0]). *)
Theorem length_one_perturbation_separation (iterator_func : vec -> vec)
    (starting_point : vec) (a scale : R) (N part_time_steps : Z) (dt : fval)
    (return_convergence : bool) :
  preserves_dim iterator_func (length starting_point) ->
  all_finite starting_point = true -> a <> 0 -> 0 <= scale -> (0 <= N)%Z ->
  let D := length starting_point in
  let p0 := a * (scale / Rabs a) in
  let x_pert := map (fun x => fadd x (Fin p0)) starting_point in
  let run f n pts d b :=
    largest_lyapunov_exponent f starting_point (Fin scale) n pts d (PArray [Fin a]) b in
  initial_perturbation_after (run iterator_func N part_time_steps dt return_convergence)
  = Some [Fin p0]
  /\ returned (run iterator_func N part_time_steps dt return_convergence)
     = Ok (aggregate N part_time_steps dt return_convergence
             (log_divergences iterator_func (Fin scale) part_time_steps
                (starting_point, x_pert) (Z.to_nat N)))
  /\ norm (map2 fsub x_pert starting_point) = Fin (sqrt (INR D) * scale)
  /\ (0 < scale -> (1 <= D)%nat ->
      returned (run stay 1%Z 1%Z (Fin 1) true) = Ok (Trace [Fin (ln (sqrt (INR D)))])).
Proof.
  intros Hdim Hf Ha Hs HN D p0 x_pert run.
  assert (0 < Rabs a) as Habs by now apply Rabs_pos_lt.
  assert (rescaled (Fin scale) [Fin a] = [Fin p0]) as E.
  { unfold rescaled. rewrite norm_singleton, fdiv_Fin by lra. reflexivity. }
  assert (np_add starting_point [Fin p0] = Ok x_pert) as Eadd.
  { unfold np_add.
    destruct (broadcast2_singleton_r fadd starting_point [Fin p0] eq_refl)
      as (b0 & Eb & ->).
    injection Eb as <-. reflexivity. }
  assert (length x_pert = D) as Ex by (subst x_pert; now rewrite length_map).
  assert (map2 fsub x_pert starting_point = repeat (Fin p0) D) as Esub.
  { subst x_pert. rewrite (all_finite_inv starting_point Hf).
    rewrite map_map.
    change (map (fun x => fadd (Fin x) (Fin p0)) (map to_R starting_point))
      with (map (fun x => Fin (x + p0)) (map to_R starting_point)).
    rewrite <- (map_map (fun x => x + p0) Fin), map2_fsub_Fin, map2_Rminus_shift.
    subst D. now rewrite map_repeat, !length_map. }
  assert (norm (map2 fsub x_pert starting_point) = Fin (sqrt (INR D) * scale)) as En.
  { rewrite Esub, <- (map_repeat p0 _ Fin), norm_Fin, Rnorm_repeat. do 2 f_equal.
    subst p0. unfold Rdiv. rewrite !Rabs_mult, Rabs_inv, Rabs_Rabsolu.
    rewrite (Rabs_pos_eq scale Hs). field. lra. }
  assert (forall (f : vec -> vec) (n pts : Z) (d : fval) (b : bool),
            preserves_dim f D -> (0 <= n)%Z ->
            returned (run f n pts d b)
            = Ok (aggregate n pts d b
                    (log_divergences f (Fin scale) pts (starting_point, x_pert)
                       (Z.to_nat n)))) as Hrun.
  { intros f n pts d b Hfd Hn. subst run; cbv beta.
    unfold largest_lyapunov_exponent. cbn [direction]. rewrite E.
    rewrite (estimate_run_from f starting_point (Fin scale) n pts d [Fin p0] x_pert b D
               0%nat Hfd eq_refl Ex Eadd Hn).
    reflexivity. }
  split; [| split; [| split]].
  - subst run; cbv beta. unfold largest_lyapunov_exponent. cbn [direction].
    destruct (estimate _ _ _ _ _ _ _ _ _) as [calls r].
    cbn [initial_perturbation_after]. now rewrite E.
  - apply Hrun; assumption.
  - exact En.
  - intros Hs' HD. rewrite (Hrun stay 1%Z 1%Z (Fin 1) true (stay_preserves_dim D))
      by lia.
    assert (0 < sqrt (INR D)) as Hroot by (apply sqrt_lt_R0, lt_0_INR; lia).
    assert (log_divergence_of stay (Fin scale) 1 (starting_point, x_pert) 0
            = Fin (ln (sqrt (INR D)))) as El.
    { unfold log_divergence_of, state_before, log_div, divergence, measured, advance,
        stay.
      change (Z.to_nat 1) with 1%nat. cbn [Nat.iter nat_rect fst snd].
      rewrite En, fdiv_Fin by lra.
      replace (sqrt (INR D) * scale / scale) with (sqrt (INR D)) by (field; lra).
      now apply flog_Fin. }
    unfold aggregate, log_divergences, denominators, np_arange, vscale.
    change (Z.to_nat 1) with 1%nat. change (Z.to_nat (1 + 1 - 1)) with 1%nat.
    cbn [seq map np_cumsum cumsum_from map2 Z.of_nat Z.add].
    rewrite El. cbn [fmul]. rewrite fdiv_Fin by lra.
    replace (ln (sqrt (INR D)) / (1 * 1 * 1)) with (ln (sqrt (INR D))) by field.
    reflexivity.
Qed.

Lemma length_one_perturbation_separation_witness :
  preserves_dim doubling (length [Fin 0; Fin 0; Fin 0; Fin 0])
  /\ 2 <> 0 /\ 0 <= 1 /\ (0 <= 2)%Z /\ 0 < 1
  /\ initial_perturbation_after
       (largest_lyapunov_exponent doubling [Fin 0; Fin 0; Fin 0; Fin 0] (Fin 1) 2 3 (Fin 1)
          (PArray [Fin 2]) true)
     = Some [Fin (2 * (1 / Rabs 2))]
  /\ returned (largest_lyapunov_exponent stay [Fin 0; Fin 0; Fin 0; Fin 0] (Fin 1) 1 1
                 (Fin 1) (PArray [Fin 2]) true)
     = Ok (Trace [Fin (ln (sqrt (INR 4)))]).
Proof.
  destruct (length_one_perturbation_separation doubling [Fin 0; Fin 0; Fin 0; Fin 0] 2 1 2
              3 (Fin 1) true (doubling_preserves_dim 4) eq_refl ltac:(lra) ltac:(lra)
              ltac:(lia)) as (H1 & _ & _ & H2).
  split; [apply doubling_preserves_dim |].
  split; [lra |]. split; [lra |]. split; [lia |]. split; [lra |].
  split; [exact H1 | exact (H2 ltac:(lra) ltac:(simpl; lia))].
Defined.

(* ================================================================= *)
(** ** A negative number of steps per block *)



(* ================================================================= *)
(** ** The call of the estimator from [src/streamlit_fragments.py] *)

Module CallerFacts.

Import String.
Import Caller.
Local Open Scope string_scope.

Lemma bind_positional_names (params : list parameter) (args : list pyval)
    (slots : list (string * option pyval)) :
  bind_positional params args = Some slots -> map fst slots = map param_name params.
Proof.
  revert args slots. induction params as [| p params IH]; intros [| a args] slots H;
    simpl in H.
  - now injection H as <-.
  - discriminate.
  - injection H as <-. simpl. f_equal. now rewrite map_map.
  - destruct (bind_positional params args) as [slots' |] eqn:E; [| discriminate].
    injection H as <-. simpl. f_equal. now apply (IH args).
Qed.

Lemma bind_keyword_names (slots slots' : list (string * option pyval)) (k : string)
    (v : pyval) :
  bind_keyword slots k v = Some slots' -> map fst slots' = map fst slots.
Proof.
  revert slots'. induction slots as [| [n s] slots IH]; intros slots' H; simpl in H.
  - discriminate.
  - destruct (String.eqb n k).
    + destruct s; [discriminate |]. now injection H as <-.
    + destruct (bind_keyword slots k v) as [slots'' |]; [| discriminate].
      injection H as <-. simpl. f_equal. now apply IH.
Qed.

Lemma bind_keyword_unknown (slots : list (string * option pyval)) (k : string) (v : pyval) :
  ~ In k (map fst slots) -> bind_keyword slots k v = None.
Proof.
  induction slots as [| [n s] slots IH]; intro H; simpl in *; [reflexivity |].
  destruct (String.eqb_spec n k) as [-> | _]; [tauto |].
  rewrite IH by tauto. reflexivity.
Qed.

Lemma bind_keywords_unknown (slots : list (string * option pyval))
    (kwargs : list (string * pyval)) (k : string) (v : pyval) :
  In (k, v) kwargs -> ~ In k (map fst slots) -> bind_keywords slots kwargs = None.
Proof.
  revert slots. induction kwargs as [| [k' v'] kwargs IH]; intros slots Hin Hk;
    simpl in *; [contradiction |].
  destruct (bind_keyword slots k' v') as [slots' |] eqn:E; [| reflexivity].
  destruct Hin as [Heq | Hin].
  - injection Heq as -> ->. now rewrite bind_keyword_unknown in E.
  - apply IH; [exact Hin |]. now rewrite (bind_keyword_names _ _ _ _ E).
Qed.

(** A keyword argument whose name is not a parameter of the [def] makes
    the call a [TypeError], wherever it stands among the keywords and
    whatever the other arguments are. *)
Lemma unexpected_keyword (params : list parameter) (args : list pyval)
    (kwargs : list (string * pyval)) (k : string) (v : pyval) :
  In (k, v) kwargs -> ~ In k (map param_name params) ->
  bind_arguments params args kwargs = None.
Proof.
  intros Hin Hk. unfold bind_arguments.
  destruct (bind_positional params args) as [slots |] eqn:E; [| reflexivity].
  rewrite (bind_keywords_unknown slots kwargs k v Hin); [reflexivity |].
  now rewrite (bind_positional_names _ _ _ E).
Qed.

(** The same call with the keywords the [def] has ([N] for [steps], no
    [steps_skip]) runs the estimator in convergence mode with the default
    direction. *)
Lemma call_with_the_parameter_names (f : vec -> vec) (x : vec) (ds dt : fval)
    (n pts : Z) :
  call_largest_lyapunov_exponent
    [PyCallable f]
    [ ("starting_point", PyArray x); ("dt", PyFloat dt); ("N", PyInt n);
      ("part_time_steps", PyInt pts); ("deviation_scale", PyFloat ds);
      ("return_convergence", PyBool true) ]
  = Ran (largest_lyapunov_exponent f x ds n pts dt PNone true).
Proof. reflexivity. Qed.

(** With the two required arguments only, the defaults of the [def] are
    used. *)
Lemma call_with_defaults (f : vec -> vec) (x : vec) :
  call_largest_lyapunov_exponent [PyCallable f; PyArray x] []
  = Ran (largest_lyapunov_exponent f x (Fin (/ 10 ^ 10)) 100000 10 (Fin 1) PNone false).
Proof. reflexivity. Qed.

(** The call of lines 198-202, whatever the values passed: [steps] is
    no parameter of the estimator. *)
Lemma call_of_lines_198_202 (f : vec -> vec) (x : vec) (dt ds : fval)
    (steps pts steps_skip : Z) :
  call_largest_lyapunov_exponent
    [PyCallable f]
    [ ("starting_point", PyArray x); ("dt", PyFloat dt); ("steps", PyInt steps);
      ("part_time_steps", PyInt pts); ("deviation_scale", PyFloat ds);
      ("steps_skip", PyInt steps_skip); ("return_convergence", PyBool true) ]
  = RaisedTypeError.
Proof.
  unfold call_largest_lyapunov_exponent.
  rewrite (unexpected_keyword _ _ _ "steps" (PyInt steps)); [reflexivity | |].
  - simpl. tauto.
  - simpl. intros [H | [H | [H | [H | [H | [H | [H | [H | []]]]]]]]]; discriminate H.
Qed.

(** X11.  [get_largest_lyapunov_exponent] never returns a trace: it
    passes the keywords [steps] and [steps_skip], which are no parameters
    of [largest_lyapunov_exponent], so for every system instance and
    every value of its arguments the call raises [TypeError] before the
    body of the estimator runs (no iterator call, no array touched). *)
Theorem get_largest_lyapunov_exponent_raises (sim : sim_instance) (steps : Z)
    (deviation_scale : fval) (part_time_steps steps_skip : Z) :
  get_largest_lyapunov_exponent sim steps deviation_scale part_time_steps steps_skip
  = RaisedTypeError.
Proof. unfold get_largest_lyapunov_exponent. apply call_of_lines_198_202. Qed.

Lemma ten_to_the_308 : Rpower 10 308 <= largest_double.
Proof.
  replace 308 with (INR 308) by (rewrite INR_IZR_INZ; reflexivity).
  rewrite Rpower_pow by lra. unfold largest_double.
  rewrite pow_IZR. apply IZR_le, Z.leb_le. vm_compute. reflexivity.
Qed.

Lemma ten_to_the_309 : largest_double < Rpower 10 309.
Proof.
  replace 309 with (INR 309) by (rewrite INR_IZR_INZ; reflexivity).
  rewrite Rpower_pow by lra. unfold largest_double.
  rewrite pow_IZR. apply IZR_lt, Z.ltb_lt. vm_compute. reflexivity.
Qed.

Lemma ten_to_the_in_range (r : R) :
  r <= 308 -> ten_to_the (Fin r) = Some (Fin (Rpower 10 r)).
Proof.
  intro H. unfold ten_to_the.
  destruct (Rle_dec (Rpower 10 r) largest_double) as [_ | Hn]; [reflexivity |].
  exfalso. apply Hn. apply Rle_trans with (Rpower 10 308); [| exact ten_to_the_308].
  apply Rle_Rpower; lra.
Qed.

Lemma ten_to_the_overflows (r : R) : 309 <= r -> ten_to_the (Fin r) = None.
Proof.
  intro H. unfold ten_to_the.
  destruct (Rle_dec (Rpower 10 r) largest_double) as [Hle | _]; [| reflexivity].
  exfalso. pose proof ten_to_the_309.
  assert (Rpower 10 309 <= Rpower 10 r) by (apply Rle_Rpower; lra). lra.
Qed.

(** X12.  The page of the largest Lyapunov exponent never shows a
    result: whatever is entered in its four inputs and whatever lines
    222-227 would do with a trace, [st_largest_lyapunov_exponent] stops
    with an exception before anything is plotted or printed.  For an
    entered [log (deviation_scale)] of at most 308 (and for an infinity
    or NaN) it is the [TypeError] of the call inside
    [get_largest_lyapunov_exponent]; for one of at least 309,
    [10 ** x] on line 216 raises [OverflowError] before the call is
    reached. *)
Theorem st_largest_lyapunov_exponent_stops {A : Type} (sim : sim_instance)
    (steps part_time_steps steps_skip : Z) (log_deviation_scale : fval)
    (render : vec -> A) :
  let shown :=
    st_largest_lyapunov_exponent sim steps part_time_steps steps_skip
      log_deviation_scale render in
  (shown = Stopped RaisedTypeError \/ shown = StoppedByOverflow)
  /\ (forall r : R, log_deviation_scale = Fin r -> r <= 308 ->
      shown = Stopped RaisedTypeError)
  /\ (forall r : R, log_deviation_scale = Fin r -> 309 <= r -> shown = StoppedByOverflow)
  /\ (is_finite log_deviation_scale = false -> shown = Stopped RaisedTypeError).
Proof.
  intro shown. subst shown. unfold st_largest_lyapunov_exponent.
  split; [| split; [| split]].
  - destruct (ten_to_the log_deviation_scale) as [deviation_scale |]; [left | now right].
    unfold get_largest_lyapunov_exponent. now rewrite call_of_lines_198_202.
  - intros r -> Hr. rewrite (ten_to_the_in_range r Hr).
    unfold get_largest_lyapunov_exponent. now rewrite call_of_lines_198_202.
  - intros r -> Hr. now rewrite (ten_to_the_overflows r Hr).
  - intro Hx.
    assert (exists deviation_scale : fval,
              ten_to_the log_deviation_scale = Some deviation_scale) as [ds ->]
      by (destruct log_deviation_scale; try discriminate; eexists; reflexivity).
    unfold get_largest_lyapunov_exponent. now rewrite call_of_lines_198_202.
Qed.

Lemma st_largest_lyapunov_exponent_stops_witness :
  -10 <= 308 /\ 309 <= 400
  /\ st_largest_lyapunov_exponent (mk_sim_instance stay [Fin 1] None) 1000 15 50
       (Fin (-10)) (fun lle_conv : vec => lle_conv)
     = Stopped RaisedTypeError
  /\ st_largest_lyapunov_exponent (mk_sim_instance stay [Fin 1] None) 1000 15 50
       (Fin 400) (fun lle_conv : vec => lle_conv)
     = StoppedByOverflow.
Proof.
  destruct (st_largest_lyapunov_exponent_stops (mk_sim_instance stay [Fin 1] None) 1000 15
              50 (Fin (-10)) (fun lle_conv : vec => lle_conv)) as (_ & H1 & _).
  destruct (st_largest_lyapunov_exponent_stops (mk_sim_instance stay [Fin 1] None) 1000 15
              50 (Fin 400) (fun lle_conv : vec => lle_conv)) as (_ & _ & H2 & _).
  split; [lra |]. split; [lra |].
  split; [exact (H1 (-10) eq_refl ltac:(lra)) | exact (H2 400 eq_refl ltac:(lra))].
Defined.

End CallerFacts.

(* ================================================================= *)
(** ** The tables of [src/plotly_plots.py] *)

Module PlotsFacts.

Import String.
Import Plots.
Local Open Scope string_scope.
Local Open Scope list_scope.

(** Blocks of one length [m] laid end to end: element [j] of block [k]
    sits at index [k * m + j]. *)
Lemma nth_error_flat_map_uniform {A B : Type} (f : A -> list B) (m : nat) (l : list A) :
  (forall a : A, In a l -> List.length (f a) = m) ->
  forall (k : nat) (a : A) (j : nat),
    nth_error l k = Some a -> (j < m)%nat ->
    nth_error (flat_map f l) (k * m + j) = nth_error (f a) j.
Proof.
  induction l as [| b l IH]; intros Hlen k a j Hk Hj.
  - destruct k; discriminate.
  - cbn [flat_map]. destruct k as [| k]; cbn [nth_error] in Hk.
    + injection Hk as ->. cbn [Nat.mul Nat.add].
      apply nth_error_app1. rewrite Hlen by (left; reflexivity). exact Hj.
    + rewrite nth_error_app2 by (rewrite Hlen by (left; reflexivity); lia).
      rewrite Hlen by (left; reflexivity).
      replace (S k * m + j - m)%nat with (k * m + j)%nat by lia.
      apply IH; auto. intros a' Ha'. apply Hlen. now right.
Qed.

Lemma length_flat_map_uniform {A B : Type} (f : A -> list B) (m : nat) (l : list A) :
  (forall a : A, In a l -> List.length (f a) = m) ->
  List.length (flat_map f l) = (List.length l * m)%nat.
Proof.
  induction l as [| b l IH]; intro Hlen; cbn [flat_map List.length Nat.mul]; auto.
  rewrite length_app, Hlen by (left; reflexivity).
  rewrite IH; [reflexivity |]. intros a' Ha'. apply Hlen. now right.
Qed.

Section ThreeColumns.

(** Three column names that differ from each other. *)
Variables a b c : string.
Hypothesis Hab : a <> b.
Hypothesis Hac : a <> c.
Hypothesis Hbc : b <> c.

Lemma literal_three (xs ys zs : list cell) :
  dict_literal [(a, xs); (b, ys); (c, zs)] = [(a, xs); (b, ys); (c, zs)].
Proof.
  unfold dict_literal. cbn [fold_left dict_set fst snd].
  rewrite (proj2 (String.eqb_neq a b) Hab). cbn [dict_set].
  rewrite (proj2 (String.eqb_neq a c) Hac), (proj2 (String.eqb_neq b c) Hbc).
  reflexivity.
Qed.

Lemma extend_first (xs ys zs l : list cell) :
  dict_extend [(a, xs); (b, ys); (c, zs)] a l = Done [(a, xs ++ l); (b, ys); (c, zs)].
Proof.
  unfold dict_extend. cbn [dict_get dict_set]. now rewrite String.eqb_refl.
Qed.

Lemma extend_second (xs ys zs l : list cell) :
  dict_extend [(a, xs); (b, ys); (c, zs)] b l = Done [(a, xs); (b, ys ++ l); (c, zs)].
Proof.
  unfold dict_extend. cbn [dict_get dict_set].
  rewrite (proj2 (String.eqb_neq a b) Hab), String.eqb_refl. reflexivity.
Qed.

Lemma extend_third (xs ys zs l : list cell) :
  dict_extend [(a, xs); (b, ys); (c, zs)] c l = Done [(a, xs); (b, ys); (c, zs ++ l)].
Proof.
  unfold dict_extend. cbn [dict_get dict_set].
  rewrite (proj2 (String.eqb_neq a c) Hac), (proj2 (String.eqb_neq b c) Hbc),
    String.eqb_refl.
  reflexivity.
Qed.

(** The inner loop of [matrix_as_barchart] over the columns of row [i_x]. *)
Lemma matrix_inner_loop (entry : nat -> nat -> fval) (i_x n start : nat)
    (xs ys vs : list cell) :
  for_each (seq start n) (add_matrix_cell a b c entry i_x) [(a, xs); (b, ys); (c, vs)]
  = Done [(a, xs ++ repeat (CInt (Z.of_nat i_x)) n);
          (b, ys ++ map (fun i_y => CInt (Z.of_nat i_y)) (seq start n));
          (c, vs ++ map (fun i_y => CNum (entry i_x i_y)) (seq start n))].
Proof.
  revert start xs ys vs. induction n as [| n IH]; intros start xs ys vs.
  - cbn [seq for_each repeat map]. now rewrite !app_nil_r.
  - cbn [seq for_each]. unfold add_matrix_cell at 1.
    rewrite extend_first. cbn [and_then]. rewrite extend_third. cbn [and_then].
    rewrite extend_second. cbn [and_then]. rewrite IH.
    cbn [repeat map]. now rewrite <- !app_assoc.
Qed.

Lemma matrix_outer_loop (entry : nat -> nat -> fval) (y_dim n start : nat)
    (xs ys vs : list cell) :
  for_each (seq start n)
    (fun i_x => for_each (seq 0 y_dim) (add_matrix_cell a b c entry i_x))
    [(a, xs); (b, ys); (c, vs)]
  = Done [(a, xs ++ flat_map (fun i_x => repeat (CInt (Z.of_nat i_x)) y_dim)
                      (seq start n));
          (b, ys ++ flat_map (fun _ => map (fun i_y => CInt (Z.of_nat i_y)) (seq 0 y_dim))
                      (seq start n));
          (c, vs ++ flat_map (fun i_x => map (fun i_y => CNum (entry i_x i_y))
                                           (seq 0 y_dim))
                      (seq start n))].
Proof.
  revert start xs ys vs. induction n as [| n IH]; intros start xs ys vs.
  - cbn [seq for_each flat_map]. now rewrite !app_nil_r.
  - cbn [seq for_each]. rewrite matrix_inner_loop. cbn [and_then]. rewrite IH.
    cbn [flat_map]. now rewrite <- !app_assoc.
Qed.

End ThreeColumns.

(** X14.  The long table that [matrix_as_barchart] builds from a matrix
    of shape [(x_dim, y_dim)], for three column names that differ from
    each other: three columns of [x_dim * y_dim] entries in which row
    [i_x * y_dim + i_y] holds [i_x], [i_y] and the entry [(i_x, i_y)] of
    the matrix, so that every entry of the matrix occurs once, row by
    row. *)
Theorem matrix_table_is_row_major (x_dim y_dim : nat) (entry : nat -> nat -> fval)
    (x_axis y_axis value_name : string) :
  x_axis <> y_axis -> x_axis <> value_name -> y_axis <> value_name ->
  exists xs ys vs : list cell,
    matrix_as_barchart_data_dict x_dim y_dim entry x_axis y_axis value_name
    = Done [(x_axis, xs); (y_axis, ys); (value_name, vs)]
    /\ List.length xs = (x_dim * y_dim)%nat
    /\ List.length ys = (x_dim * y_dim)%nat
    /\ List.length vs = (x_dim * y_dim)%nat
    /\ forall i_x i_y : nat, (i_x < x_dim)%nat -> (i_y < y_dim)%nat ->
         nth_error xs (i_x * y_dim + i_y) = Some (CInt (Z.of_nat i_x))
         /\ nth_error ys (i_x * y_dim + i_y) = Some (CInt (Z.of_nat i_y))
         /\ nth_error vs (i_x * y_dim + i_y) = Some (CNum (entry i_x i_y)).
Proof.
  intros Hxy Hxv Hyv. unfold matrix_as_barchart_data_dict.
  rewrite (literal_three _ _ _ Hxy Hxv Hyv), (matrix_outer_loop _ _ _ Hxy Hxv Hyv).
  cbn [app]. do 3 eexists. split; [reflexivity |].
  assert (forall i : nat, nth_error (seq 0 x_dim) i = Some i \/ (x_dim <= i)%nat) as Hseq.
  { intro i. destruct (Nat.lt_ge_cases i x_dim) as [H | H]; [left | now right].
    rewrite (nth_error_nth' _ 0%nat) by (rewrite length_seq; lia).
    now rewrite seq_nth by lia. }
  repeat split.
  - rewrite (length_flat_map_uniform _ y_dim), length_seq; auto.
    intros; apply repeat_length.
  - rewrite (length_flat_map_uniform _ y_dim), length_seq; auto.
    intros; now rewrite length_map, length_seq.
  - rewrite (length_flat_map_uniform _ y_dim), length_seq; auto.
    intros; now rewrite length_map, length_seq.
  - destruct (Hseq i_x) as [E | E]; [| lia].
    rewrite (nth_error_flat_map_uniform _ y_dim _ ltac:(intros; apply repeat_length)
               i_x i_x i_y E H0).
    now rewrite nth_error_repeat.
  - destruct (Hseq i_x) as [E | E]; [| lia].
    rewrite (nth_error_flat_map_uniform _ y_dim _
               ltac:(intros; now rewrite length_map, length_seq) i_x i_x i_y E H0).
    rewrite nth_error_map, (nth_error_nth' _ 0%nat) by (rewrite length_seq; lia).
    now rewrite seq_nth by lia.
  - destruct (Hseq i_x) as [E | E]; [| lia].
    rewrite (nth_error_flat_map_uniform _ y_dim _
               ltac:(intros; now rewrite length_map, length_seq) i_x i_x i_y E H0).
    rewrite nth_error_map, (nth_error_nth' _ 0%nat) by (rewrite length_seq; lia).
    now rewrite seq_nth by lia.
Qed.

Lemma matrix_table_is_row_major_witness :
  "x_dim" <> "y_dim" /\ "x_dim" <> "value" /\ "y_dim" <> "value"
  /\ exists xs ys vs : list cell,
      matrix_as_barchart_data_dict 2 3 (fun i_x i_y => Fin (INR (10 * i_x + i_y)))
        "x_dim" "y_dim" "value"
      = Done [("x_dim", xs); ("y_dim", ys); ("value", vs)]
      /\ nth_error vs 5 = Some (CNum (Fin (INR 12))).
Proof.
  assert ("x_dim" <> "y_dim") as H1 by discriminate.
  assert ("x_dim" <> "value") as H2 by discriminate.
  assert ("y_dim" <> "value") as H3 by discriminate.
  split; [exact H1 |]. split; [exact H2 |]. split; [exact H3 |].
  destruct (matrix_table_is_row_major 2 3 (fun i_x i_y => Fin (INR (10 * i_x + i_y)))
              "x_dim" "y_dim" "value" H1 H2 H3)
    as (xs & ys & vs & E & _ & _ & _ & H).
  exists xs, ys, vs. split; [exact E |].
  exact (proj2 (proj2 (H 1%nat 2%nat ltac:(lia) ltac:(lia)))).
Defined.

(** The column [i] of a two-dimensional array, for [0 <= i < ncols]. *)
Lemma column_in_range (nrows ncols : nat) (entry : nat -> nat -> fval) (i : Z) :
  (0 <= i < Z.of_nat ncols)%Z ->
  column (Arr2 nrows ncols entry) i
  = Done (map (fun t => entry t (Z.to_nat i)) (seq 0 nrows)).
Proof.
  intro Hi. unfold column.
  destruct (Z.leb_spec (- Z.of_nat ncols) i) as [_ | ?]; [| lia].
  destruct (Z.ltb_spec i (Z.of_nat ncols)) as [_ | ?]; [| lia].
  cbn [andb]. now rewrite Z.mod_small by lia.
Qed.

Lemma series_loop (x_label y_label : string) (x_array : list cell) (T : nat) (i : Z)
    (time_series_dict : pydict ndarray) (xs ys ls : list cell) :
  x_label <> y_label -> x_label <> "label" -> y_label <> "label" ->
  Forall (regular_series T i) time_series_dict ->
  for_each time_series_dict (add_series false x_label y_label x_array i)
    [(x_label, xs); (y_label, ys); ("label", ls)]
  = Done [(x_label, xs ++ flat_map (fun _ => x_array) time_series_dict);
          (y_label, ys ++ flat_map (y_cells i) time_series_dict);
          ("label", ls ++ flat_map (fun item => repeat (CStr (fst item)) T)
                            time_series_dict)].
Proof.
  intros Hxy Hxl Hyl Hreg. revert xs ys ls.
  induction Hreg as [| [label time_series] d (ncols & entry & E & Hi) _ IH];
    intros xs ys ls.
  - cbn [for_each flat_map]. now rewrite !app_nil_r.
  - cbn [snd] in E. subst time_series.
    cbn [for_each]. unfold add_series at 1. cbn [and_then].
    rewrite extend_first. cbn [and_then].
    rewrite column_in_range by exact Hi. cbn [and_then].
    rewrite (extend_second _ _ _ Hxy). cbn [and_then rows_of].
    rewrite (extend_third _ _ _ Hxl Hyl). cbn [and_then].
    rewrite IH. cbn [flat_map fst]. unfold y_cells at 2. cbn [snd].
    rewrite column_in_range by exact Hi. now rewrite <- !app_assoc.
Qed.

(** X15.  The table that [multiple_1d_time_series] builds for dimension
    [i] from two-dimensional series that all have [T] rows and a column
    [i], with an x axis of [T] entries and column names that differ from
    each other and from ["label"]: three columns of (number of series)
    times [T] entries, in which row [k * T + t] holds the [t]-th x value,
    entry [(t, i)] of the [k]-th series and the name of that series. *)
Theorem series_table_is_aligned (time_series_dict : pydict ndarray)
    (x_label y_label : string) (x_array : list cell) (T : nat) (i : Z) :
  x_label <> y_label -> x_label <> "label" -> y_label <> "label" ->
  Forall (regular_series T i) time_series_dict ->
  List.length x_array = T ->
  exists xs ys ls : list cell,
    to_plot_dict_1d time_series_dict false x_label y_label x_array i
    = Done [(x_label, xs); (y_label, ys); ("label", ls)]
    /\ List.length xs = (List.length time_series_dict * T)%nat
    /\ List.length ys = (List.length time_series_dict * T)%nat
    /\ List.length ls = (List.length time_series_dict * T)%nat
    /\ forall (k : nat) (label : string) (ncols : nat) (entry : nat -> nat -> fval)
              (t : nat),
         nth_error time_series_dict k = Some (label, Arr2 T ncols entry) ->
         (t < T)%nat ->
         nth_error xs (k * T + t) = nth_error x_array t
         /\ nth_error ys (k * T + t) = Some (CNum (entry t (Z.to_nat i)))
         /\ nth_error ls (k * T + t) = Some (CStr label).
Proof.
  intros Hxy Hxl Hyl Hreg Hx. unfold to_plot_dict_1d.
  rewrite (literal_three _ _ _ Hxy Hxl Hyl), (series_loop _ _ _ T) by assumption.
  cbn [app]. do 3 eexists. split; [reflexivity |].
  assert (forall item : string * ndarray,
            In item time_series_dict -> List.length (y_cells i item) = T) as Hy.
  { intros item Hin. rewrite Forall_forall in Hreg.
    destruct (Hreg item Hin) as (ncols & entry & E & Hi).
    unfold y_cells. rewrite E, column_in_range by exact Hi.
    now rewrite !length_map, length_seq. }
  split; [apply length_flat_map_uniform; auto |].
  split; [apply length_flat_map_uniform; exact Hy |].
  split; [apply length_flat_map_uniform; intros; apply repeat_length |].
  intros k label ncols entry t Hk Ht.
  pose proof (nth_error_In _ _ Hk) as Hin.
  rewrite Forall_forall in Hreg.
  destruct (Hreg _ Hin) as (ncols' & entry' & E & Hi). cbn [snd] in E.
  injection E as <- Ee. subst entry'. split; [| split].
  - now rewrite (nth_error_flat_map_uniform _ T _ (fun _ _ => Hx) k _ t Hk Ht).
  - rewrite (nth_error_flat_map_uniform _ T _ Hy k _ t Hk Ht).
    unfold y_cells. cbn [snd]. rewrite column_in_range by exact Hi.
    rewrite map_map, nth_error_map.
    rewrite (nth_error_nth' _ 0%nat) by (rewrite length_seq; lia).
    now rewrite seq_nth by lia.
  - rewrite (nth_error_flat_map_uniform _ T _ ltac:(intros; apply repeat_length)
               k _ t Hk Ht).
    cbn [fst]. now rewrite nth_error_repeat.
Qed.

Lemma series_table_is_aligned_witness :
  "x" <> "y" /\ "x" <> "label" /\ "y" <> "label"
  /\ exists xs ys ls : list cell,
      to_plot_dict_1d
        [("a", Arr2 2 1 (fun t _ => Fin (INR t))); ("b", Arr2 2 1 (fun _ _ => Fin 7))]
        false "x" "y" [CInt 0; CInt 1] 0
      = Done [("x", xs); ("y", ys); ("label", ls)]
      /\ nth_error ys 3 = Some (CNum (Fin 7))
      /\ nth_error ls 3 = Some (CStr "b").
Proof.
  assert ("x" <> "y") as H1 by discriminate.
  assert ("x" <> "label") as H2 by discriminate.
  assert ("y" <> "label") as H3 by discriminate.
  split; [exact H1 |]. split; [exact H2 |]. split; [exact H3 |].
  assert (Forall (regular_series 2 0)
            [("a", Arr2 2 1 (fun t _ => Fin (INR t)));
             ("b", Arr2 2 1 (fun _ _ => Fin 7))]) as Hreg.
  { repeat constructor; do 2 eexists; (split; [reflexivity | lia]). }
  destruct (series_table_is_aligned _ "x" "y" [CInt 0; CInt 1] 2 0 H1 H2 H3 Hreg eq_refl)
    as (xs & ys & ls & E & _ & _ & _ & H).
  exists xs, ys, ls. split; [exact E |].
  destruct (H 1%nat "b" 1%nat (fun _ _ => Fin 7) 1%nat eq_refl ltac:(lia))
    as (_ & Hy & Hl).
  split; [exact Hy | exact Hl].
Defined.

Section PlotlyFacts.

Variable figure : Type.
Variable px : plot_kind -> pydict (list cell) -> string -> string -> string ->
              option string -> result figure.
Variable update_traces : plot_kind -> fval -> figure -> result figure.
Variable update_layout : Z -> Z -> figure -> result figure.

Lemma figure_of_unsupported_mode (mode : string) (line_size scatter_size : option fval)
    (fig_size : Z * Z) (x_label y_label : string) (title_i : option string)
    (to_plot_dict : pydict (list cell)) :
  mode <> "line" -> mode <> "scatter" ->
  figure_of figure px update_traces update_layout mode line_size scatter_size fig_size
    x_label y_label title_i to_plot_dict
  = Failed PlainException.
Proof.
  intros H1 H2. unfold figure_of.
  rewrite (proj2 (String.eqb_neq mode "line") H1),
    (proj2 (String.eqb_neq mode "scatter") H2).
  reflexivity.
Qed.

(** X16.  [multiple_1d_time_series] on its edges: an empty dict of
    series raises [IndexError] before anything else is looked at; and a
    [mode] other than ["line"] and ["scatter"] never yields a figure, but
    is only noticed inside the loop over the dimensions, so with no
    dimension to plot the call returns the empty list without
    complaint. *)
Theorem multiple_1d_time_series_edges (time_series_dict : pydict ndarray) (mode : string)
    (line_size scatter_size : option fval) (title : option string) (fig_size : Z * Z)
    (x_scale : option fval) (x_label y_label : string) (dimensions : option (list Z)) :
  let plot d m dims :=
    multiple_1d_time_series figure px update_traces update_layout d m line_size
      scatter_size title fig_size x_scale x_label y_label dims in
  plot [] mode dimensions = Failed IndexError
  /\ (mode <> "line" -> mode <> "scatter" ->
      (forall figs : list figure, plot time_series_dict mode dimensions = Done figs ->
         figs = [])
      /\ (time_series_dict <> [] -> plot time_series_dict mode (Some []) = Done [])).
Proof.
  intro plot. split; [reflexivity |]. intros H1 H2. split.
  - intros figs. subst plot; cbv beta. unfold multiple_1d_time_series.
    destruct time_series_dict as [| [label first] rest]; [discriminate |].
    destruct (match first with
              | Arr1 v => (List.length v, 1%nat)
              | Arr2 nrows ncols _ => (nrows, ncols)
              end) as [x_steps y_dim].
    destruct (match dimensions with
              | Some l => l
              | None => map Z.of_nat (seq 0 y_dim)
              end) as [| i dims]; cbn [for_each].
    + now intros [= <-].
    + destruct (to_plot_dict_1d _ _ _ _ _ _) as [t | e]; cbn [and_then].
      * rewrite figure_of_unsupported_mode by assumption. discriminate.
      * discriminate.
  - intro Hne. subst plot; cbv beta. unfold multiple_1d_time_series.
    destruct time_series_dict as [| [label first] rest]; [contradiction |].
    now destruct first.
Qed.

Lemma for_each_appends {I : Type} (l : list I)
    (body : I -> list figure -> result (list figure)) (figs : list figure) :
  (forall (i : I) (figs' : list figure), In i l ->
     exists fig : figure, body i figs' = Done (figs' ++ [fig])) ->
  exists figs' : list figure,
    for_each l body figs = Done figs'
    /\ List.length figs' = (List.length figs + List.length l)%nat.
Proof.
  revert figs. induction l as [| i l IH]; intros figs Hbody.
  - exists figs. cbn [for_each List.length]. split; [reflexivity | lia].
  - destruct (Hbody i figs ltac:(left; reflexivity)) as [fig E].
    destruct (IH (figs ++ [fig])) as (figs' & E' & Hl).
    { intros j figs'' Hj. apply Hbody. now right. }
    exists figs'. cbn [for_each]. rewrite E. cbn [and_then].
    split; [exact E' |]. rewrite Hl, length_app. cbn [List.length]. lia.
Qed.

(** Plotly never raises. *)
Hypothesis px_returns :
  forall k t x y c title, exists fig : figure, px k t x y c title = Done fig.
Hypothesis update_traces_returns :
  forall k w fig, exists fig' : figure, update_traces k w fig = Done fig'.
Hypothesis update_layout_returns :
  forall h w fig, exists fig' : figure, update_layout h w fig = Done fig'.

Lemma figure_of_returns (mode : string) (line_size scatter_size : option fval)
    (fig_size : Z * Z) (x_label y_label : string) (title_i : option string)
    (to_plot_dict : pydict (list cell)) :
  mode = "line" \/ mode = "scatter" ->
  exists fig : figure,
    figure_of figure px update_traces update_layout mode line_size scatter_size fig_size
      x_label y_label title_i to_plot_dict
    = Done fig.
Proof.
  intros [-> | ->]; unfold figure_of; cbn [String.eqb Ascii.eqb Bool.eqb];
    [destruct (px_returns Line to_plot_dict x_label y_label "label" title_i) as [f ->]
    | destruct (px_returns Scatter to_plot_dict x_label y_label "label" title_i)
        as [f ->]];
    cbn [and_then].
  - destruct line_size as [w |]; cbn [and_then].
    + destruct (update_traces_returns Line w f) as [f' ->]. cbn [and_then].
      apply update_layout_returns.
    + apply update_layout_returns.
  - destruct scatter_size as [w |]; cbn [and_then].
    + destruct (update_traces_returns Scatter w f) as [f' ->]. cbn [and_then].
      apply update_layout_returns.
    + apply update_layout_returns.
Qed.

(** X17.  When plotly does not raise, [multiple_1d_time_series] with
    [dimensions = None], a supported [mode], column names that differ from
    each other and from ["label"], and a non-empty dict of
    two-dimensional series of one shape [(T, D)] returns one figure per
    column: [D] figures. *)
Theorem one_figure_per_column (label0 : string) (entry0 : nat -> nat -> fval)
    (rest : pydict ndarray) (T D : nat) (mode : string)
    (line_size scatter_size : option fval) (title : option string) (fig_size : Z * Z)
    (x_scale : option fval) (x_label y_label : string) :
  mode = "line" \/ mode = "scatter" ->
  x_label <> y_label -> x_label <> "label" -> y_label <> "label" ->
  Forall (fun item => exists entry, snd item = Arr2 T D entry) rest ->
  exists figs : list figure,
    multiple_1d_time_series figure px update_traces update_layout
      ((label0, Arr2 T D entry0) :: rest) mode line_size scatter_size title fig_size
      x_scale x_label y_label None
    = Done figs
    /\ List.length figs = D.
Proof.
  intros Hmode Hxy Hxl Hyl Hrest. unfold multiple_1d_time_series.
  destruct (for_each_appends (map Z.of_nat (seq 0 D))
              (fun i figs =>
                 to_plot_dict <-
                   to_plot_dict_1d ((label0, Arr2 T D entry0) :: rest) false x_label
                     y_label (x_array_of T x_scale) i ;;
                 fig <- figure_of figure px update_traces update_layout mode line_size
                          scatter_size fig_size x_label y_label
                          (title_of title (List.length (map Z.of_nat (seq 0 D))) i)
                          to_plot_dict ;;
                 Done (figs ++ [fig]))
              []) as (figs & E & Hl).
  - intros i figs Hi. apply in_map_iff in Hi. destruct Hi as (n & <- & Hn).
    apply in_seq in Hn.
    assert (Forall (regular_series T (Z.of_nat n)) ((label0, Arr2 T D entry0) :: rest))
      as Hreg.
    { constructor.
      - exists D, entry0. split; [reflexivity | lia].
      - eapply Forall_impl; [| exact Hrest]. intros item [entry E].
        exists D, entry. split; [exact E | lia]. }
    unfold to_plot_dict_1d.
    rewrite (literal_three _ _ _ Hxy Hxl Hyl), (series_loop _ _ _ T) by assumption.
    cbn [and_then].
    destruct (figure_of_returns mode line_size scatter_size fig_size x_label y_label
                (title_of title (List.length (map Z.of_nat (seq 0 D))) (Z.of_nat n))
                [(x_label, [] ++ flat_map (fun _ => x_array_of T x_scale)
                                   ((label0, Arr2 T D entry0) :: rest));
                 (y_label, [] ++ flat_map (y_cells (Z.of_nat n))
                                   ((label0, Arr2 T D entry0) :: rest));
                 ("label", [] ++ flat_map (fun item => repeat (CStr (fst item)) T)
                                   ((label0, Arr2 T D entry0) :: rest))] Hmode)
      as [fig ->].
    cbn [and_then]. now exists fig.
  - exists figs. split; [exact E |].
    rewrite Hl, length_map, length_seq. reflexivity.
Qed.

End PlotlyFacts.

(** A plotly that returns the table it was given as the figure. *)
Lemma one_figure_per_column_witness :
  ("line" = "line" \/ "line" = "scatter")
  /\ "x" <> "y" /\ "x" <> "label" /\ "y" <> "label"
  /\ exists figs : list (pydict (list cell)),
      multiple_1d_time_series (pydict (list cell))
        (fun _ t _ _ _ _ => Done t) (fun _ _ fig => Done fig) (fun _ _ fig => Done fig)
        [("a", Arr2 4 3 (fun t j => Fin (INR (t + j))))] "line" (Some (Fin 1))
        (Some (Fin 1)) None (650, 350)%Z None "x" "y" None
      = Done figs
      /\ List.length figs = 3%nat.
Proof.
  assert ("x" <> "y") as H1 by discriminate.
  assert ("x" <> "label") as H2 by discriminate.
  assert ("y" <> "label") as H3 by discriminate.
  split; [left; reflexivity |].
  split; [exact H1 |]. split; [exact H2 |]. split; [exact H3 |].
  apply (one_figure_per_column (pydict (list cell))
           (fun _ t _ _ _ _ => Done t) (fun _ _ fig => Done fig) (fun _ _ fig => Done fig)
           ltac:(intros; eexists; reflexivity) ltac:(intros; eexists; reflexivity)
           ltac:(intros; eexists; reflexivity)
           "a" (fun t j => Fin (INR (t + j))) [] 4 3 "line" (Some (Fin 1)) (Some (Fin 1))
           None (650, 350)%Z None "x" "y" ltac:(left; reflexivity) H1 H2 H3
           ltac:(constructor)).
Defined.

Lemma multiple_1d_time_series_edges_witness :
  "bar" <> "line" /\ "bar" <> "scatter"
  /\ multiple_1d_time_series (pydict (list cell))
       (fun _ t _ _ _ _ => Done t) (fun _ _ fig => Done fig) (fun _ _ fig => Done fig)
       [("a", Arr2 4 3 (fun t j => Fin (INR (t + j))))] "bar" None None None
       (650, 350)%Z None "x" "y" (Some [])
     = Done [].
Proof.
  assert ("bar" <> "line") as H1 by discriminate.
  assert ("bar" <> "scatter") as H2 by discriminate.
  split; [exact H1 |]. split; [exact H2 |].
  exact (proj2 (proj2 (multiple_1d_time_series_edges (pydict (list cell))
                         (fun _ t _ _ _ _ => Done t) (fun _ _ fig => Done fig)
                         (fun _ _ fig => Done fig)
                         [("a", Arr2 4 3 (fun t j => Fin (INR (t + j))))] "bar" None None
                         None (650, 350)%Z None "x" "y" (Some [])) H1 H2)
           ltac:(discriminate)).
Defined.

Lemma wide_series_columns (item : string * ndarray) :
  wide_series item ->
  exists x y : vec,
    column (snd item) 0 = Done x /\ column (snd item) 1 = Done y
    /\ List.length x = rows_of (snd item) /\ List.length y = rows_of (snd item).
Proof.
  intros (nrows & ncols & entry & -> & H).
  rewrite !column_in_range by lia. do 2 eexists.
  repeat split; cbn [rows_of]; now rewrite length_map, length_seq.
Qed.

Lemma narrow_series_column (item : string * ndarray) :
  ~ wide_series item ->
  column (snd item) 0 = Failed IndexError \/ column (snd item) 1 = Failed IndexError.
Proof.
  intro H. destruct item as [label [v | nrows ncols entry]]; cbn [snd]; [now left |].
  right. unfold column.
  destruct (Z.ltb_spec 1 (Z.of_nat ncols)) as [Hlt | _];
    [| now rewrite andb_false_r].
  exfalso. apply H. exists nrows, ncols, entry. split; [reflexivity | lia].
Qed.

Lemma wide_series_dec (item : string * ndarray) : wide_series item \/ ~ wide_series item.
Proof.
  destruct item as [label [v | nrows ncols entry]].
  - right. intros (n & m & e & E & _). discriminate E.
  - destruct (le_lt_dec 2 ncols) as [H | H].
    + left. exists nrows, ncols, entry. now split.
    + right. intros (n & m & e & E & H'). cbn [snd] in E. injection E as _ <- _. lia.
Qed.

Section TwoDimensional.

Variables x_label y_label : string.
Hypothesis Hxy : x_label <> y_label.
Hypothesis Hxl : x_label <> "label".
Hypothesis Hyl : y_label <> "label".

Lemma series_2d_loop (time_series_dict : pydict ndarray) (xs ys ls : list cell) :
  Forall wide_series time_series_dict ->
  for_each time_series_dict (add_series_2d x_label y_label)
    [(x_label, xs); (y_label, ys); ("label", ls)]
  = Done [(x_label, xs ++ flat_map (y_cells 0) time_series_dict);
          (y_label, ys ++ flat_map (y_cells 1) time_series_dict);
          ("label", ls ++ flat_map (fun item => repeat (CStr (fst item))
                                                  (rows_of (snd item)))
                            time_series_dict)].
Proof.
  intro Hwide. revert xs ys ls.
  induction Hwide as [| [label time_series] d Hw _ IH]; intros xs ys ls.
  - cbn [for_each flat_map]. now rewrite !app_nil_r.
  - destruct (wide_series_columns _ Hw) as (x & y & Ex & Ey & _). cbn [snd] in Ex, Ey.
    cbn [for_each]. unfold add_series_2d at 1. cbv beta iota. rewrite Ex. cbn [and_then].
    rewrite extend_first. cbn [and_then]. rewrite Ey. cbn [and_then].
    rewrite (extend_second _ _ _ Hxy). cbn [and_then].
    rewrite (extend_third _ _ _ Hxl Hyl). cbn [and_then].
    rewrite IH. cbn [flat_map fst snd].
    replace (y_cells 0 (label, time_series)) with (map CNum x)
      by (unfold y_cells; cbn [snd]; now rewrite Ex).
    replace (y_cells 1 (label, time_series)) with (map CNum y)
      by (unfold y_cells; cbn [snd]; now rewrite Ey).
    now rewrite <- !app_assoc.
Qed.

Lemma series_2d_loop_fails (time_series_dict : pydict ndarray) (xs ys ls : list cell) :
  Exists (fun item => ~ wide_series item) time_series_dict ->
  for_each time_series_dict (add_series_2d x_label y_label)
    [(x_label, xs); (y_label, ys); ("label", ls)]
  = Failed IndexError.
Proof.
  revert xs ys ls.
  induction time_series_dict as [| [label time_series] d IH]; intros xs ys ls Hex.
  - inversion Hex.
  - cbn [for_each]. destruct (wide_series_dec (label, time_series)) as [Hw | Hn].
    + destruct (wide_series_columns _ Hw) as (x & y & Ex & Ey & _). cbn [snd] in Ex, Ey.
      unfold add_series_2d at 1. cbv beta iota. rewrite Ex. cbn [and_then].
      rewrite extend_first. cbn [and_then]. rewrite Ey. cbn [and_then].
      rewrite (extend_second _ _ _ Hxy). cbn [and_then].
      rewrite (extend_third _ _ _ Hxl Hyl). cbn [and_then].
      apply IH. inversion Hex as [? ? H | ? ? H]; subst; [contradiction | exact H].
    + unfold add_series_2d at 1. cbv beta iota.
      destruct (narrow_series_column _ Hn) as [E | E]; cbn [snd] in E.
      * now rewrite E.
      * destruct (column time_series 0) as [x | e] eqn:Ex; cbn [and_then].
        -- rewrite extend_first. cbn [and_then]. now rewrite E.
        -- destruct time_series as [v | nrows ncols entry]; cbn [column] in Ex, E.
           ++ now injection Ex as <-.
           ++ destruct (_ && _) in Ex; [discriminate | now injection Ex as <-].
Qed.

End TwoDimensional.

(** X18.  The table of [multiple_2d_time_series], for column names that
    differ from each other and from ["label"].  If every series is
    two-dimensional with at least two columns, the three columns of the
    table have one length, the sum of the numbers of rows of the series
    (which need not be equal), and hold columns 0 and 1 and the names of
    the series.  If some series is one-dimensional or has fewer than two
    columns, the call raises [IndexError] before plotly is called. *)
Theorem table_2d_columns (figure : Type)
    (px : plot_kind -> pydict (list cell) -> string -> string -> string ->
          option string -> result figure)
    (update_traces : plot_kind -> fval -> figure -> result figure)
    (update_layout : Z -> Z -> figure -> result figure)
    (time_series_dict : pydict ndarray) (mode : string)
    (line_size scatter_size : option fval) (title : option string) (fig_size : Z * Z)
    (x_label y_label : string) :
  x_label <> y_label -> x_label <> "label" -> y_label <> "label" ->
  let total := list_sum (map (fun item => rows_of (snd item)) time_series_dict) in
  (Forall wide_series time_series_dict ->
   exists xs ys ls : list cell,
     to_plot_dict_2d time_series_dict x_label y_label
     = Done [(x_label, xs); (y_label, ys); ("label", ls)]
     /\ xs = flat_map (y_cells 0) time_series_dict
     /\ ys = flat_map (y_cells 1) time_series_dict
     /\ ls = flat_map (fun item => repeat (CStr (fst item)) (rows_of (snd item)))
               time_series_dict
     /\ List.length xs = total /\ List.length ys = total /\ List.length ls = total)
  /\ (Exists (fun item => ~ wide_series item) time_series_dict ->
      multiple_2d_time_series figure px update_traces update_layout time_series_dict
        mode line_size scatter_size title fig_size x_label y_label
      = Failed IndexError).
Proof.
  intros Hxy Hxl Hyl total. split.
  - intro Hwide. unfold to_plot_dict_2d.
    rewrite (literal_three _ _ _ Hxy Hxl Hyl), (series_2d_loop _ _ Hxy Hxl Hyl)
      by assumption.
    cbn [app]. do 3 eexists. split; [reflexivity |].
    do 3 (split; [reflexivity |]).
    assert (forall i : Z, (0 <= i < 2)%Z ->
              map (fun item => List.length (y_cells i item)) time_series_dict
              = map (fun item => rows_of (snd item)) time_series_dict) as Hlen.
    { intros i Hi. apply map_ext_in. intros item Hin.
      rewrite Forall_forall in Hwide.
      destruct (Hwide item Hin) as (nrows & ncols & entry & E & H).
      unfold y_cells. rewrite E, column_in_range by lia.
      cbn [rows_of]. now rewrite !length_map, length_seq. }
    rewrite !length_flat_map. subst total.
    rewrite (Hlen 0%Z), (Hlen 1%Z) by lia.
    repeat split. f_equal. apply map_ext. intro item. apply repeat_length.
  - intro Hex. unfold multiple_2d_time_series, to_plot_dict_2d.
    rewrite (literal_three _ _ _ Hxy Hxl Hyl),
      (series_2d_loop_fails _ _ Hxy Hxl Hyl) by assumption.
    reflexivity.
Qed.

Lemma table_2d_columns_witness :
  "x" <> "y" /\ "x" <> "label" /\ "y" <> "label"
  /\ multiple_2d_time_series (pydict (list cell))
       (fun _ t _ _ _ _ => Done t) (fun _ _ fig => Done fig) (fun _ _ fig => Done fig)
       [("a", Arr2 4 3 (fun t j => Fin (INR (t + j)))); ("b", Arr1 [Fin 1; Fin 2])]
       "line" None None None (650, 350)%Z "x" "y"
     = Failed IndexError.
Proof.
  assert ("x" <> "y") as H1 by discriminate.
  assert ("x" <> "label") as H2 by discriminate.
  assert ("y" <> "label") as H3 by discriminate.
  split; [exact H1 |]. split; [exact H2 |]. split; [exact H3 |].
  apply (table_2d_columns (pydict (list cell))
           (fun _ t _ _ _ _ => Done t) (fun _ _ fig => Done fig) (fun _ _ fig => Done fig)
           [("a", Arr2 4 3 (fun t j => Fin (INR (t + j)))); ("b", Arr1 [Fin 1; Fin 2])]
           "line" None None None (650, 350)%Z "x" "y" H1 H2 H3).
  apply Exists_cons_tl, Exists_cons_hd.
  intros (n & m & e & E & _). discriminate E.
Defined.

Section Dispatch.

Variable figure : Type.
Variable px : plot_kind -> pydict (list cell) -> string -> string -> string ->
              option string -> result figure.
Variable update_traces : plot_kind -> fval -> figure -> result figure.
Variable update_layout : Z -> Z -> figure -> result figure.
Variable px_3d : plot_kind -> pydict (list cell) -> string -> string -> string ->
                 string -> option string -> result figure.
Variable px_imshow : ndarray -> string -> Z -> Z -> string * string ->
                     option (list cell) -> result figure.
Variable plotly_chart : figure -> result unit.

(** Plotly and streamlit never raise. *)
Hypothesis px_returns :
  forall k t x y c title, exists fig : figure, px k t x y c title = Done fig.
Hypothesis update_traces_returns :
  forall k w fig, exists fig' : figure, update_traces k w fig = Done fig'.
Hypothesis update_layout_returns :
  forall h w fig, exists fig' : figure, update_layout h w fig = Done fig'.
Hypothesis px_3d_returns :
  forall k t x y z c title, exists fig : figure, px_3d k t x y z c title = Done fig.
Hypothesis px_imshow_returns :
  forall a title w h labels x, exists fig : figure,
    px_imshow a title w h labels x = Done fig.
Hypothesis plotly_chart_returns : forall fig, plotly_chart fig = Done tt.

Lemma multiple_figs_shows_all (figs : list figure) :
  multiple_figs figure plotly_chart figs = Done figs.
Proof.
  unfold multiple_figs.
  assert (forall shown : list figure,
            for_each figs
              (fun fig shown => _ <- plotly_chart fig ;; Done (shown ++ [fig])) shown
            = Done (shown ++ figs)) as H.
  { induction figs as [| fig figs IH]; intro shown; cbn [for_each].
    - now rewrite app_nil_r.
    - rewrite plotly_chart_returns. cbn [and_then]. rewrite IH.
      now rewrite <- app_assoc. }
  apply H.
Qed.

Lemma one_column_figure (T : nat) (entry : nat -> nat -> fval) :
  exists fig : figure,
    multiple_1d_time_series figure px update_traces update_layout
      [("simulated timeseries", Arr2 T 1 entry)] "line" (Some (Fin 1)) (Some (Fin 1))
      None (650, 350)%Z None "time step" "y" None
    = Done [fig].
Proof.
  assert ("time step" <> "y") as Hxy by discriminate.
  assert ("time step" <> "label") as Hxl by discriminate.
  assert ("y" <> "label") as Hyl by discriminate.
  unfold multiple_1d_time_series. cbn [seq map for_each]. unfold to_plot_dict_1d.
  rewrite (literal_three _ _ _ Hxy Hxl Hyl), (series_loop _ _ _ T _ _ _ _ _ Hxy Hxl Hyl).
  - cbn [and_then].
    match goal with
    | |- context [figure_of _ _ _ _ ?m ?l ?s ?f ?x ?y ?t ?d] =>
        destruct (figure_of_returns figure px update_traces update_layout px_returns
                    update_traces_returns update_layout_returns m l s f x y t d
                    ltac:(left; reflexivity)) as [fig ->]
    end.
    cbn [and_then app]. now exists fig.
  - constructor; [| constructor]. exists 1%nat, entry. split; [reflexivity | lia].
Qed.

Lemma two_column_figure (T : nat) (entry : nat -> nat -> fval) :
  exists fig : figure,
    multiple_2d_time_series figure px update_traces update_layout
      [("simulated timeseries", Arr2 T 2 entry)] "scatter" (Some (Fin 1)) (Some (Fin 1))
      None (650, 350)%Z "x" "y"
    = Done fig.
Proof.
  assert ("x" <> "y") as Hxy by discriminate.
  assert ("x" <> "label") as Hxl by discriminate.
  assert ("y" <> "label") as Hyl by discriminate.
  unfold multiple_2d_time_series, to_plot_dict_2d.
  rewrite (literal_three _ _ _ Hxy Hxl Hyl), (series_2d_loop _ _ Hxy Hxl Hyl).
  - cbn [and_then].
    apply (figure_of_returns figure px update_traces update_layout px_returns
             update_traces_returns update_layout_returns).
    right; reflexivity.
  - constructor; [| constructor]. exists T, 2%nat, entry. split; [reflexivity | lia].
Qed.

Lemma three_column_table (T : nat) (entry : nat -> nat -> fval) :
  exists to_plot_dict : pydict (list cell),
    to_plot_dict_3d [("simulated timeseries", Arr2 T 3 entry)] "x" "y" "z"
    = Done to_plot_dict.
Proof.
  unfold to_plot_dict_3d. cbn [for_each]. unfold add_series_3d.
  rewrite !column_in_range by lia. eexists. cbv. reflexivity.
Qed.

Lemma three_column_figure (T : nat) (entry : nat -> nat -> fval) :
  exists fig : figure,
    multiple_3d_time_series figure update_traces update_layout px_3d
      [("simulated timeseries", Arr2 T 3 entry)] "line" (Some (Fin 1)) (Some (Fin 1))
      None (650, 500)%Z "x" "y" "z"
    = Done fig.
Proof.
  unfold multiple_3d_time_series.
  destruct (three_column_table T entry) as [t ->]. cbn [and_then String.eqb Ascii.eqb Bool.eqb].
  destruct (px_3d_returns Line t "x" "y" "z" "label" None) as [f ->]. cbn [and_then].
  destruct (update_traces_returns Line (Fin 1) f) as [f' ->]. cbn [and_then].
  apply update_layout_returns.
Qed.

(** X19.  [multiple_time_series_image] when [px.imshow] does not raise:
    without [x_scale] every dict of series, the empty one too, gives one
    figure per series; with an [x_scale] the number of rows of the first
    series is looked up first, so the empty dict raises [IndexError] and
    every other dict gives one figure per series. *)
Theorem one_image_per_series (time_series_dict : pydict ndarray) (fig_size : Z * Z)
    (x_label y_label : string) (x_scale : option fval) :
  let figures :=
    multiple_time_series_image figure px_imshow time_series_dict fig_size x_label y_label
      x_scale in
  if match x_scale, time_series_dict with Some _, [] => true | _, _ => false end
  then figures = Failed IndexError
  else exists figs : list figure,
         figures = Done figs /\ List.length figs = List.length time_series_dict.
Proof.
  intro figures. subst figures. unfold multiple_time_series_image.
  assert (forall x_array : option (list cell),
            exists figs : list figure,
              for_each time_series_dict
                (fun item figs =>
                   let '(key, val) := item in
                   fig <- px_imshow (transpose val) key (fst fig_size) (snd fig_size)
                            (x_label, y_label) x_array ;;
                   Done (figs ++ [fig]))
                []
              = Done figs
              /\ List.length figs = List.length time_series_dict) as H.
  { intro x_array.
    destruct (for_each_appends figure time_series_dict
                (fun item figs =>
                   let '(key, val) := item in
                   fig <- px_imshow (transpose val) key (fst fig_size) (snd fig_size)
                            (x_label, y_label) x_array ;;
                   Done (figs ++ [fig]))
                []) as (figs & E & Hl).
    - intros [key val] figs _.
      destruct (px_imshow_returns (transpose val) key (fst fig_size) (snd fig_size)
                  (x_label, y_label) x_array) as [fig ->].
      cbn [and_then]. now exists fig.
    - exists figs. split; [exact E | exact Hl]. }
  destruct x_scale as [c |]; [destruct time_series_dict as [| [key first] rest] |];
    cbn [and_then].
  - reflexivity.
  - apply H.
  - apply H.
Qed.

(** X20.  [st_default_simulation_plot] when plotly and streamlit do not
    raise: a two-dimensional time series with at least one column leads to
    exactly one chart, whatever its number of rows and columns; with no
    column the call raises [ValueError] and with a one-dimensional time
    series [IndexError], and nothing is shown. *)
Theorem one_chart_per_time_series (time_series : ndarray) :
  let shown :=
    st_default_simulation_plot figure px update_traces update_layout px_3d px_imshow
      plotly_chart time_series in
  match shape time_series with
  | [_; 0%nat] => shown = Failed ValueError
  | [_; S _] => exists fig : figure, shown = Done [fig]
  | _ => shown = Failed IndexError
  end.
Proof.
  intro shown. subst shown. destruct time_series as [v | T D entry]; cbn [shape].
  - reflexivity.
  - destruct D as [| [| [| [| D]]]]; unfold st_default_simulation_plot;
      cbn [shape Nat.eqb Nat.ltb Nat.leb].
    + reflexivity.
    + destruct (one_column_figure T entry) as [fig ->]. cbn [and_then].
      exists fig. apply multiple_figs_shows_all.
    + destruct (two_column_figure T entry) as [fig ->]. cbn [and_then].
      rewrite plotly_chart_returns. now exists fig.
    + destruct (three_column_figure T entry) as [fig ->]. cbn [and_then].
      rewrite plotly_chart_returns. now exists fig.
    + unfold multiple_time_series_image. cbn [and_then for_each].
      match goal with
      | |- context [px_imshow ?a ?t ?w ?h ?l ?x] =>
          destruct (px_imshow_returns a t w h l x) as [fig ->]
      end.
      cbn [and_then app]. exists fig. apply multiple_figs_shows_all.
Qed.

End Dispatch.

(** Plotting functions that return the table they were given as the
    figure, or the empty table for an image. *)
Lemma one_chart_per_time_series_witness :
  exists fig : pydict (list cell),
    st_default_simulation_plot (pydict (list cell))
      (fun _ t _ _ _ _ => Done t) (fun _ _ fig => Done fig) (fun _ _ fig => Done fig)
      (fun _ t _ _ _ _ _ => Done t) (fun _ _ _ _ _ _ => Done []) (fun _ => Done tt)
      (Arr2 4 3 (fun t j => Fin (INR (t + j))))
    = Done [fig].
Proof.
  exact (one_chart_per_time_series (pydict (list cell))
           (fun _ t _ _ _ _ => Done t) (fun _ _ fig => Done fig) (fun _ _ fig => Done fig)
           (fun _ t _ _ _ _ _ => Done t) (fun _ _ _ _ _ _ => Done []) (fun _ => Done tt)
           ltac:(intros; eexists; reflexivity) ltac:(intros; eexists; reflexivity)
           ltac:(intros; eexists; reflexivity) ltac:(intros; eexists; reflexivity)
           ltac:(intros; eexists; reflexivity) ltac:(intros; reflexivity)
           (Arr2 4 3 (fun t j => Fin (INR (t + j))))).
Defined.

Lemma one_image_per_series_witness :
  exists figs : list ndarray,
    multiple_time_series_image ndarray (fun a _ _ _ _ _ => Done a)
      [("a", Arr2 4 5 (fun t j => Fin (INR (t + j)))); ("b", Arr1 [Fin 1; Fin 2])]
      (650, 350)%Z "x" "y" (Some (Fin 2))
    = Done figs
    /\ List.length figs = 2%nat.
Proof.
  exact (one_image_per_series ndarray (fun a _ _ _ _ _ => Done a)
           ltac:(intros; eexists; reflexivity)
           [("a", Arr2 4 5 (fun t j => Fin (INR (t + j)))); ("b", Arr1 [Fin 1; Fin 2])]
           (650, 350)%Z "x" "y" (Some (Fin 2))).
Defined.

End PlotsFacts.

(* ================================================================= *)
(** ** Two runs in double precision *)

Module Binary64Facts.

Import PrimFloat.
Local Open Scope float_scope.


(** The double [0x1.6a09e667f3bccp-1] (0.7071067811865475) is
    [6369051672525772 / 2^53], below [1 / sqrt 2]. *)
Lemma to_real_default_component :
  Binary64.to_real 0x1.6a09e667f3bccp-1 = (6369051672525772 / 9007199254740992)%R.
Proof.
  unfold Binary64.to_real.
  replace (FloatOps.Prim2SF 0x1.6a09e667f3bccp-1)
    with (SpecFloat.S754_finite false 6369051672525772 (-53))
    by (vm_compute; reflexivity).
  cbn [powerRZ]. cbv iota.
  replace (2 ^ Pos.to_nat 53)%R with 9007199254740992%R.
  - unfold Rdiv. ring.
  - change (Pos.to_nat 53) with 53%nat. rewrite pow_IZR. apply f_equal.
    vm_compute. reflexivity.
Qed.

(** C10 as stated fails on doubles.  The map [x -> 2 x] started at
    [[0.0, 0.0]] without [initial_perturbation], with
    [deviation_scale = 1.0], one block of one step: the second array the
    iterator is called with is [x_pert] of line 50, here the rescaled
    default perturbation itself,
    [[0.7071067811865475, 0.7071067811865475]].  The Euclidean length of
    that vector is below [deviation_scale]. *)
Lemma default_perturbation_length_in_doubles :
  Binary64.iterator_arguments
    (Binary64.largest_lyapunov_exponent Binary64.doubling [0; 0] 1 1 1 1 None false)
  = [[0; 0]; [0x1.6a09e667f3bccp-1; 0x1.6a09e667f3bccp-1]]
  /\ (Rnorm [Binary64.to_real 0x1.6a09e667f3bccp-1; Binary64.to_real 0x1.6a09e667f3bccp-1]
      < 1)%R.
Proof.
  split; [vm_compute; reflexivity |].
  rewrite to_real_default_component. unfold Rnorm, Rsum. cbn [map fold_left].
  apply Rlt_le_trans with (R_sqrt.sqrt 1%R);
    [apply sqrt_lt_1_alt; lra | rewrite sqrt_1; lra].
Qed.

End Binary64Facts.
